(** * u3loop / u3bench: statistics, transfer pipeline and device bring-up

    A shallow embedding of the host tools for the PassMark USB 3.0 loopback
    plug: [u3bench.c] (asynchronous benchmark) and [u3loop.c] (synchronous
    loopback tester), with the wire structures of [u3loop_defines.h].

    C integers are integers of [Z] with the wrap-around of their type written
    out; structs are records; the calls into libusb and libc are explicit
    inputs (what the call returned) and explicit state (what the library
    remembers about a transfer). *)

From Stdlib.Strings Require Import Byte.
From stdpp Require Import base option list numbers strings.

Local Open Scope Z_scope.

(** ** Machine integers and the few libc types the tools use *)
Module Mach.

(** [uint32_t] / [unsigned int]. *)
Definition u32 (x : Z) : Z := x `mod` 2 ^ 32.

(** [uint64_t] / [unsigned long long] / [size_t]. *)
Definition u64 (x : Z) : Z := x `mod` 2 ^ 64.

(** [int]: the two's complement result of the 32-bit targets' [add]. *)
Definition s32 (x : Z) : Z := (x + 2 ^ 31) `mod` 2 ^ 32 - 2 ^ 31.

(** [long] / [time_t]. *)
Definition s64 (x : Z) : Z := (x + 2 ^ 63) `mod` 2 ^ 64 - 2 ^ 63.

Definition INT_MAX : Z := 2 ^ 31 - 1.
Definition UINT32_MAX : Z := 2 ^ 32 - 1.
Definition UINT64_MAX : Z := 2 ^ 64 - 1.

Definition is_u32 (x : Z) : Prop := 0 ≤ x ≤ UINT32_MAX.
Definition is_u64 (x : Z) : Prop := 0 ≤ x ≤ UINT64_MAX.
Definition is_int (x : Z) : Prop := - 2 ^ 31 ≤ x ≤ INT_MAX.

(** Unsigned 64-bit division.  Dividing by zero traps: [None]. *)
Definition udiv64 (a b : Z) : option Z :=
    if decide (b = 0) then None else Some (a `div` b).

(** [struct timespec]. *)
Record timespec := { tv_sec : Z; tv_nsec : Z }.

(** [(now.tv_sec - t.tv_sec) * 1000000 + (now.tv_nsec - t.tv_nsec) / 1000],
      computed in [long] and stored in a [uint64_t]. *)
Definition usec_between (now t : timespec) : Z :=
    u64 (s64 (s64 (s64 (tv_sec now - tv_sec t) * 1000000)
              + Z.quot (s64 (tv_nsec now - tv_nsec t)) 1000)).

(** [uint8_t], for the contents of buffers. *)
#[global] Instance byte_eq_dec : EqDecision byte := Byte.byte_eq_dec.

(** [memcmp(a, b, n)] on arrays of at least [n] bytes: zero when the first
    [n] bytes agree, otherwise the difference of the first two that differ. *)
Fixpoint memcmp (a b : list byte) (n : nat) : Z :=
  match n, a, b with
  | S n', x :: a', y :: b' =>
      if decide (x = y) then memcmp a' b' n'
      else Z.of_N (Byte.to_N x) - Z.of_N (Byte.to_N y)
  | _, _, _ => 0
  end.

(** A [double] that was assigned either the macro [INFINITY] or the result
      of an integer expression of type [uint64_t]. *)
Inductive double :=
  | INFINITY
  | of_uint64 (q : Z).

End Mach.

(** ** The part of libusb's interface the tools rely on ([libusb.h]) *)
Module Libusb.

Definition LIBUSB_SUCCESS : Z := 0.
Definition LIBUSB_ERROR_NO_DEVICE : Z := -4.
Definition LIBUSB_ERROR_NOT_FOUND : Z := -5.
Definition LIBUSB_ERROR_BUSY : Z := -6.
Definition LIBUSB_ERROR_TIMEOUT : Z := -7.
Definition LIBUSB_ERROR_OVERFLOW : Z := -8.
Definition LIBUSB_ERROR_PIPE : Z := -9.

Definition LIBUSB_ENDPOINT_IN : Z := 0x80.
Definition LIBUSB_ENDPOINT_OUT : Z := 0x00.
Definition LIBUSB_ENDPOINT_DIR_MASK : Z := 0x80.

(** [enum libusb_transfer_status]. *)
Inductive libusb_transfer_status :=
  | LIBUSB_TRANSFER_COMPLETED
  | LIBUSB_TRANSFER_ERROR
  | LIBUSB_TRANSFER_TIMED_OUT
  | LIBUSB_TRANSFER_CANCELLED
  | LIBUSB_TRANSFER_STALL
  | LIBUSB_TRANSFER_NO_DEVICE
  | LIBUSB_TRANSFER_OVERFLOW.

#[global] Instance libusb_transfer_status_eq_dec :
    EqDecision libusb_transfer_status.
Proof. solve_decision. Defined.

(** What libusb remembers about a transfer object between
      [libusb_submit_transfer] and the callback. *)
Inductive flight_t :=
  | Idle          (* not submitted, or already handed to the callback *)
  | Submitted     (* submitted, completion pending *)
  | Cancelling.   (* submitted, [libusb_cancel_transfer] was called *)

#[global] Instance flight_t_eq_dec : EqDecision flight_t.
Proof. solve_decision. Defined.

(** [struct libusb_transfer]: the public fields the tools read or fill,
      and [flight], libusb's private state of the object. *)
Module libusb_transfer.
Record t := mk {
      endpoint : Z;                     (* unsigned char *)
      status : libusb_transfer_status;
      length : Z;                       (* int *)
      actual_length : Z;                (* int *)
      buffer : option Z;                (* NULL or the buffer's address *)
      flight : flight_t
    }.
End libusb_transfer.

Definition in_flight (t : libusb_transfer.t) : bool :=
  negb (bool_decide (libusb_transfer.flight t = Idle)).

Definition set_flight (f : flight_t) (t : libusb_transfer.t) : libusb_transfer.t :=
  libusb_transfer.mk (libusb_transfer.endpoint t) (libusb_transfer.status t)
    (libusb_transfer.length t) (libusb_transfer.actual_length t)
    (libusb_transfer.buffer t) f.

(** [libusb_submit_transfer(transfer)]: [answer] is what the backend says to
    the submission; an object that is still submitted is refused with
    LIBUSB_ERROR_BUSY before the backend is asked. *)
Definition libusb_submit_transfer (answer : Z) (t : libusb_transfer.t)
    : Z * libusb_transfer.t :=
  if in_flight t then (LIBUSB_ERROR_BUSY, t)
  else if decide (answer = LIBUSB_SUCCESS) then (LIBUSB_SUCCESS, set_flight Submitted t)
  else (answer, t).

(** [libusb_cancel_transfer(transfer)]: asynchronous, the callback follows
    later; LIBUSB_ERROR_NOT_FOUND when the transfer is not in progress. *)
Definition libusb_cancel_transfer (t : libusb_transfer.t) : Z * libusb_transfer.t :=
  match libusb_transfer.flight t with
  | Submitted => (LIBUSB_SUCCESS, set_flight Cancelling t)
  | _ => (LIBUSB_ERROR_NOT_FOUND, t)
  end.

(** Which completions event handling can hand to the callback of an object
    in state [f]: none when it is not submitted, LIBUSB_TRANSFER_CANCELLED
    only after a cancel request. *)
Definition deliverable (st : libusb_transfer_status) (f : flight_t) : bool :=
  match f with
  | Idle => false
  | Submitted => negb (bool_decide (st = LIBUSB_TRANSFER_CANCELLED))
  | Cancelling => true
  end.

(** The object as the callback receives it: status and actual length
    filled in, no longer submitted. *)
Definition complete (st : libusb_transfer_status) (actual : Z)
    (t : libusb_transfer.t) : libusb_transfer.t :=
  libusb_transfer.mk (libusb_transfer.endpoint t) st
    (libusb_transfer.length t) actual (libusb_transfer.buffer t) Idle.

(** [libusb_alloc_transfer(0)] followed by [libusb_fill_bulk_transfer]. *)
Definition libusb_fill_bulk_transfer (ep : Z) (buf : Z) (len : Z) : libusb_transfer.t :=
  libusb_transfer.mk ep LIBUSB_TRANSFER_COMPLETED len 0 (Some buf) Idle.

(** A device on the bus, as the enumeration calls of [open_device] see it:
      each field is what the corresponding libusb call answers for it. *)
Record usb_device := {
    descriptor_ret : Z;          (* libusb_get_device_descriptor *)
    idVendor : Z;
    idProduct : Z;
    open_ret : Z;                (* libusb_open *)
    serial_descriptor : Z + string;
      (* libusb_get_string_descriptor_ascii on iSerialNumber: an error code,
         or the string that is copied to the caller's buffer *)
    claim_ret : Z                (* libusb_claim_interface *)
  }.

(** [libusb_get_string_descriptor_ascii(dev, index, data, length)]:
      returns the number of bytes stored in [data], or an error code and
      then [data] is left as it was. *)
Definition libusb_get_string_descriptor_ascii
      (d : usb_device) (data : string) : Z * string :=
    match serial_descriptor d with
    | inl code => (code, data)
    | inr s => (Z.of_nat (String.length s), s)
    end.

End Libusb.

(** ** [u3loop_defines.h] *)
Module Defines.

(** [struct u3loop_errors], the answer to U3LOOP_CMD_GET_ERROR_COUNTERS;
      four [uint32_t]. *)
Record u3loop_errors := {
    phy_error_cnt : Z;
    ll_error_cnt : Z;
    phy_errors : Z;
    ll_errors : Z
  }.

Definition u3loop_errors_zero : u3loop_errors :=
    {| phy_error_cnt := 0; ll_error_cnt := 0; phy_errors := 0; ll_errors := 0 |}.

(** The four statements under "Update cumulative counters" that both
      [print_measurement] functions start with. *)
Definition accumulate_dev_errors (cum ival : u3loop_errors) : u3loop_errors :=
    {| phy_error_cnt := Mach.u32 (phy_error_cnt cum + phy_error_cnt ival);
       ll_error_cnt := Mach.u32 (ll_error_cnt cum + ll_error_cnt ival);
       phy_errors := Z.lor (phy_errors cum) (phy_errors ival);
       ll_errors := Z.lor (ll_errors cum) (ll_errors ival) |}.

(** [cum'] is no smaller than [cum] in the members where adding [ival] did
    not exceed UINT32_MAX; the two bit masks only gain bits. *)
Definition dev_errors_grow (cum ival cum' : u3loop_errors) : Prop :=
  (0 ≤ phy_errors ival → phy_errors cum ≤ phy_errors cum') ∧
  (0 ≤ ll_errors ival → ll_errors cum ≤ ll_errors cum') ∧
  (0 ≤ phy_error_cnt cum → 0 ≤ phy_error_cnt ival →
   phy_error_cnt cum + phy_error_cnt ival ≤ Mach.UINT32_MAX →
   phy_error_cnt cum' = phy_error_cnt cum + phy_error_cnt ival
   ∧ phy_error_cnt cum ≤ phy_error_cnt cum') ∧
  (0 ≤ ll_error_cnt cum → 0 ≤ ll_error_cnt ival →
   ll_error_cnt cum + ll_error_cnt ival ≤ Mach.UINT32_MAX →
   ll_error_cnt cum' = ll_error_cnt cum + ll_error_cnt ival
   ∧ ll_error_cnt cum ≤ ll_error_cnt cum').

(** The test modes u3bench's [-m] can select. *)
Inductive u3loop_mode :=
  | U3LOOP_MODE_READ
  | U3LOOP_MODE_WRITE
  | U3LOOP_MODE_READ_WRITE.

Definition MAX_DEVICE_WAIT : nat := 10.

End Defines.

(** ** [open_device], the device lookup both tools share

    u3bench.c takes the vendor and product id as arguments, u3loop.c has
    them as the macros VID and PID; the bodies are otherwise the same. *)
Module OpenDevice.
Import Libusb.

(** How one iteration of the lookup loop ends for the candidate [devs[i]]. *)
Inductive verdict :=
  | NoDescriptor       (* libusb_get_device_descriptor failed: continue *)
  | OtherDevice        (* idVendor or idProduct differs: continue *)
  | NotOpened          (* libusb_open failed: continue *)
  | SerialUnreadable   (* "Unable to get serial number": close, continue *)
  | SerialDiffers      (* strcmp(...) != 0: close *)
  | Found.             (* found = true; the handle stays open *)

#[global] Instance verdict_eq_dec : EqDecision verdict.
Proof. solve_decision. Defined.

Section lookup.
Variables vid pid : Z.
Variable serial_number : option string.   (* NULL when no -s was given *)

(** The body of the [for] loop.  [serial_str] is the automatic array of
        that name: its contents before the call to
        libusb_get_string_descriptor_ascii are whatever the stack holds. *)
Definition examine (d : usb_device) (serial_str : string) : verdict * string :=
      if decide (descriptor_ret d ≠ LIBUSB_SUCCESS) then (NoDescriptor, serial_str)
      else if decide (idVendor d ≠ vid ∨ idProduct d ≠ pid) then (OtherDevice, serial_str)
      else if decide (open_ret d ≠ LIBUSB_SUCCESS) then (NotOpened, serial_str)
      else
        let '(err, serial_str) := libusb_get_string_descriptor_ascii d serial_str in
        if decide (err = LIBUSB_SUCCESS) then (SerialUnreadable, serial_str)
        else
          match serial_number with
          | None => (Found, serial_str)
          | Some sn =>
              if decide (serial_str = sn) then (Found, serial_str)
              else (SerialDiffers, serial_str)
          end.

(** [for (i=0; i < cnt && !found; i++)]: the index of the device the
        loop stops at with [found] set. *)
Fixpoint scan (devs : list usb_device) (i : nat) (serial_str : string) : option nat :=
      match devs with
      | [] => None
      | d :: devs' =>
          match examine d serial_str with
          | (Found, _) => Some i
          | (_, serial_str') => scan devs' (S i) serial_str'
          end
      end.

(** [open_device]: [devs] is what libusb_get_device_list produced ([None]
        for [cnt < 0]); the handle returned is named by the position of its
        device in that list, [None] is the NULL result. *)
Definition open_device (devs : option (list usb_device)) (stack : string) : option nat :=
      match devs with
      | None => None
      | Some devs =>
          match scan devs 0%nat stack with
          | None => None
          | Some i =>
              match devs !! i with
              | Some d =>
                  if decide (claim_ret d ≠ LIBUSB_SUCCESS) then None else Some i
              | None => None
              end
          end
      end.

(** The re-enumeration wait of both [main]s:
        [for (i=0; dev == NULL && i < MAX_DEVICE_WAIT; i++) { sleep(1); dev = open_device(...); }]
        [bus k] is what the bus looks like at the poll number [k] (from 0).
        The result carries the handle and the number of iterations done,
        each of which is one [sleep(1)] followed by one [open_device]. *)
Fixpoint wait_loop (bus : nat → option (list usb_device) * string)
        (budget : nat) (i : nat) : option nat * nat :=
      match budget with
      | O => (None, i)
      | S budget' =>
          match open_device (bus i).1 (bus i).2 with
          | Some dev => (Some dev, S i)
          | None => wait_loop bus budget' (S i)
          end
      end.

Inductive reenumeration :=
    | Reenumerated (dev : nat)
    | ReenumerationTimeout.   (* "Timeout waiting for device to re-enumerate" *)

Definition await_reenumeration (bus : nat → option (list usb_device) * string)
        : reenumeration * nat :=
      match wait_loop bus Defines.MAX_DEVICE_WAIT 0%nat with
      | (Some dev, polls) => (Reenumerated dev, polls)
      | (None, polls) => (ReenumerationTimeout, polls)
      end.

End lookup.

End OpenDevice.

(** ** Results of code that may not return *)
Module Outcome.

(** [Ret]: returned normally.  [Fault]: the program was killed (division by
    zero, a NULL or indeterminate pointer used).  [Waiting]: still blocked in
    a library call when the recorded inputs ended. *)
Inductive result (A : Type) :=
| Ret (a : A)
| Fault
| Waiting.
Arguments Ret {A} a.
Arguments Fault {A}.
Arguments Waiting {A}.

#[global] Instance result_ret : MRet result := λ A a, Ret a.
#[global] Instance result_bind : MBind result := λ A B f r,
  match r with
  | Ret a => f a
  | Fault => Fault
  | Waiting => Waiting
  end.

Definition trap {A} (o : option A) : result A :=
  match o with
  | Some a => Ret a
  | None => Fault
  end.

(** The value returned, [d] when there is none. *)
Definition returned {A} (d : A) (r : result A) : A :=
  match r with
  | Ret a => a
  | _ => d
  end.

Definition is_ret {A} (r : result A) : bool :=
  match r with
  | Ret _ => true
  | _ => false
  end.

End Outcome.

(** ** u3bench.c: the asynchronous benchmark *)
Module U3bench.
Import Mach Libusb Defines Outcome.

Definition BULK_IN : Z := Z.lor 0x01 LIBUSB_ENDPOINT_IN.
Definition BULK_OUT : Z := 0x01.
Definition BUFFER_CNT : nat := 64.

(** [struct host_errors_t]; six [int]. *)
Module host_errors_t.
Record t := mk {
  data_corrupt : Z;
  error : Z;
  length : Z;
  stall : Z;
  timeout : Z;
  overflow : Z
}.
Definition zero : t := mk 0 0 0 0 0 0.
End host_errors_t.

(** [struct stat_counters]; two [uint64_t]. *)
Record stat_counters := { tx_bytes : Z; rx_bytes : Z }.

(** [struct state_t]. *)
Record state_t := {
  start_time : timespec;
  active_transfers : Z;       (* unsigned int *)
  ops : Z;                    (* unsigned long long *)
  ctrs : stat_counters;
  host_errors : host_errors_t.t;
  dev_errors : u3loop_errors;
  cum_host_errors : host_errors_t.t;
  cum_dev_errors : u3loop_errors;
  measurement_time : timespec;
  measurement : stat_counters
}.

(** [struct state_t state = { 0 }]. *)
Definition state_zero : state_t :=
  {| start_time := {| tv_sec := 0; tv_nsec := 0 |};
     active_transfers := 0;
     ops := 0;
     ctrs := {| tx_bytes := 0; rx_bytes := 0 |};
     host_errors := host_errors_t.zero;
     dev_errors := u3loop_errors_zero;
     cum_host_errors := host_errors_t.zero;
     cum_dev_errors := u3loop_errors_zero;
     measurement_time := {| tv_sec := 0; tv_nsec := 0 |};
     measurement := {| tx_bytes := 0; rx_bytes := 0 |} |}.

(** Assignments to single members of [state]. *)
Definition set_active_transfers (v : Z) (s : state_t) : state_t :=
  {| start_time := start_time s; active_transfers := v; ops := ops s;
     ctrs := ctrs s; host_errors := host_errors s; dev_errors := dev_errors s;
     cum_host_errors := cum_host_errors s; cum_dev_errors := cum_dev_errors s;
     measurement_time := measurement_time s; measurement := measurement s |}.

Definition set_ops (v : Z) (s : state_t) : state_t :=
  {| start_time := start_time s; active_transfers := active_transfers s; ops := v;
     ctrs := ctrs s; host_errors := host_errors s; dev_errors := dev_errors s;
     cum_host_errors := cum_host_errors s; cum_dev_errors := cum_dev_errors s;
     measurement_time := measurement_time s; measurement := measurement s |}.

Definition set_ctrs (v : stat_counters) (s : state_t) : state_t :=
  {| start_time := start_time s; active_transfers := active_transfers s; ops := ops s;
     ctrs := v; host_errors := host_errors s; dev_errors := dev_errors s;
     cum_host_errors := cum_host_errors s; cum_dev_errors := cum_dev_errors s;
     measurement_time := measurement_time s; measurement := measurement s |}.

Definition set_host_errors (v : host_errors_t.t) (s : state_t) : state_t :=
  {| start_time := start_time s; active_transfers := active_transfers s; ops := ops s;
     ctrs := ctrs s; host_errors := v; dev_errors := dev_errors s;
     cum_host_errors := cum_host_errors s; cum_dev_errors := cum_dev_errors s;
     measurement_time := measurement_time s; measurement := measurement s |}.

(** ** [print_measurement] *)

(** The values of one line of the interval report, in the order of the
    [printf] arguments. *)
Record measurement_line := {
  line_time : Z;            (* total_time_usec / 1000000 *)
  line_ops : Z;
  line_mbps : double;
  line_avg_mbps : double;
  line_tx_mbps : double;
  line_tx_avg_mbps : double;
  line_rx_mbps : double;
  line_rx_avg_mbps : double;
  line_host_errors : Z
}.

(** [s->cum_host_errors.x += s->host_errors.x], for the six members. *)
Definition accumulate_host_errors (cum ival : host_errors_t.t) : host_errors_t.t :=
  host_errors_t.mk
    (s32 (host_errors_t.data_corrupt cum + host_errors_t.data_corrupt ival))
    (s32 (host_errors_t.error cum + host_errors_t.error ival))
    (s32 (host_errors_t.length cum + host_errors_t.length ival))
    (s32 (host_errors_t.stall cum + host_errors_t.stall ival))
    (s32 (host_errors_t.timeout cum + host_errors_t.timeout ival))
    (s32 (host_errors_t.overflow cum + host_errors_t.overflow ival)).

(** [uint64_t ival_usec] of [print_measurement]. *)
Definition ival_usec (now : timespec) (s : state_t) : Z :=
  usec_between now (measurement_time s).

(** [uint64_t total_time_usec] of [print_measurement]. *)
Definition total_time_usec (now : timespec) (s : state_t) : Z :=
  usec_between now (start_time s).

(** The three interval rates: [INFINITY] unless [ival_usec != 0]. *)
Definition interval_rates (tx rx usec : Z) : option (double * double * double) :=
  if decide (usec ≠ 0) then
    mbps ← udiv64 (u64 (u64 (tx + rx) * 8)) usec;
    tx_mbps ← udiv64 (u64 (tx * 8)) usec;
    rx_mbps ← udiv64 (u64 (rx * 8)) usec;
    Some (of_uint64 mbps, of_uint64 tx_mbps, of_uint64 rx_mbps)
  else Some (INFINITY, INFINITY, INFINITY).

(** The three average rates: [INFINITY] unless [total_time_usec != 0]. *)
Definition average_rates (c : stat_counters) (usec : Z) : option (double * double * double) :=
  if decide (usec ≠ 0) then
    avg_mbps ← udiv64 (u64 (u64 (rx_bytes c + tx_bytes c) * 8)) usec;
    tx_avg_mbps ← udiv64 (u64 (tx_bytes c * 8)) usec;
    rx_avg_mbps ← udiv64 (u64 (rx_bytes c * 8)) usec;
    Some (of_uint64 avg_mbps, of_uint64 tx_avg_mbps, of_uint64 rx_avg_mbps)
  else Some (INFINITY, INFINITY, INFINITY).

(** [int host_errors] of [print_measurement]: the sum of the six interval
    counters. *)
Definition host_errors_sum (h : host_errors_t.t) : Z :=
  s32 (s32 (s32 (s32 (s32 (host_errors_t.data_corrupt h + host_errors_t.error h)
                      + host_errors_t.length h)
                 + host_errors_t.stall h)
            + host_errors_t.timeout h)
       + host_errors_t.overflow h).

(** [print_measurement(s)].  [clock] is what [clock_gettime] delivers
    ([None] when it returns -1: the function prints the error and returns).
    The result is the state afterwards and the line printed; no result at
    all ([None]) stands for a division trap. *)
Definition print_measurement (clock : option timespec) (s : state_t)
    : option (state_t * option measurement_line) :=
  match clock with
  | None => Some (s, None)
  | Some now =>
      let cum_dev := accumulate_dev_errors (cum_dev_errors s) (dev_errors s) in
      let cum_host := accumulate_host_errors (cum_host_errors s) (host_errors s) in
      let tx := u64 (tx_bytes (ctrs s) - tx_bytes (measurement s)) in
      let rx := u64 (rx_bytes (ctrs s) - rx_bytes (measurement s)) in
      let ival := ival_usec now s in
      let total := total_time_usec now s in
      '(mbps, tx_mbps, rx_mbps) ← interval_rates tx rx ival;
      '(avg_mbps, tx_avg_mbps, rx_avg_mbps) ← average_rates (ctrs s) total;
      let line :=
        {| line_time := total `div` 1000000;
           line_ops := ops s;
           line_mbps := mbps;
           line_avg_mbps := avg_mbps;
           line_tx_mbps := tx_mbps;
           line_tx_avg_mbps := tx_avg_mbps;
           line_rx_mbps := rx_mbps;
           line_rx_avg_mbps := rx_avg_mbps;
           line_host_errors := host_errors_sum (host_errors s) |} in
      Some ({| start_time := start_time s;
               active_transfers := active_transfers s;
               ops := ops s;
               ctrs := ctrs s;
               host_errors := host_errors_t.zero;
               dev_errors := u3loop_errors_zero;
               cum_host_errors := cum_host;
               cum_dev_errors := cum_dev;
               measurement_time := now;
               measurement := ctrs s |}, Some line)
  end.

(** The six counters by name. *)
Inductive host_counter :=
| DataCorrupt
| Error
| Length
| Stall
| Timeout
| Overflow.

#[global] Instance host_counter_eq_dec : EqDecision host_counter.
Proof. solve_decision. Defined.

Definition all_host_counters : list host_counter :=
  [DataCorrupt; Error; Length; Stall; Timeout; Overflow].

Definition counter_value (c : host_counter) (h : host_errors_t.t) : Z :=
  match c with
  | DataCorrupt => host_errors_t.data_corrupt h
  | Error => host_errors_t.error h
  | Length => host_errors_t.length h
  | Stall => host_errors_t.stall h
  | Timeout => host_errors_t.timeout h
  | Overflow => host_errors_t.overflow h
  end.

(** [h'] is [h] after [c++] on the counter [c] and nothing else. *)
Definition only_incremented (c : host_counter) (h h' : host_errors_t.t) : Prop :=
  ∀ c', counter_value c' h' =
        if decide (c' = c) then s32 (counter_value c' h + 1) else counter_value c' h.

(** ** The variables of [main] the pipeline works on *)

(** An element of [struct libusb_transfer *xfers[BUFFER_CNT]]: not yet
    assigned, NULL, or pointing to a transfer object (which only this
    element points to, so the object is kept in place). *)
Inductive xfer_ptr :=
| Indeterminate
| NULL
| Ptr (t : libusb_transfer.t).

(** The calls we keep a record of.  [Free] also notes the value
    [state.active_transfers] had when [free] was called. *)
Inductive call :=
| Submit (i : nat) (ret : Z)       (* libusb_submit_transfer(xfers[i]) *)
| Callback (i : nat)               (* libusb calling transfer_cb(xfers[i]) *)
| Cancel (i : nat)                 (* libusb_cancel_transfer(xfers[i]) *)
| Free (buf : Z) (active : Z)      (* free(xfers[i]->buffer) *)
| FreeTransfer (i : nat)           (* libusb_free_transfer(xfers[i]) *)
| Print (l : measurement_line).    (* the printf of print_measurement *)

(** [state], the global [terminate], [xfers], and the record of calls
    (latest first). *)
Record world := {
  state : state_t;
  terminate : bool;
  xfers : list xfer_ptr;
  log : list call
}.

Definition on_state (f : state_t → state_t) (w : world) : world :=
  {| state := f (state w); terminate := terminate w; xfers := xfers w; log := log w |}.

Definition set_terminate (w : world) : world :=
  {| state := state w; terminate := true; xfers := xfers w; log := log w |}.

Definition store (i : nat) (p : xfer_ptr) (w : world) : world :=
  {| state := state w; terminate := terminate w; xfers := <[i := p]> (xfers w);
     log := log w |}.

Definition record (c : call) (w : world) : world :=
  {| state := state w; terminate := terminate w; xfers := xfers w; log := c :: log w |}.

(** [state->host_errors.x++] for the four members the callback counts. *)
Definition count_length (h : host_errors_t.t) : host_errors_t.t :=
  host_errors_t.mk (host_errors_t.data_corrupt h) (host_errors_t.error h)
    (s32 (host_errors_t.length h + 1)) (host_errors_t.stall h)
    (host_errors_t.timeout h) (host_errors_t.overflow h).

Definition count_error (h : host_errors_t.t) : host_errors_t.t :=
  host_errors_t.mk (host_errors_t.data_corrupt h) (s32 (host_errors_t.error h + 1))
    (host_errors_t.length h) (host_errors_t.stall h)
    (host_errors_t.timeout h) (host_errors_t.overflow h).

Definition count_timeout (h : host_errors_t.t) : host_errors_t.t :=
  host_errors_t.mk (host_errors_t.data_corrupt h) (host_errors_t.error h)
    (host_errors_t.length h) (host_errors_t.stall h)
    (s32 (host_errors_t.timeout h + 1)) (host_errors_t.overflow h).

Definition count_stall (h : host_errors_t.t) : host_errors_t.t :=
  host_errors_t.mk (host_errors_t.data_corrupt h) (host_errors_t.error h)
    (host_errors_t.length h) (s32 (host_errors_t.stall h + 1))
    (host_errors_t.timeout h) (host_errors_t.overflow h).

Definition count_overflow (h : host_errors_t.t) : host_errors_t.t :=
  host_errors_t.mk (host_errors_t.data_corrupt h) (host_errors_t.error h)
    (host_errors_t.length h) (host_errors_t.stall h)
    (host_errors_t.timeout h) (s32 (host_errors_t.overflow h + 1)).

(** The LIBUSB_TRANSFER_COMPLETED case of the callback's [switch]. *)
Definition completed_case (is_tx : bool) (transfer : libusb_transfer.t)
    (s : state_t) : state_t :=
  let s := set_ops (u64 (ops s + 1)) s in
  let s :=
    if decide (libusb_transfer.length transfer ≠ libusb_transfer.actual_length transfer)
    then set_host_errors (count_length (host_errors s)) s
    else s in
  if is_tx then
    set_ctrs {| tx_bytes := u64 (tx_bytes (ctrs s) + libusb_transfer.actual_length transfer);
                rx_bytes := rx_bytes (ctrs s) |} s
  else
    set_ctrs {| tx_bytes := tx_bytes (ctrs s);
                rx_bytes := u64 (rx_bytes (ctrs s) + libusb_transfer.actual_length transfer) |} s.

(** The [switch (transfer->status)]: [None] is the [return] of the
    LIBUSB_TRANSFER_CANCELLED case, otherwise control reaches the code
    after the switch. The enumeration has no further value, so the
    [default: assert(false)] has no counterpart. *)
Definition status_switch (is_tx : bool) (transfer : libusb_transfer.t)
    (w : world) : option world :=
  match libusb_transfer.status transfer with
  | LIBUSB_TRANSFER_COMPLETED => Some (on_state (completed_case is_tx transfer) w)
  | LIBUSB_TRANSFER_ERROR =>
      Some (on_state (λ s, set_host_errors (count_error (host_errors s)) s) w)
  | LIBUSB_TRANSFER_TIMED_OUT =>
      Some (on_state (λ s, set_host_errors (count_timeout (host_errors s)) s) w)
  | LIBUSB_TRANSFER_STALL =>
      Some (on_state (λ s, set_host_errors (count_stall (host_errors s)) s) w)
  | LIBUSB_TRANSFER_OVERFLOW =>
      Some (on_state (λ s, set_host_errors (count_overflow (host_errors s)) s) w)
  | LIBUSB_TRANSFER_NO_DEVICE => Some (set_terminate w)
  | LIBUSB_TRANSFER_CANCELLED => None
  end.

(** The [if (!terminate) { ... }] after the switch, where
    [transfer == xfers[i]] and [submit_ret] is the backend's answer to the
    submission. *)
Definition resubmit (i : nat) (transfer : libusb_transfer.t) (submit_ret : Z)
    (w : world) : world :=
  if negb (terminate w) then
    let '(r, transfer) := libusb_submit_transfer submit_ret transfer in
    let w := record (Submit i r) (store i (Ptr transfer) w) in
    if decide (r = LIBUSB_SUCCESS) then
      on_state (λ s, set_active_transfers (u32 (active_transfers s + 1)) s) w
    else w
  else w.

(** [transfer_cb(transfer)], where [transfer == xfers[i]] holds the object
    [transfer] and [submit_ret] is the backend's answer should the callback
    submit. *)
Definition transfer_cb (i : nat) (transfer : libusb_transfer.t) (submit_ret : Z)
    (w : world) : world :=
  let is_tx :=
    bool_decide (Z.land (libusb_transfer.endpoint transfer) LIBUSB_ENDPOINT_DIR_MASK
                 = LIBUSB_ENDPOINT_OUT) in
  let w := on_state (λ s, set_active_transfers (u32 (active_transfers s - 1)) s) w in
  match status_switch is_tx transfer w with
  | None => w
  | Some w => resubmit i transfer submit_ret w
  end.

(** ** Event handling *)

(** One finished transfer, as libusb reports it: the element of [xfers],
    status and actual length, and the answer a resubmission would get. *)
Record completion := {
  slot : nat;
  c_status : libusb_transfer_status;
  c_actual_length : Z;
  c_resubmit : Z
}.

(** libusb completing the transfer [xfers[slot c]] and calling its
    callback; a completion libusb cannot produce changes nothing. *)
Definition deliver (c : completion) (w : world) : world :=
  match xfers w !! slot c with
  | Some (Ptr t) =>
      if deliverable (c_status c) (libusb_transfer.flight t) then
        let t' := complete (c_status c) (c_actual_length c) t in
        transfer_cb (slot c) t' (c_resubmit c)
          (record (Callback (slot c)) (store (slot c) (Ptr t') w))
      else w
  | _ => w
  end.

(** What can happen while the program sits in an event-handling call: a
    transfer finishes, or SIGINT/SIGTERM runs [terminator]. *)
Inductive event :=
| Completion (c : completion)
| Signal.

Definition handle (e : event) (w : world) : world :=
  match e with
  | Completion c => deliver c w
  | Signal => set_terminate w
  end.

(** [libusb_handle_events(NULL)] with the batch [es] of events. *)
Definition libusb_handle_events (es : list event) (w : world) : world :=
  foldl (λ w e, handle e w) w es.

(** [libusb_handle_events_timeout_completed(NULL, &onesec, &terminate)]:
    nothing is handled when [terminate] is already set on entry. *)
Definition libusb_handle_events_timeout_completed (es : list event) (w : world) : world :=
  if terminate w then w else libusb_handle_events es w.

(** ** The pool: allocation and first submission *)

(** What the library calls of one iteration of the allocation loop return. *)
Record fill_env := {
  alloc_ok : bool;            (* libusb_alloc_transfer(0) != NULL *)
  malloc_ret : option Z;      (* malloc(opt_transfer_size) *)
  submit_ret : Z              (* libusb_submit_transfer(xfers[i]) *)
}.

(** Where a piece of [main] leaves to: on to the next statement, or to the
    label [fail3]. *)
Inductive flow :=
| Continue (w : world)
| Goto_fail3 (w : world).

Definition world_of (f : flow) : world :=
  match f with
  | Continue w => w
  | Goto_fail3 w => w
  end.

(** "Determine endpoint". *)
Definition endpoint_for (opt_mode : u3loop_mode) (i : nat) : Z :=
  match opt_mode with
  | U3LOOP_MODE_READ => BULK_IN
  | U3LOOP_MODE_WRITE => BULK_OUT
  | U3LOOP_MODE_READ_WRITE =>
      if decide (Z.land (Z.of_nat i) 1 ≠ 0) then BULK_OUT else BULK_IN
  end.

(** The body of the loop "Allocate and submit USB transfers" (the branch
    without WITH_USE_DEV_MEM). *)
Definition fill_slot (opt_mode : u3loop_mode) (opt_transfer_size : Z)
    (i : nat) (e : fill_env) (w : world) : flow :=
  if negb (alloc_ok e) then Goto_fail3 (store i NULL w)
  else
    match malloc_ret e with
    | None => Goto_fail3 (store i NULL w)
    | Some buf =>
        let t := libusb_fill_bulk_transfer (endpoint_for opt_mode i) buf
                   (s32 opt_transfer_size) in
        let '(r, t) := libusb_submit_transfer (submit_ret e) t in
        let w := record (Submit i r) (store i (Ptr t) w) in
        Continue
          (if decide (r = LIBUSB_SUCCESS) then
             on_state (λ s, set_active_transfers (u32 (active_transfers s + 1)) s) w
           else w)
    end.

(** [for (i=0; (size_t) i < ARRAY_SIZE(xfers); i++)], with [n] iterations
    left. *)
Fixpoint fill_loop (opt_mode : u3loop_mode) (opt_transfer_size : Z)
    (env : nat → fill_env) (n : nat) (i : nat) (w : world) : flow :=
  match n with
  | O => Continue w
  | S n' =>
      match fill_slot opt_mode opt_transfer_size i (env i) w with
      | Continue w' => fill_loop opt_mode opt_transfer_size env n' (S i) w'
      | Goto_fail3 w' => Goto_fail3 w'
      end
  end.

(** [main] at "Allocate and submit USB transfers": [state] zeroed but for
    the two time stamps, [xfers] declared and not initialised. *)
Definition world_at_start (start : timespec) : world :=
  {| state :=
       {| start_time := start; active_transfers := 0; ops := 0;
          ctrs := {| tx_bytes := 0; rx_bytes := 0 |};
          host_errors := host_errors_t.zero; dev_errors := u3loop_errors_zero;
          cum_host_errors := host_errors_t.zero;
          cum_dev_errors := u3loop_errors_zero;
          measurement_time := start;
          measurement := {| tx_bytes := 0; rx_bytes := 0 |} |};
     terminate := false;
     xfers := replicate BUFFER_CNT Indeterminate;
     log := [] |}.

Definition fill_pool (opt_mode : u3loop_mode) (opt_transfer_size : Z)
    (env : nat → fill_env) (w : world) : flow :=
  fill_loop opt_mode opt_transfer_size env BUFFER_CNT 0%nat w.

(** ** The main loop *)

(** The locals [take_measurement] and [last_time_running]. *)
Record loop_vars := {
  take_measurement : bool;
  last_time_running : Z
}.

(** One turn of the loop as the environment shapes it: the events handled
    by the event-handling call and the two readings of the clock (the
    loop's own, and the one inside [print_measurement]). *)
Record tick := {
  events : list event;
  now : option timespec;
  now_measurement : option timespec
}.

(** [time_running], from "Service periodic things, every second". *)
Definition time_running (now : timespec) (s : state_t) : Z :=
  let t := s64 (tv_sec now - tv_sec (start_time s)) in
  if decide (tv_nsec now < tv_nsec (start_time s)) then s64 (t - 1) else t.

(** The call of [print_measurement(&state)] with its output. *)
Definition measure (clock : option timespec) (w : world) : result world :=
  '(s, line) ← trap (print_measurement clock (state w));
  let w := on_state (λ _, s) w in
  Ret (match line with Some l => record (Print l) w | None => w end).

(** The body of [while (!terminate)]. *)
Definition main_loop_body (opt_time_limit opt_report_ival : Z)
    (tk : tick) (lv : loop_vars) (w : world) : result (loop_vars * flow) :=
  let w := libusb_handle_events_timeout_completed (events tk) w in
  match now tk with
  | None => Ret (lv, Goto_fail3 w)
  | Some now =>
      let tr := time_running now (state w) in
      let '(lv, w) :=
        if decide (tr ≠ last_time_running lv) then
          let w :=
            if decide (0 < opt_time_limit ∧ opt_time_limit ≤ tr)
            then set_terminate w else w in
          let take :=
            if decide (0 < opt_report_ival ∧ Z.rem tr opt_report_ival = 0)
            then true else take_measurement lv in
          ({| take_measurement := take; last_time_running := tr |}, w)
        else (lv, w) in
      if take_measurement lv || terminate w then
        w ← measure (now_measurement tk) w;
        Ret ({| take_measurement := false; last_time_running := last_time_running lv |},
             Continue w)
      else Ret (lv, Continue w)
  end.

(** [while (!terminate) { ... }]. *)
Fixpoint main_loop (opt_time_limit opt_report_ival : Z)
    (ticks : list tick) (lv : loop_vars) (w : world) : result flow :=
  if terminate w then Ret (Continue w)
  else
    match ticks with
    | [] => Waiting
    | tk :: ticks' =>
        '(lv', f) ← main_loop_body opt_time_limit opt_report_ival tk lv w;
        match f with
        | Continue w' => main_loop opt_time_limit opt_report_ival ticks' lv' w'
        | Goto_fail3 w' => Ret (Goto_fail3 w')
        end
    end.

(** ** The code at [fail3]: cancel, wait, free *)

(** The body of "Cancel all submitted transfers". *)
Definition cancel_slot (i : nat) (w : world) : result world :=
  match xfers w !! i with
  | Some (Ptr t) =>
      Ret (record (Cancel i) (store i (Ptr (libusb_cancel_transfer t).2) w))
  | Some NULL => Ret w
  | _ => Fault
  end.

Fixpoint cancel_loop (n : nat) (i : nat) (w : world) : result world :=
  match n with
  | O => Ret w
  | S n' => w' ← cancel_slot i w; cancel_loop n' (S i) w'
  end.

(** [while (state.active_transfers != 0) libusb_handle_events(NULL);] *)
Fixpoint wait_loop (batches : list (list event)) (w : world) : result world :=
  if decide (active_transfers (state w) ≠ 0) then
    match batches with
    | [] => Waiting
    | es :: batches' => wait_loop batches' (libusb_handle_events es w)
    end
  else Ret w.

(** The body of "Free transfers" (the branch without WITH_USE_DEV_MEM). *)
Definition free_slot (i : nat) (w : world) : result world :=
  match xfers w !! i with
  | Some (Ptr t) =>
      match libusb_transfer.buffer t with
      | None => Ret w
      | Some buf =>
          Ret (record (FreeTransfer i)
                 (record (Free buf (active_transfers (state w))) w))
      end
  | _ => Fault
  end.

Fixpoint free_loop (n : nat) (i : nat) (w : world) : result world :=
  match n with
  | O => Ret w
  | S n' => w' ← free_slot i w; free_loop n' (S i) w'
  end.

(** From the label [fail3] to the label [fail2]. *)
Definition drain (batches : list (list event)) (w : world) : result world :=
  w ← cancel_loop BUFFER_CNT 0%nat w;
  w ← wait_loop batches w;
  free_loop BUFFER_CNT 0%nat w.

Definition EXIT_SUCCESS : Z := 0.
Definition EXIT_FAILURE : Z := 1.

(** [main] from "Allocate and submit USB transfers" to the label [fail2]:
    the value of [retval] and the final world. *)
Definition pipeline (opt_mode : u3loop_mode) (opt_transfer_size : Z)
    (opt_time_limit opt_report_ival : Z)
    (env : nat → fill_env) (ticks : list tick) (batches : list (list event))
    (w : world) : result (Z * world) :=
  match fill_pool opt_mode opt_transfer_size env w with
  | Goto_fail3 w => w ← drain batches w; Ret (EXIT_FAILURE, w)
  | Continue w =>
      f ← main_loop opt_time_limit opt_report_ival ticks
            {| take_measurement := false; last_time_running := 0 |} w;
      match f with
      | Continue w => w ← drain batches w; Ret (EXIT_SUCCESS, w)
      | Goto_fail3 w => w ← drain batches w; Ret (EXIT_FAILURE, w)
      end
  end.

(** [open_device(vid, pid, serial_number)] and the wait for re-enumeration. *)
Definition open_device := OpenDevice.open_device.
Definition await_reenumeration := OpenDevice.await_reenumeration.

(** ** Runs, one step at a time

    Everything the pipeline does to [world] is one of these steps; a run is
    a sequence of them.  [OpFill] is only ever done on an element of [xfers]
    that has not been assigned yet. *)
Inductive op :=
| OpFill (i : nat) (e : fill_env)      (* an iteration of the allocation loop *)
| OpEvent (e : event)                  (* an event inside an event-handling call *)
| OpTimeLimit                          (* [terminate = true] of the main loop *)
| OpMeasure (clock : option timespec)  (* [print_measurement(&state)] *)
| OpCancel (i : nat)                   (* an iteration of the cancel loop *)
| OpFree (i : nat).                    (* an iteration of the free loop *)

Definition exec (opt_mode : u3loop_mode) (opt_transfer_size : Z)
    (o : op) (w : world) : result world :=
  match o with
  | OpFill i e =>
      match xfers w !! i with
      | Some Indeterminate =>
          match fill_slot opt_mode opt_transfer_size i e w with
          | Continue w' => Ret w'
          | Goto_fail3 w' => Ret w'
          end
      | _ => Fault
      end
  | OpEvent e => Ret (handle e w)
  | OpTimeLimit => Ret (set_terminate w)
  | OpMeasure clock => measure clock w
  | OpCancel i => cancel_slot i w
  | OpFree i => free_slot i w
  end.

Fixpoint run (opt_mode : u3loop_mode) (opt_transfer_size : Z)
    (os : list op) (w : world) : result world :=
  match os with
  | [] => Ret w
  | o :: os' =>
      w' ← exec opt_mode opt_transfer_size o w;
      run opt_mode opt_transfer_size os' w'
  end.

(** The number of elements of [xfers] whose transfer is submitted. *)
Definition is_submitted (p : xfer_ptr) : bool :=
  match p with
  | Ptr t => in_flight t
  | _ => false
  end.

Definition submitted_count (w : world) : nat :=
  length (filter (λ p, is_submitted p = true) (xfers w)).

Definition b2n (b : bool) : nat := if b then 1%nat else 0%nat.

(** Counting in the record of calls: submissions that succeeded, callbacks,
    and calls of [free] on a given buffer. *)
Definition is_submit_ok (c : call) : bool :=
  match c with
  | Submit _ r => bool_decide (r = LIBUSB_SUCCESS)
  | _ => false
  end.

Definition is_callback (c : call) : bool :=
  match c with
  | Callback _ => true
  | _ => false
  end.

Definition is_free_of (b : Z) (c : call) : bool :=
  match c with
  | Free b' _ => bool_decide (b' = b)
  | _ => false
  end.

Definition count_calls (f : call → bool) (l : list call) : nat :=
  length (filter (λ c, f c = true) l).

(** The bookkeeping of [active_transfers]: the array has its BUFFER_CNT
    elements, and the counter is the number of transfers libusb holds, which
    is the number of submissions that succeeded less the number of callbacks
    made. *)
Record consistent (w : world) : Prop := {
  pool_size : length (xfers w) = BUFFER_CNT;
  active_is_submitted : active_transfers (state w) = Z.of_nat (submitted_count w);
  active_is_balance :
    active_transfers (state w)
    = Z.of_nat (count_calls is_submit_ok (log w))
      - Z.of_nat (count_calls is_callback (log w))
}.

(** The buffers the pool owns: [xfers[i]->buffer], where not NULL, for the
    [BUFFER_CNT] elements of the array. *)
Definition buffer_of (p : xfer_ptr) : option Z :=
  match p with
  | Ptr t => libusb_transfer.buffer t
  | _ => None
  end.

Definition pool_buffers (w : world) : list Z :=
  omap buffer_of (take BUFFER_CNT (xfers w)).

(** The calls of [free] on record, latest first: the buffer freed and the
    value of [active_transfers] at the call. *)
Definition frees (l : list call) : list (Z * Z) :=
  omap (λ c, match c with Free buf active => Some (buf, active) | _ => None end) l.

(** What a completion adds to the byte counters according to the
    classification of its status: its actual length when it is delivered
    with LIBUSB_TRANSFER_COMPLETED, nothing otherwise. *)
Definition credited (e : event) (w : world) : Z :=
  match e with
  | Completion c =>
      match xfers w !! slot c with
      | Some (Ptr t) =>
          if deliverable (c_status c) (libusb_transfer.flight t)
             && bool_decide (c_status c = LIBUSB_TRANSFER_COMPLETED)
          then c_actual_length c else 0
      | _ => 0
      end
  | Signal => 0
  end.

(** The byte counters [c'] are [c] after [a] bytes were added to one of
    the two (modulo 2^64), or are [c] when there is nothing to add. *)
Definition credit (a : Z) (c c' : stat_counters) : Prop :=
  (a = 0 ∧ c' = c) ∨
  (tx_bytes c' = u64 (tx_bytes c + a) ∧ rx_bytes c' = rx_bytes c) ∨
  (rx_bytes c' = u64 (rx_bytes c + a) ∧ tx_bytes c' = tx_bytes c).

(** No completion of the run reports a negative length. *)
Definition lengths_nonneg (os : list op) : Prop :=
  Forall (λ o, match o with
               | OpEvent (Completion c) => 0 ≤ c_actual_length c
               | _ => True
               end) os.

(** The sum of [credited] over a run. *)
Fixpoint credited_total (opt_mode : u3loop_mode) (opt_transfer_size : Z)
    (os : list op) (w : world) : Z :=
  match os with
  | [] => 0
  | o :: os' =>
      (match o with OpEvent e => credited e w | _ => 0 end)
      + match exec opt_mode opt_transfer_size o w with
        | Ret w' => credited_total opt_mode opt_transfer_size os' w'
        | _ => 0
        end
  end.

End U3bench.

(** ** u3loop.c: the synchronous loopback tester *)
Module U3loop.
Import Mach Libusb Defines Outcome.

Definition VID : Z := 0x0403.
Definition PID : Z := 0xff0b.
Definition BLOCK_SIZE : nat := Z.to_nat 0x10000.

(** [struct host_errors_t]; seven [int]. *)
Record host_errors_t := {
  data_corrupt : Z;
  tx_stall : Z;
  tx_timeout : Z;
  tx_overflow : Z;
  rx_stall : Z;
  rx_timeout : Z;
  rx_overflow : Z
}.

Definition host_errors_zero : host_errors_t :=
  {| data_corrupt := 0; tx_stall := 0; tx_timeout := 0; tx_overflow := 0;
     rx_stall := 0; rx_timeout := 0; rx_overflow := 0 |}.

(** The seven counters, as the members are declared. *)
Definition host_counters : list (host_errors_t → Z) :=
  [data_corrupt; tx_stall; tx_timeout; tx_overflow; rx_stall; rx_timeout; rx_overflow].

(** [struct stat_counters]; two [uint64_t]. *)
Record stat_counters := { tx_bytes : Z; rx_bytes : Z }.

(** [struct state_t]. *)
Record state_t := {
  start_time : timespec;
  ops : Z;                    (* unsigned long long *)
  ctrs : stat_counters;
  host_errors : host_errors_t;
  dev_errors : u3loop_errors;
  cum_host_errors : host_errors_t;
  cum_dev_errors : u3loop_errors;
  measurement_time : timespec;
  measurement : stat_counters
}.

(** Assignments to single members of [state]. *)
Definition set_ops (v : Z) (s : state_t) : state_t :=
  {| start_time := start_time s; ops := v; ctrs := ctrs s;
     host_errors := host_errors s; dev_errors := dev_errors s;
     cum_host_errors := cum_host_errors s; cum_dev_errors := cum_dev_errors s;
     measurement_time := measurement_time s; measurement := measurement s |}.

Definition set_ctrs (v : stat_counters) (s : state_t) : state_t :=
  {| start_time := start_time s; ops := ops s; ctrs := v;
     host_errors := host_errors s; dev_errors := dev_errors s;
     cum_host_errors := cum_host_errors s; cum_dev_errors := cum_dev_errors s;
     measurement_time := measurement_time s; measurement := measurement s |}.

Definition set_host_errors (v : host_errors_t) (s : state_t) : state_t :=
  {| start_time := start_time s; ops := ops s; ctrs := ctrs s;
     host_errors := v; dev_errors := dev_errors s;
     cum_host_errors := cum_host_errors s; cum_dev_errors := cum_dev_errors s;
     measurement_time := measurement_time s; measurement := measurement s |}.

Definition set_dev_errors (v : u3loop_errors) (s : state_t) : state_t :=
  {| start_time := start_time s; ops := ops s; ctrs := ctrs s;
     host_errors := host_errors s; dev_errors := v;
     cum_host_errors := cum_host_errors s; cum_dev_errors := cum_dev_errors s;
     measurement_time := measurement_time s; measurement := measurement s |}.

(** ** [print_measurement] *)

(** The values of one line of the interval report, in the order of the
    [printf] arguments. *)
Record measurement_line := {
  line_time : Z;            (* total_time_usec / 1000000 *)
  line_ops : Z;
  line_rx_mbps : double;
  line_avg_rx_mbps : double;
  line_host_errors : Z;
  line_dev_errors : u3loop_errors
}.

(** [s->cum_host_errors.x += s->host_errors.x], for the seven members. *)
Definition accumulate_host_errors (cum ival : host_errors_t) : host_errors_t :=
  {| data_corrupt := s32 (data_corrupt cum + data_corrupt ival);
     tx_stall := s32 (tx_stall cum + tx_stall ival);
     tx_timeout := s32 (tx_timeout cum + tx_timeout ival);
     tx_overflow := s32 (tx_overflow cum + tx_overflow ival);
     rx_stall := s32 (rx_stall cum + rx_stall ival);
     rx_timeout := s32 (rx_timeout cum + rx_timeout ival);
     rx_overflow := s32 (rx_overflow cum + rx_overflow ival) |}.

(** [uint64_t ival_usec] of [print_measurement]. *)
Definition ival_usec (now : timespec) (s : state_t) : Z :=
  usec_between now (measurement_time s).

(** [uint64_t total_time_usec] of [print_measurement]. *)
Definition total_time_usec (now : timespec) (s : state_t) : Z :=
  usec_between now (start_time s).

(** [double rx_mbps] and [double avg_rx_mbps]: [INFINITY] unless the
    divisor [usec] is not zero, then [(bytes * 8) / usec]. *)
Definition rate (bytes usec : Z) : option double :=
  if decide (usec ≠ 0) then
    q ← udiv64 (u64 (bytes * 8)) usec;
    Some (of_uint64 q)
  else Some INFINITY.

(** [int host_errors] of [print_measurement]: the sum of the seven
    interval counters. *)
Definition host_errors_sum (h : host_errors_t) : Z :=
  s32 (s32 (s32 (s32 (s32 (s32 (data_corrupt h + tx_stall h) + tx_timeout h)
                      + tx_overflow h)
                 + rx_stall h)
            + rx_timeout h)
       + rx_overflow h).

(** [print_measurement(s)].  [clock] is what [clock_gettime] delivers
    ([None] when it returns -1: the function prints the error and returns).
    The result is the state afterwards and the line printed; no result at
    all ([None]) stands for a division trap. *)
Definition print_measurement (clock : option timespec) (s : state_t)
    : option (state_t * option measurement_line) :=
  match clock with
  | None => Some (s, None)
  | Some now =>
      let cum_dev := accumulate_dev_errors (cum_dev_errors s) (dev_errors s) in
      let cum_host := accumulate_host_errors (cum_host_errors s) (host_errors s) in
      let rx := u64 (rx_bytes (ctrs s) - rx_bytes (measurement s)) in
      let ival := ival_usec now s in
      let total := total_time_usec now s in
      rx_mbps ← rate rx ival;
      avg_rx_mbps ← rate (rx_bytes (ctrs s)) total;
      let line :=
        {| line_time := total `div` 1000000;
           line_ops := ops s;
           line_rx_mbps := rx_mbps;
           line_avg_rx_mbps := avg_rx_mbps;
           line_host_errors := host_errors_sum (host_errors s);
           line_dev_errors := dev_errors s |} in
      Some ({| start_time := start_time s;
               ops := ops s;
               ctrs := ctrs s;
               host_errors := host_errors_zero;
               dev_errors := u3loop_errors_zero;
               cum_host_errors := cum_host;
               cum_dev_errors := cum_dev;
               measurement_time := now;
               measurement := ctrs s |}, Some line)
  end.

(** ** The test loop *)

(** [txbuf] after [memset(txbuf, 0xC5, BLOCK_SIZE)]. *)
Definition txbuf : list byte := replicate BLOCK_SIZE "197"%byte.

Arguments BLOCK_SIZE : simpl never.
Arguments txbuf : simpl never.

(** What [libusb_bulk_transfer] on BULK_OUT returns and stores through its
    [transferred] argument. *)
Record bulk_out := { out_err : Z; out_transferred : Z }.

(** What [libusb_bulk_transfer] on BULK_IN returns, and the bytes it stored
    at the start of [rxbuf]; their number is stored through [transferred]. *)
Record bulk_in := { in_err : Z; received : list byte }.

(** The variables of [main] the loop works on, and the two flags the signal
    handlers set. *)
Record machine := {
  state : state_t;
  running : bool;
  timer_triggered : bool;
  rxbuf : list byte;
  ops_since_last_measurement : Z;     (* unsigned long long *)
  take_measurement : bool
}.

Definition on_state (f : state_t → state_t) (m : machine) : machine :=
  {| state := f (state m); running := running m;
     timer_triggered := timer_triggered m; rxbuf := rxbuf m;
     ops_since_last_measurement := ops_since_last_measurement m;
     take_measurement := take_measurement m |}.

Definition set_rxbuf (b : list byte) (m : machine) : machine :=
  {| state := state m; running := running m;
     timer_triggered := timer_triggered m; rxbuf := b;
     ops_since_last_measurement := ops_since_last_measurement m;
     take_measurement := take_measurement m |}.

(** Where a piece of the loop leaves to. *)
Inductive flow :=
| Continue (m : machine)
| Break (m : machine)
| Goto_fail3 (m : machine).

(** The [if (err != LIBUSB_SUCCESS)] after the send: the counters
    afterwards, or [None] for the [goto fail3]. *)
Definition classify_tx (err : Z) (h : host_errors_t) : option host_errors_t :=
  if decide (err ≠ LIBUSB_SUCCESS) then
    if decide (err = LIBUSB_ERROR_TIMEOUT) then
      Some {| data_corrupt := data_corrupt h; tx_stall := tx_stall h;
              tx_timeout := s32 (tx_timeout h + 1); tx_overflow := tx_overflow h;
              rx_stall := rx_stall h; rx_timeout := rx_timeout h;
              rx_overflow := rx_overflow h |}
    else if decide (err = LIBUSB_ERROR_PIPE) then
      Some {| data_corrupt := data_corrupt h; tx_stall := s32 (tx_stall h + 1);
              tx_timeout := tx_timeout h; tx_overflow := tx_overflow h;
              rx_stall := rx_stall h; rx_timeout := rx_timeout h;
              rx_overflow := rx_overflow h |}
    else if decide (err = LIBUSB_ERROR_OVERFLOW) then
      Some {| data_corrupt := data_corrupt h; tx_stall := tx_stall h;
              tx_timeout := tx_timeout h; tx_overflow := s32 (tx_overflow h + 1);
              rx_stall := rx_stall h; rx_timeout := rx_timeout h;
              rx_overflow := rx_overflow h |}
    else None
  else Some h.

(** The same after the receive. *)
Definition classify_rx (err : Z) (h : host_errors_t) : option host_errors_t :=
  if decide (err ≠ LIBUSB_SUCCESS) then
    if decide (err = LIBUSB_ERROR_TIMEOUT) then
      Some {| data_corrupt := data_corrupt h; tx_stall := tx_stall h;
              tx_timeout := tx_timeout h; tx_overflow := tx_overflow h;
              rx_stall := rx_stall h; rx_timeout := s32 (rx_timeout h + 1);
              rx_overflow := rx_overflow h |}
    else if decide (err = LIBUSB_ERROR_PIPE) then
      Some {| data_corrupt := data_corrupt h; tx_stall := tx_stall h;
              tx_timeout := tx_timeout h; tx_overflow := tx_overflow h;
              rx_stall := s32 (rx_stall h + 1); rx_timeout := rx_timeout h;
              rx_overflow := rx_overflow h |}
    else if decide (err = LIBUSB_ERROR_OVERFLOW) then
      Some {| data_corrupt := data_corrupt h; tx_stall := tx_stall h;
              tx_timeout := tx_timeout h; tx_overflow := tx_overflow h;
              rx_stall := rx_stall h; rx_timeout := rx_timeout h;
              rx_overflow := s32 (rx_overflow h + 1) |}
    else None
  else Some h.

Definition count_data_corrupt (h : host_errors_t) : host_errors_t :=
  {| data_corrupt := s32 (data_corrupt h + 1); tx_stall := tx_stall h;
     tx_timeout := tx_timeout h; tx_overflow := tx_overflow h;
     rx_stall := rx_stall h; rx_timeout := rx_timeout h;
     rx_overflow := rx_overflow h |}.

(** libusb storing [data] at the start of the array [buf]. *)
Definition store_bytes (data buf : list byte) : list byte :=
  take (length buf) (data ++ drop (length data) buf).

(** "TX Data": [None] for the [goto fail3]. *)
Definition send (r : bulk_out) (m : machine) : option machine :=
  h ← classify_tx (out_err r) (host_errors (state m));
  let transfered := u32 (out_transferred r) in
  Some (on_state (λ s,
          let s := set_host_errors h s in
          set_ctrs {| tx_bytes := u64 (tx_bytes (ctrs s) + transfered);
                      rx_bytes := rx_bytes (ctrs s) |} s) m).

(** "RX Data": [None] for the [goto fail3]. *)
Definition receive (r : bulk_in) (m : machine) : option machine :=
  let data := take BLOCK_SIZE (received r) in
  let m := set_rxbuf (store_bytes data (rxbuf m)) m in
  h ← classify_rx (in_err r) (host_errors (state m));
  let transfered := u32 (Z.of_nat (length data)) in
  Some (on_state (λ s,
          let s := set_host_errors h s in
          set_ctrs {| tx_bytes := tx_bytes (ctrs s);
                      rx_bytes := u64 (rx_bytes (ctrs s) + transfered) |} s) m).

(** The [memcmp] and "Count operations", up to [state.ops++]. *)
Definition compare_and_count (m : machine) : machine :=
  let m :=
    if decide (memcmp txbuf (rxbuf m) BLOCK_SIZE ≠ 0)
    then on_state (λ s, set_host_errors (count_data_corrupt (host_errors s)) s) m
    else m in
  on_state (λ s, set_ops (u64 (ops s + 1)) s) m.

(** The loop body from "TX Data" to [state.ops++]: [None] for the
    [goto fail3] of an unclassified error. *)
Definition transfer_cycle (tx : bulk_out) (rx : bulk_in) (m : machine) : option machine :=
  m ← send tx m;
  m ← receive rx m;
  Some (compare_and_count m).

(** What a cycle adds to the byte counters according to the classification
    of its two calls: what was transferred by those that returned
    LIBUSB_SUCCESS, nothing for the others. *)
Definition credited_cycle (tx : bulk_out) (rx : bulk_in) : Z :=
  (if decide (out_err tx = LIBUSB_SUCCESS) then u32 (out_transferred tx) else 0)
  + (if decide (in_err rx = LIBUSB_SUCCESS)
     then u32 (Z.of_nat (length (take BLOCK_SIZE (received rx)))) else 0).

(** What the environment contributes to one turn of the loop. *)
Record cycle_env := {
  tx : bulk_out;
  rx : bulk_in;
  sigterm : bool;     (* [terminator] ran during the two transfers *)
  sigalrm : bool;     (* [timer_cb] ran during the two transfers *)
  now : option timespec;            (* clock_gettime of the periodic part *)
  counters : u3loop_errors;
    (* [state.dev_errors] after the U3LOOP_CMD_GET_ERROR_COUNTERS transfer *)
  now_measurement : option timespec (* clock_gettime of print_measurement *)
}.

Definition signals (e : cycle_env) (m : machine) : machine :=
  {| state := state m;
     running := if sigterm e then false else running m;
     timer_triggered := if sigalrm e then true else timer_triggered m;
     rxbuf := rxbuf m;
     ops_since_last_measurement := ops_since_last_measurement m;
     take_measurement := take_measurement m |}.

(** The [if (opt_report_ops > 0 && ++ops_since_last_measurement >= ...)]. *)
Definition count_for_report (opt_report_ops : Z) (m : machine) : machine :=
  if decide (0 < opt_report_ops) then
    let n := u64 (ops_since_last_measurement m + 1) in
    if decide (u64 opt_report_ops ≤ n) then
      {| state := state m; running := running m;
         timer_triggered := timer_triggered m; rxbuf := rxbuf m;
         ops_since_last_measurement := 0; take_measurement := true |}
    else
      {| state := state m; running := running m;
         timer_triggered := timer_triggered m; rxbuf := rxbuf m;
         ops_since_last_measurement := n; take_measurement := take_measurement m |}
  else m.

(** "Service periodic things, every second": [None] for the [goto fail3]. *)
Definition periodic (opt_time_limit opt_report_ival : Z) (clock : option timespec)
    (m : machine) : option machine :=
  if timer_triggered m then
    now ← clock;
    let tr := s64 (tv_sec now - tv_sec (start_time (state m))) in
    Some {| state := state m;
            running :=
              if decide (0 < opt_time_limit ∧ opt_time_limit ≤ tr)
              then false else running m;
            timer_triggered := false;
            rxbuf := rxbuf m;
            ops_since_last_measurement := ops_since_last_measurement m;
            take_measurement :=
              if decide (0 < opt_report_ival ∧ Z.rem tr opt_report_ival = 0)
              then true else take_measurement m |}
  else Some m.

(** "Take Measurement". *)
Definition measure (e : cycle_env) (m : machine) : result flow :=
  if take_measurement m || negb (running m) then
    let s := set_dev_errors (counters e) (state m) in
    '(s, _) ← trap (print_measurement (now_measurement e) s);
    let m :=
      {| state := s; running := running m;
         timer_triggered := timer_triggered m; rxbuf := rxbuf m;
         ops_since_last_measurement := ops_since_last_measurement m;
         take_measurement := false |} in
    if negb (running m) then Ret (Break m) else Ret (Continue m)
  else Ret (Continue m).

(** The body of [while (true)].  At a [goto fail3] the machine is as the
    code has left it: untouched when the send fails; with the send counted
    and whatever the receive stored in [rxbuf] when the receive fails; with
    [timer_triggered] cleared when the clock fails. *)
Definition loop_body (opt_report_ops opt_time_limit opt_report_ival : Z)
    (e : cycle_env) (m : machine) : result flow :=
  let m := signals e m in
  match send (tx e) m with
  | None => Ret (Goto_fail3 m)
  | Some m =>
      match receive (rx e) m with
      | None =>
          Ret (Goto_fail3
                 (set_rxbuf (store_bytes (take BLOCK_SIZE (received (rx e))) (rxbuf m)) m))
      | Some m =>
          let m := count_for_report opt_report_ops (compare_and_count m) in
          match periodic opt_time_limit opt_report_ival (now e) m with
          | None =>
              Ret (Goto_fail3
                     {| state := state m; running := running m;
                        timer_triggered := false; rxbuf := rxbuf m;
                        ops_since_last_measurement := ops_since_last_measurement m;
                        take_measurement := take_measurement m |})
          | Some m => measure e m
          end
      end
  end.

(** [while (true) { ... }]. *)
Fixpoint test_loop (opt_report_ops opt_time_limit opt_report_ival : Z)
    (es : list cycle_env) (m : machine) : result flow :=
  match es with
  | [] => Waiting
  | e :: es' =>
      f ← loop_body opt_report_ops opt_time_limit opt_report_ival e m;
      match f with
      | Continue m' => test_loop opt_report_ops opt_time_limit opt_report_ival es' m'
      | _ => Ret f
      end
  end.

(** [main] at "Run test": [state] zeroed but for the two time stamps,
    [rxbuf] holding whatever the stack holds. *)
Definition machine_at_start (start : timespec) (stack : list byte) : machine :=
  {| state :=
       {| start_time := start; ops := 0;
          ctrs := {| tx_bytes := 0; rx_bytes := 0 |};
          host_errors := host_errors_zero; dev_errors := u3loop_errors_zero;
          cum_host_errors := host_errors_zero;
          cum_dev_errors := u3loop_errors_zero;
          measurement_time := start;
          measurement := {| tx_bytes := 0; rx_bytes := 0 |} |};
     running := true;
     timer_triggered := false;
     rxbuf := stack;
     ops_since_last_measurement := 0;
     take_measurement := false |}.

(** [open_device(serial_number)] and the wait for re-enumeration. *)
Definition open_device := OpenDevice.open_device VID PID.
Definition await_reenumeration := OpenDevice.await_reenumeration VID PID.

End U3loop.

(** ** [u3loop_defines.h]: vendor commands and error flags *)
Module Protocol.

(** Control endpoint vendor commands, and the arguments that are ORed to
    them to form wValue. *)
Definition U3LOOP_CMD_SET_LEDS : Z := 0x0001.
Definition U3LOOP_CMD_SET_CONFIG : Z := 0x0002.
Definition U3LOOP_CMD_SET_DISPLAY_MODE : Z := 0x0004.
Definition U3LOOP_CMD_CONF_ERROR_COUNTERS : Z := 0x0005.
Definition U3LOOP_CMD_GET_ERROR_COUNTERS : Z := 0x0006.
Definition U3LOOP_CMD_RESET_ERROR_COUNTERS : Z := 0x000a.
Definition U3LOOP_CMD_CONF_LPM : Z := 0x000b.

Definition U3LOOP_LED_NONE : Z := 0.
Definition U3LOOP_LED_PWR : Z := 0x0100.
Definition U3LOOP_LED_TX : Z := 0x0400.
Definition U3LOOP_LED_RX : Z := 0x1000.
Definition U3LOOP_LED_ERR : Z := 0x4000.
Definition U3LOOP_LED_ALL : Z :=
  Z.lor (Z.lor (Z.lor U3LOOP_LED_PWR U3LOOP_LED_TX) U3LOOP_LED_RX) U3LOOP_LED_ERR.
Definition U3LOOP_LED_PWR_AUTO : Z := Z.shiftl U3LOOP_LED_PWR 1.

Definition U3LOOP_DISPLAY_DISABLE : Z := 0.
Definition U3LOOP_DISPLAY_ENABLE : Z := 0x0100.

Definition U3LOOP_LPM_ENTRY_DISABLE : Z := 0.
Definition U3LOOP_LPM_ENTRY_ENABLE : Z := 0x0100.

(** Physical layer errors. *)
Definition U3LOOP_ERR_PHY_DECODE : Z := Z.shiftl 1 0.
Definition U3LOOP_ERR_PHY_EB_OVR : Z := Z.shiftl 1 1.
Definition U3LOOP_ERR_PHY_EB_UND : Z := Z.shiftl 1 2.
Definition U3LOOP_ERR_PHY_DISPARITY : Z := Z.shiftl 1 3.
Definition U3LOOP_ERR_PHY_CRC5 : Z := Z.shiftl 1 4.
Definition U3LOOP_ERR_PHY_CRC16 : Z := Z.shiftl 1 5.
Definition U3LOOP_ERR_PHY_CRC32 : Z := Z.shiftl 1 6.
Definition U3LOOP_ERR_PHY_TRAINING : Z := Z.shiftl 1 7.
Definition U3LOOP_ERR_PHY_LOCK_LOSS : Z := Z.shiftl 1 8.
(** [~((1ul << 9) - 1)], an [unsigned long]. *)
Definition U3LOOP_ERR_PHY_UNDEFINED : Z := Mach.u64 (Z.lnot (Z.shiftl 1 9 - 1)).

(** Link layer errors. *)
Definition U3LOOP_ERR_LL_HP_TIMEOUT_EN : Z := Z.shiftl 1 0.
Definition U3LOOP_ERR_LL_RX_SEQ_NUM_ERR_EN : Z := Z.shiftl 1 1.
Definition U3LOOP_ERR_LL_RX_HP_FAIL_EN : Z := Z.shiftl 1 2.
Definition U3LOOP_ERR_LL_MISSING_LGOOD_EN : Z := Z.shiftl 1 3.
Definition U3LOOP_ERR_LL_MISSING_LCRD_EN : Z := Z.shiftl 1 4.
Definition U3LOOP_ERR_LL_CREDIT_HP_TIMEOUT_EN : Z := Z.shiftl 1 5.
Definition U3LOOP_ERR_LL_PM_LC_TIMEOUT_EN : Z := Z.shiftl 1 6.
Definition U3LOOP_ERR_LL_TX_SEQ_NUM_ERR_EN : Z := Z.shiftl 1 7.
Definition U3LOOP_ERR_LL_HDR_ADV_TIMEOUT_EN : Z := Z.shiftl 1 8.
Definition U3LOOP_ERR_LL_HDR_ADV_HP_EN : Z := Z.shiftl 1 9.
Definition U3LOOP_ERR_LL_HDR_ADV_LCRD_EN : Z := Z.shiftl 1 10.
Definition U3LOOP_ERR_LL_HDR_ADV_LGO_EN : Z := Z.shiftl 1 11.
(** [~((1ul << 12) - 1)], an [unsigned long]. *)
Definition U3LOOP_ERR_LL_UNDEFINED : Z := Mach.u64 (Z.lnot (Z.shiftl 1 12 - 1)).

(** The named flags by the position of their bit. *)
Definition phy_flag_bits : list (Z * string) :=
  [(0, "U3LOOP_ERR_PHY_DECODE"); (1, "U3LOOP_ERR_PHY_EB_OVR");
   (2, "U3LOOP_ERR_PHY_EB_UND"); (3, "U3LOOP_ERR_PHY_DISPARITY");
   (4, "U3LOOP_ERR_PHY_CRC5"); (5, "U3LOOP_ERR_PHY_CRC16");
   (6, "U3LOOP_ERR_PHY_CRC32"); (7, "U3LOOP_ERR_PHY_TRAINING");
   (8, "U3LOOP_ERR_PHY_LOCK_LOSS")]%string.

Definition ll_flag_bits : list (Z * string) :=
  [(0, "U3LOOP_ERR_LL_HP_TIMEOUT_EN"); (1, "U3LOOP_ERR_LL_RX_SEQ_NUM_ERR_EN");
   (2, "U3LOOP_ERR_LL_RX_HP_FAIL_EN"); (3, "U3LOOP_ERR_LL_MISSING_LGOOD_EN");
   (4, "U3LOOP_ERR_LL_MISSING_LCRD_EN"); (5, "U3LOOP_ERR_LL_CREDIT_HP_TIMEOUT_EN");
   (6, "U3LOOP_ERR_LL_PM_LC_TIMEOUT_EN"); (7, "U3LOOP_ERR_LL_TX_SEQ_NUM_ERR_EN");
   (8, "U3LOOP_ERR_LL_HDR_ADV_TIMEOUT_EN"); (9, "U3LOOP_ERR_LL_HDR_ADV_HP_EN");
   (10, "U3LOOP_ERR_LL_HDR_ADV_LCRD_EN"); (11, "U3LOOP_ERR_LL_HDR_ADV_LGO_EN")]%string.

End Protocol.

(** ** The libusb calls made on a device handle

    [open_device] once more, now with the calls it makes on record, and the
    rules a sequence of such calls has to keep. *)
Module Handles.
Import Libusb OpenDevice.

Inductive usb_call :=
| LibusbInit (ret : Z)          (* libusb_init(NULL) *)
| Open (i : nat)                (* libusb_open(devs[i], &dev), successful *)
| GetSerial                     (* libusb_get_string_descriptor_ascii(dev, ...) *)
| FreeDeviceList                (* libusb_free_device_list(devs, 1) *)
| ClaimInterface (ret : Z)      (* libusb_claim_interface(dev, IFNUM) *)
| ReleaseInterface              (* libusb_release_interface(dev, IFNUM) *)
| Close                         (* libusb_close(dev) *)
| Control (wValue : Z)          (* libusb_control_transfer(dev, ..., wValue, ...) *)
| Sleep                         (* sleep(1) *)
| LibusbExit.                   (* libusb_exit(NULL) *)

#[global] Instance usb_call_eq_dec : EqDecision usb_call.
Proof. solve_decision. Defined.

(** What the program holds: no handle, an open handle, or an open handle
    with the interface claimed. *)
Inductive holding :=
| NoHandle
| Opened
| Claimed.

#[global] Instance holding_eq_dec : EqDecision holding.
Proof. solve_decision. Defined.

(** The rules of libusb for one call: a handle is opened only when none is
    held; calls on [dev] need an open handle; an interface is released only
    when claimed and a handle closed only with its interface released;
    [libusb_exit] comes when no handle is held.  [None]: the call breaks a
    rule. *)
Definition after_call (h : holding) (c : usb_call) : option holding :=
  match c, h with
  | Open _, NoHandle => Some Opened
  | Open _, _ => None
  | GetSerial, NoHandle => None
  | GetSerial, _ => Some h
  | Control _, NoHandle => None
  | Control _, _ => Some h
  | ClaimInterface ret, Opened =>
      Some (if decide (ret = LIBUSB_SUCCESS) then Claimed else Opened)
  | ClaimInterface _, _ => None
  | ReleaseInterface, Claimed => Some Opened
  | ReleaseInterface, _ => None
  | Close, Opened => Some NoHandle
  | Close, _ => None
  | LibusbExit, NoHandle => Some NoHandle
  | LibusbExit, _ => None
  | LibusbInit _, _ => Some h
  | FreeDeviceList, _ => Some h
  | Sleep, _ => Some h
  end.

Fixpoint after_calls (h : holding) (l : list usb_call) : option holding :=
  match l with
  | [] => Some h
  | c :: l' => h' ← after_call h c; after_calls h' l'
  end.

(** A sequence of calls that sends no vendor command. *)
Definition quiet (l : list usb_call) : Prop :=
  Forall (λ c, ∀ v, c ≠ Control v) l.

Section lookup.
Variables vid pid : Z.
Variable serial_number : option string.

(** The body of the [for] loop of [open_device] for [devs[i]]. *)
Definition examine (d : usb_device) (i : nat) (serial_str : string)
    : verdict * string * list usb_call :=
  if decide (descriptor_ret d ≠ LIBUSB_SUCCESS) then (NoDescriptor, serial_str, [])
  else if decide (idVendor d ≠ vid ∨ idProduct d ≠ pid) then (OtherDevice, serial_str, [])
  else if decide (open_ret d ≠ LIBUSB_SUCCESS) then (NotOpened, serial_str, [])
  else
    let '(err, serial_str) := libusb_get_string_descriptor_ascii d serial_str in
    if decide (err = LIBUSB_SUCCESS)
    then (SerialUnreadable, serial_str, [Open i; GetSerial; Close])
    else
      match serial_number with
      | None => (Found, serial_str, [Open i; GetSerial])
      | Some sn =>
          if decide (serial_str = sn) then (Found, serial_str, [Open i; GetSerial])
          else (SerialDiffers, serial_str, [Open i; GetSerial; Close])
      end.

(** [for (i=0; i < cnt && !found; i++)]. *)
Fixpoint scan (devs : list usb_device) (i : nat) (serial_str : string)
    : option nat * list usb_call :=
  match devs with
  | [] => (None, [])
  | d :: devs' =>
      match examine d i serial_str with
      | (Found, _, calls) => (Some i, calls)
      | (_, serial_str', calls) =>
          let '(r, calls') := scan devs' (S i) serial_str' in (r, calls ++ calls')
      end
  end.

(** [open_device]. *)
Definition open_device (devs : option (list usb_device)) (stack : string)
    : option nat * list usb_call :=
  match devs with
  | None => (None, [])
  | Some devs =>
      let '(found, calls) := scan devs 0%nat stack in
      let calls := calls ++ [FreeDeviceList] in
      match found with
      | None => (None, calls)
      | Some i =>
          match devs !! i with
          | Some d =>
              let calls := calls ++ [ClaimInterface (claim_ret d)] in
              if decide (claim_ret d ≠ LIBUSB_SUCCESS) then (None, calls ++ [Close])
              else (Some i, calls)
          | None => (None, calls)
          end
      end
  end.

(** [for (i=0; dev == NULL && i < MAX_DEVICE_WAIT; i++) { sleep(1); dev = open_device(...); }] *)
Fixpoint wait_loop (bus : nat → option (list usb_device) * string)
    (budget : nat) (i : nat) : option nat * list usb_call :=
  match budget with
  | O => (None, [])
  | S budget' =>
      let '(dev, calls) := open_device (bus i).1 (bus i).2 in
      match dev with
      | Some dev => (Some dev, Sleep :: calls)
      | None =>
          let '(r, calls') := wait_loop bus budget' (S i) in
          (r, Sleep :: calls ++ calls')
      end
  end.

End lookup.

End Handles.

(** ** u3bench.c: the report and [main] *)
Module U3benchMain.
Import Mach Libusb Defines Outcome Protocol U3bench.

(** The values [print_report] prints.  The byte counts are [uint64_t]
    printed with [%ld], the host error counters [int] printed with [%u]. *)
Record report := {
  report_duration : Z;            (* total_time_usec / 1000000 *)
  report_ops : Z;
  report_tx_bytes : Z;
  report_rx_bytes : Z;
  report_avg_mbps : double;
  report_tx_avg_mbps : double;
  report_rx_avg_mbps : double;
  report_host_errors : host_errors_t.t
}.

(** The three averages of [print_report]: a division only when
    [total_time_usec != 0], the plain number of bits otherwise. *)
Definition report_rates (c : stat_counters) (usec : Z) : option (double * double * double) :=
  if decide (usec ≠ 0) then
    avg_mbps ← udiv64 (u64 (u64 (tx_bytes c + rx_bytes c) * 8)) usec;
    tx_avg_mbps ← udiv64 (u64 (tx_bytes c * 8)) usec;
    rx_avg_mbps ← udiv64 (u64 (rx_bytes c * 8)) usec;
    Some (of_uint64 avg_mbps, of_uint64 tx_avg_mbps, of_uint64 rx_avg_mbps)
  else
    Some (of_uint64 (u64 (u64 (tx_bytes c + rx_bytes c) * 8)),
          of_uint64 (u64 (tx_bytes c * 8)),
          of_uint64 (u64 (rx_bytes c * 8))).

(** [print_report(s)].  [clock] is what [clock_gettime] delivers; the
    result is what is printed ([Some None]: only the error of the clock),
    [None] stands for a division trap.  [s] is not written to. *)
Definition print_report (clock : option timespec) (s : state_t)
    : option (option report) :=
  match clock with
  | None => Some None
  | Some now =>
      let total_time_usec := usec_between now (start_time s) in
      '(avg_mbps, tx_avg_mbps, rx_avg_mbps) ← report_rates (ctrs s) total_time_usec;
      Some (Some
        {| report_duration := total_time_usec `div` 1000000;
           report_ops := ops s;
           report_tx_bytes := s64 (tx_bytes (ctrs s));
           report_rx_bytes := s64 (rx_bytes (ctrs s));
           report_avg_mbps := avg_mbps;
           report_tx_avg_mbps := tx_avg_mbps;
           report_rx_avg_mbps := rx_avg_mbps;
           report_host_errors :=
             host_errors_t.mk
               (u32 (host_errors_t.data_corrupt (cum_host_errors s)))
               (u32 (host_errors_t.error (cum_host_errors s)))
               (u32 (host_errors_t.length (cum_host_errors s)))
               (u32 (host_errors_t.stall (cum_host_errors s)))
               (u32 (host_errors_t.timeout (cum_host_errors s)))
               (u32 (host_errors_t.overflow (cum_host_errors s))) |})
  end.

(** [enum test_device_type_ids] and [struct test_device_type]. *)
Inductive test_device_type_ids :=
| TEST_DEV_NONE
| TEST_DEV_PASSMARK
| TEST_DEV_FX3.

#[global] Instance test_device_type_ids_eq_dec : EqDecision test_device_type_ids.
Proof. solve_decision. Defined.

Module test_device_type.
Record t := mk {
  id : test_device_type_ids;
  name : option string;
  vid : Z;       (* uint16_t *)
  pid : Z        (* uint16_t *)
}.
End test_device_type.

Definition test_device_types : list test_device_type.t :=
  [ test_device_type.mk TEST_DEV_PASSMARK (Some "passmark"%string) 0x0403 0xff0b;
    test_device_type.mk TEST_DEV_FX3 (Some "fx3"%string) 0x04b4 0x00f1;
    test_device_type.mk TEST_DEV_NONE None 0 0 ].

(** The variables the option loop of [main] leaves behind. *)
Record options := {
  opt_serial_number : option string;
  opt_time_limit : Z;
  opt_report_ival : Z;
  opt_mode : u3loop_mode;
  opt_transfer_size : Z;
  opt_vid : Z;
  opt_pid : Z;
  opt_test_device : test_device_type.t
}.

(** What the calls of [main] into libusb and libc return. *)
Record main_env := {
  init_ret : Z;                                   (* libusb_init *)
  bus_first : option (list usb_device) * string;  (* the bus at the first open_device *)
  control_ret : Z → Z;     (* libusb_control_transfer, by the wValue sent *)
  bus_again : nat → option (list usb_device) * string;
                                                  (* the bus while re-enumeration is awaited *)
  start : option timespec;                        (* clock_gettime of "Get start time" *)
  fill : nat → fill_env;
  ticks : list tick;
  report_clock : option timespec;                 (* clock_gettime of print_report *)
  batches : list (list event)
}.

(** How [main] ended: the value returned; the calls by which it set up and
    released the device, in the order they were made (the transfers of the
    benchmark itself are in the log of the pool); the report if one was
    printed; and the pool as the code at [fail3] left it. *)
Record finish := {
  retval : Z;
  calls : list Handles.usb_call;
  printed : option report;
  pool : option world
}.

(** The code from the labels [fail0], [fail1] and [fail2] on. *)
Definition fail0 (retval : Z) (calls : list Handles.usb_call)
    (printed : option report) (pool : option world) : finish :=
  {| retval := retval; calls := calls; printed := printed; pool := pool |}.

Definition fail1 (retval : Z) (calls : list Handles.usb_call)
    (printed : option report) (pool : option world) : finish :=
  fail0 retval (calls ++ [Handles.LibusbExit]) printed pool.

Definition fail2 (o : options) (retval : Z) (calls : list Handles.usb_call)
    (printed : option report) (pool : option world) : finish :=
  let calls :=
    if decide (test_device_type.id (opt_test_device o) = TEST_DEV_PASSMARK) then
      calls ++ [Handles.Control (Z.lor U3LOOP_CMD_SET_DISPLAY_MODE U3LOOP_DISPLAY_ENABLE);
                Handles.Control (Z.lor U3LOOP_CMD_CONF_LPM U3LOOP_LPM_ENTRY_ENABLE)]
    else calls in
  fail1 retval (calls ++ [Handles.ReleaseInterface; Handles.Close]) printed pool.

(** The block [if (opt_test_device->id == TEST_DEV_PASSMARK) { ... }]:
    either [main] ends in it, or it goes on with a handle. *)
Definition configure (o : options) (vid pid : Z) (e : main_env)
    (calls : list Handles.usb_call) : finish + list Handles.usb_call :=
  if decide (test_device_type.id (opt_test_device o) = TEST_DEV_PASSMARK) then
    let calls := calls ++ [Handles.Control U3LOOP_CMD_SET_CONFIG] in
    if decide (control_ret e U3LOOP_CMD_SET_CONFIG < LIBUSB_SUCCESS)
    then inl (fail2 o EXIT_FAILURE calls None None)
    else
      let calls := calls ++ [Handles.ReleaseInterface; Handles.Close] in
      let '(dev, polled) :=
        Handles.wait_loop vid pid (opt_serial_number o) (bus_again e)
          MAX_DEVICE_WAIT 0%nat in
      let calls := calls ++ polled in
      match dev with
      | None => inl (fail1 EXIT_FAILURE calls None None)
      | Some _ =>
          inr (calls ++
               [Handles.Control (Z.lor U3LOOP_CMD_CONF_LPM U3LOOP_LPM_ENTRY_DISABLE);
                Handles.Control (Z.lor U3LOOP_CMD_SET_DISPLAY_MODE U3LOOP_DISPLAY_DISABLE)])
      end
  else inr calls.

(** What libusb reports when it carries out every cancellation asked for at
    [fail3]: LIBUSB_TRANSFER_CANCELLED for each element of the array. *)
Definition cancelled (i : nat) : event :=
  Completion {| slot := i; c_status := LIBUSB_TRANSFER_CANCELLED;
                c_actual_length := 0; c_resubmit := LIBUSB_SUCCESS |}.

Definition all_cancelled : list event := cancelled <$> seq 0 BUFFER_CNT.


(** From "Allocate and submit USB transfers" to the [return]. *)
Definition benchmark (o : options) (e : main_env) (start : timespec)
    (calls : list Handles.usb_call) : result finish :=
  match fill_pool (opt_mode o) (opt_transfer_size o) (fill e) (world_at_start start) with
  | Goto_fail3 w =>
      w ← drain (batches e) w;
      Ret (fail2 o EXIT_FAILURE calls None (Some w))
  | Continue w =>
      f ← main_loop (opt_time_limit o) (opt_report_ival o) (ticks e)
            {| take_measurement := false; last_time_running := 0 |} w;
      match f with
      | Continue w =>
          r ← trap (print_report (report_clock e) (state w));
          w ← drain (batches e) w;
          Ret (fail2 o EXIT_SUCCESS calls r (Some w))
      | Goto_fail3 w =>
          w ← drain (batches e) w;
          Ret (fail2 o EXIT_FAILURE calls None (Some w))
      end
  end.

(** [main], from the end of the option loop. *)
Definition main (o : options) (e : main_env) : result finish :=
  let '(vid, pid) :=
    if decide (opt_vid o = 0)
    then (test_device_type.vid (opt_test_device o), test_device_type.pid (opt_test_device o))
    else (opt_vid o, opt_pid o) in
  let calls := [Handles.LibusbInit (init_ret e)] in
  if decide (init_ret e ≠ LIBUSB_SUCCESS) then Ret (fail0 EXIT_FAILURE calls None None)
  else
    let '(dev, looked) :=
      Handles.open_device vid pid (opt_serial_number o) (bus_first e).1 (bus_first e).2 in
    let calls := calls ++ looked in
    match dev with
    | None => Ret (fail1 EXIT_FAILURE calls None None)
    | Some _ =>
        match configure o vid pid e calls with
        | inl fin => Ret fin
        | inr calls =>
            match start e with
            | None => Ret (fail2 o EXIT_FAILURE calls None None)
            | Some start => benchmark o e start calls
            end
        end
    end.

End U3benchMain.

(** ** u3loop.c: the report and [main] *)
Module U3loopMain.
Import Mach Libusb Defines Outcome Protocol U3loop.

(** [if (mask & flag) printf("   - NAME\n")]: the names printed. *)
Definition print_if (mask flag : Z) (name : string) : list string :=
  if decide (Z.land mask flag ≠ 0) then [name] else [].

(** [print_dev_phy_errors(ec)]: the names of the flags it lists. *)
Definition print_dev_phy_errors (ec : u3loop_errors) : list string :=
  print_if (phy_errors ec) U3LOOP_ERR_PHY_DECODE "U3LOOP_ERR_PHY_DECODE"
  ++ print_if (phy_errors ec) U3LOOP_ERR_PHY_EB_OVR "U3LOOP_ERR_PHY_EB_OVR"
  ++ print_if (phy_errors ec) U3LOOP_ERR_PHY_EB_UND "U3LOOP_ERR_PHY_EB_UND"
  ++ print_if (phy_errors ec) U3LOOP_ERR_PHY_DISPARITY "U3LOOP_ERR_PHY_DISPARITY"
  ++ print_if (phy_errors ec) U3LOOP_ERR_PHY_CRC5 "U3LOOP_ERR_PHY_CRC5"
  ++ print_if (phy_errors ec) U3LOOP_ERR_PHY_CRC16 "U3LOOP_ERR_PHY_CRC16"
  ++ print_if (phy_errors ec) U3LOOP_ERR_PHY_CRC32 "U3LOOP_ERR_PHY_CRC32"
  ++ print_if (phy_errors ec) U3LOOP_ERR_PHY_TRAINING "U3LOOP_ERR_PHY_TRAINING"
  ++ print_if (phy_errors ec) U3LOOP_ERR_PHY_LOCK_LOSS "U3LOOP_ERR_PHY_LOCK_LOSS"
  ++ print_if (phy_errors ec) U3LOOP_ERR_PHY_UNDEFINED "U3LOOP_ERR_PHY_UNDEFINED".

(** [print_dev_ll_errors(ec)]. *)
Definition print_dev_ll_errors (ec : u3loop_errors) : list string :=
  print_if (ll_errors ec) U3LOOP_ERR_LL_HP_TIMEOUT_EN "U3LOOP_ERR_LL_HP_TIMEOUT_EN"
  ++ print_if (ll_errors ec) U3LOOP_ERR_LL_RX_SEQ_NUM_ERR_EN "U3LOOP_ERR_LL_RX_SEQ_NUM_ERR_EN"
  ++ print_if (ll_errors ec) U3LOOP_ERR_LL_RX_HP_FAIL_EN "U3LOOP_ERR_LL_RX_HP_FAIL_EN"
  ++ print_if (ll_errors ec) U3LOOP_ERR_LL_MISSING_LGOOD_EN "U3LOOP_ERR_LL_MISSING_LGOOD_EN"
  ++ print_if (ll_errors ec) U3LOOP_ERR_LL_MISSING_LCRD_EN "U3LOOP_ERR_LL_MISSING_LCRD_EN"
  ++ print_if (ll_errors ec) U3LOOP_ERR_LL_CREDIT_HP_TIMEOUT_EN
       "U3LOOP_ERR_LL_CREDIT_HP_TIMEOUT_EN"
  ++ print_if (ll_errors ec) U3LOOP_ERR_LL_PM_LC_TIMEOUT_EN "U3LOOP_ERR_LL_PM_LC_TIMEOUT_EN"
  ++ print_if (ll_errors ec) U3LOOP_ERR_LL_TX_SEQ_NUM_ERR_EN "U3LOOP_ERR_LL_TX_SEQ_NUM_ERR_EN"
  ++ print_if (ll_errors ec) U3LOOP_ERR_LL_HDR_ADV_TIMEOUT_EN
       "U3LOOP_ERR_LL_HDR_ADV_TIMEOUT_EN"
  ++ print_if (ll_errors ec) U3LOOP_ERR_LL_HDR_ADV_HP_EN "U3LOOP_ERR_LL_HDR_ADV_HP_EN"
  ++ print_if (ll_errors ec) U3LOOP_ERR_LL_HDR_ADV_LCRD_EN "U3LOOP_ERR_LL_HDR_ADV_LCRD_EN"
  ++ print_if (ll_errors ec) U3LOOP_ERR_LL_HDR_ADV_LGO_EN "U3LOOP_ERR_LL_HDR_ADV_LGO_EN"
  ++ print_if (ll_errors ec) U3LOOP_ERR_LL_UNDEFINED "U3LOOP_ERR_LL_UNDEFINED".

(** The values [print_report] prints.  The byte counts are [uint64_t]
    printed with [%ld], the error counters are printed with [%u]. *)
Record report := {
  report_duration : Z;            (* total_time_usec / 1000000 *)
  report_ops : Z;
  report_bytes_send : Z;
  report_bytes_received : Z;
  report_bytes_lost : Z;
  report_avg_rx_mbps : double;
  report_avg_ops_sec : double;
  report_host_errors : host_errors_t;
  report_phy_error_cnt : Z;
  report_phy_errors : list string;
  report_ll_error_cnt : Z;
  report_ll_errors : list string
}.

(** [double avg_rx_mbps] of [print_report]. *)
Definition report_rate (bytes usec : Z) : option double :=
  if decide (usec ≠ 0) then
    q ← udiv64 (u64 (bytes * 8)) usec;
    Some (of_uint64 q)
  else Some (of_uint64 (u64 (bytes * 8))).

(** [double avg_ops_sec] of [print_report]. *)
Definition report_ops_rate (ops usec : Z) : option double :=
  if decide (1000000 < usec) then
    q ← udiv64 ops (usec `div` 1000000);
    Some (of_uint64 q)
  else Some (of_uint64 ops).

(** [print_report(s)].  [clock] is what [clock_gettime] delivers; the
    result is what is printed ([Some None]: only the error of the clock),
    [None] stands for a division trap.  [s] is not written to. *)
Definition print_report (clock : option timespec) (s : state_t)
    : option (option report) :=
  match clock with
  | None => Some None
  | Some now =>
      let total_time_usec := usec_between now (start_time s) in
      avg_rx_mbps ← report_rate (rx_bytes (ctrs s)) total_time_usec;
      avg_ops_sec ← report_ops_rate (ops s) total_time_usec;
      Some (Some
        {| report_duration := total_time_usec `div` 1000000;
           report_ops := ops s;
           report_bytes_send := s64 (tx_bytes (ctrs s));
           report_bytes_received := s64 (rx_bytes (ctrs s));
           report_bytes_lost := s64 (u64 (tx_bytes (ctrs s) - rx_bytes (ctrs s)));
           report_avg_rx_mbps := avg_rx_mbps;
           report_avg_ops_sec := avg_ops_sec;
           report_host_errors :=
             {| data_corrupt := u32 (data_corrupt (cum_host_errors s));
                tx_stall := u32 (tx_stall (cum_host_errors s));
                tx_timeout := u32 (tx_timeout (cum_host_errors s));
                tx_overflow := u32 (tx_overflow (cum_host_errors s));
                rx_stall := u32 (rx_stall (cum_host_errors s));
                rx_timeout := u32 (rx_timeout (cum_host_errors s));
                rx_overflow := u32 (rx_overflow (cum_host_errors s)) |};
           report_phy_error_cnt := phy_error_cnt (cum_dev_errors s);
           report_phy_errors := print_dev_phy_errors (cum_dev_errors s);
           report_ll_error_cnt := ll_error_cnt (cum_dev_errors s);
           report_ll_errors := print_dev_ll_errors (cum_dev_errors s) |})
  end.

Definition DEFAULT_DISPLAY_IVAL : Z := 1.
Definition EXIT_SUCCESS : Z := 0.
Definition EXIT_FAILURE : Z := 1.

(** The variables the option loop of [main] leaves behind. *)
Record options := {
  opt_serial_number : option string;
  opt_identify : bool;
  opt_time_limit : Z;
  opt_report_ival : Z;       (* -1 when -i was not given *)
  opt_report_ops : Z         (* -1 when -c was not given *)
}.

(** What the calls of [main] into libusb and libc return. *)
Record main_env := {
  init_ret : Z;                                   (* libusb_init *)
  bus_first : option (list usb_device) * string;  (* the bus at the first open_device *)
  control_ret : Z → Z;     (* libusb_control_transfer, by the wValue sent *)
  bus_again : nat → option (list usb_device) * string;
                                                  (* the bus while re-enumeration is awaited *)
  timer_create_ret : Z;
  timer_settime_ret : Z;
  start : option timespec;                        (* clock_gettime of "Get start time" *)
  stack : list byte;                              (* what [rxbuf] holds at first *)
  cycles : list cycle_env;
  report_clock : option timespec;                 (* clock_gettime of print_report *)
  timer_delete_ret : Z
}.

(** [main] returns, or the process ends in [exit]. *)
Inductive exit_t :=
| Returned (retval : Z)
| Exited (status : Z).

(** How [main] ended: the exit; the calls by which it set up and released
    the device, in the order they were made (the transfers of the test loop
    and its readings of the error counters are not among them); and the
    report if one was printed. *)
Record finish := {
  how : exit_t;
  calls : list Handles.usb_call;
  printed : option report
}.

(** The code from the labels [fail0], [fail1], [fail2] and [fail3] on. *)
Definition fail0 (retval : Z) (calls : list Handles.usb_call)
    (printed : option report) : finish :=
  {| how := Returned retval; calls := calls; printed := printed |}.

Definition fail1 (retval : Z) (calls : list Handles.usb_call)
    (printed : option report) : finish :=
  fail0 retval (calls ++ [Handles.LibusbExit]) printed.

Definition fail2 (retval : Z) (calls : list Handles.usb_call)
    (printed : option report) : finish :=
  fail1 retval
    (calls ++ [Handles.Control (Z.lor U3LOOP_CMD_SET_DISPLAY_MODE U3LOOP_DISPLAY_ENABLE);
               Handles.Control (Z.lor U3LOOP_CMD_CONF_LPM U3LOOP_LPM_ENTRY_ENABLE);
               Handles.ReleaseInterface; Handles.Close])
    printed.

Definition fail3 (e : main_env) (retval : Z) (calls : list Handles.usb_call)
    (printed : option report) : finish :=
  if decide (timer_delete_ret e = -1)
  then {| how := Exited (-1); calls := calls; printed := printed |}
  else fail2 retval calls printed.

(** The check of [-i] against [-c] after the option loop: the two values
    to go on with, [None] for the [exit(EXIT_FAILURE)]. *)
Definition report_options (o : options) : option (Z * Z) :=
  if decide (opt_report_ival o = -1 ∧ opt_report_ops o = -1)
  then Some (DEFAULT_DISPLAY_IVAL, opt_report_ops o)
  else if decide (opt_report_ival o ≠ -1 ∧ opt_report_ops o ≠ -1) then None
  else Some (opt_report_ival o, opt_report_ops o).

(** "Identify device": the LEDs off, all on, then back to the power LED. *)
Definition identify (e : main_env) (calls : list Handles.usb_call) : finish :=
  let leds_none := Z.lor U3LOOP_CMD_SET_LEDS U3LOOP_LED_NONE in
  let leds_all := Z.lor U3LOOP_CMD_SET_LEDS U3LOOP_LED_ALL in
  let leds_pwr :=
    Z.lor (Z.lor U3LOOP_CMD_SET_LEDS U3LOOP_LED_PWR) U3LOOP_LED_PWR_AUTO in
  let calls := calls ++ [Handles.Control leds_none] in
  if decide (control_ret e leds_none < LIBUSB_SUCCESS) then fail2 EXIT_FAILURE calls None
  else
    let calls := calls ++ [Handles.Sleep; Handles.Control leds_all] in
    if decide (control_ret e leds_all < LIBUSB_SUCCESS) then fail2 EXIT_FAILURE calls None
    else
      let calls := calls ++ [Handles.Sleep; Handles.Control leds_pwr] in
      if decide (control_ret e leds_pwr < LIBUSB_SUCCESS) then fail2 EXIT_FAILURE calls None
      else fail2 EXIT_SUCCESS calls None.

(** From "Setup timer" to the [return]. *)
Definition test (opt_report_ops opt_time_limit opt_report_ival : Z) (e : main_env)
    (calls : list Handles.usb_call) : result finish :=
  if decide (timer_create_ret e = -1) then Ret (fail2 EXIT_FAILURE calls None)
  else if decide (timer_settime_ret e = -1) then Ret (fail2 EXIT_FAILURE calls None)
  else
    match start e with
    | None => Ret (fail3 e EXIT_FAILURE calls None)
    | Some start =>
        f ← test_loop opt_report_ops opt_time_limit opt_report_ival (cycles e)
              (machine_at_start start (stack e));
        match f with
        | Break m =>
            r ← trap (print_report (report_clock e) (state m));
            Ret (fail3 e EXIT_SUCCESS calls r)
        | Goto_fail3 _ => Ret (fail3 e EXIT_FAILURE calls None)
        | Continue _ => Waiting      (* the loop does not end this way *)
        end
    end.

(** [main], from the end of the option loop. *)
Definition main (o : options) (e : main_env) : result finish :=
  match report_options o with
  | None => Ret {| how := Exited EXIT_FAILURE; calls := []; printed := None |}
  | Some (opt_report_ival, opt_report_ops) =>
      let calls := [Handles.LibusbInit (init_ret e)] in
      if decide (init_ret e ≠ LIBUSB_SUCCESS) then Ret (fail0 EXIT_FAILURE calls None)
      else
        let '(dev, looked) :=
          Handles.open_device VID PID (opt_serial_number o)
            (bus_first e).1 (bus_first e).2 in
        let calls := calls ++ looked in
        match dev with
        | None => Ret (fail1 EXIT_FAILURE calls None)
        | Some _ =>
            if opt_identify o then Ret (identify e calls)
            else
              let calls := calls ++ [Handles.Control U3LOOP_CMD_SET_CONFIG] in
              if decide (control_ret e U3LOOP_CMD_SET_CONFIG < LIBUSB_SUCCESS)
              then Ret (fail2 EXIT_FAILURE calls None)
              else
                let calls := calls ++ [Handles.ReleaseInterface; Handles.Close] in
                let '(dev, polled) :=
                  Handles.wait_loop VID PID (opt_serial_number o) (bus_again e)
                    MAX_DEVICE_WAIT 0%nat in
                let calls := calls ++ polled in
                match dev with
                | None => Ret (fail1 EXIT_FAILURE calls None)
                | Some _ =>
                    let calls :=
                      calls ++
                      [Handles.Control (Z.lor U3LOOP_CMD_CONF_LPM U3LOOP_LPM_ENTRY_DISABLE);
                       Handles.Control U3LOOP_CMD_CONF_ERROR_COUNTERS;
                       Handles.Control U3LOOP_CMD_RESET_ERROR_COUNTERS;
                       Handles.Control
                         (Z.lor U3LOOP_CMD_SET_DISPLAY_MODE U3LOOP_DISPLAY_DISABLE)] in
                    test opt_report_ops (opt_time_limit o) opt_report_ival e calls
                end
        end
  end.

End U3loopMain.

(** * Concrete inputs

    Devices, buses and event sequences the properties below are tried on. *)
Module Inputs.
Import Libusb.

(** A plug that answers to the ids of u3loop.c, with serial number "PM1". *)
Definition plug : usb_device :=
  {| descriptor_ret := 0;
     idVendor := 0x0403;
     idProduct := 0xff0b;
     open_ret := 0;
     serial_descriptor := inr "PM1"%string;
     claim_ret := 0 |}.

(** A bus on which the plug is missing during the first 11 polls. *)
Definition bus_absent_11 (k : nat) : option (list usb_device) * string :=
  if decide (k < 11)%nat then (Some [], ""%string) else (Some [plug], ""%string).

(** A plug whose serial number cannot be read: the read of the string
    descriptor stalls (LIBUSB_ERROR_PIPE). *)
Definition plug_unreadable : usb_device :=
  {| descriptor_ret := 0;
     idVendor := 0x0403;
     idProduct := 0xff0b;
     open_ret := 0;
     serial_descriptor := inl LIBUSB_ERROR_PIPE;
     claim_ret := 0 |}.

(** The start of a benchmark, and transfer objects as the callback may
    receive them: a short write, and the notice that the device is gone. *)
Definition t0 : Mach.timespec := {| Mach.tv_sec := 100; Mach.tv_nsec := 0 |}.

Definition short_write : libusb_transfer.t :=
  libusb_transfer.mk U3bench.BULK_OUT LIBUSB_TRANSFER_COMPLETED 1024 512 (Some 4096) Idle.

Definition device_gone : libusb_transfer.t :=
  libusb_transfer.mk U3bench.BULK_IN LIBUSB_TRANSFER_NO_DEVICE 1024 0 (Some 4096) Idle.

Definition stalled_read : libusb_transfer.t :=
  libusb_transfer.mk U3bench.BULK_IN LIBUSB_TRANSFER_STALL 1024 0 (Some 4096) Idle.

(** Error counters as the plug may report them in two successive intervals:
    first the largest count, then one more error. *)
Definition burst : Defines.u3loop_errors :=
  {| Defines.phy_error_cnt := 4294967295; Defines.ll_error_cnt := 0;
     Defines.phy_errors := 0x01; Defines.ll_errors := 0 |}.

Definition one_more : Defines.u3loop_errors :=
  {| Defines.phy_error_cnt := 1; Defines.ll_error_cnt := 0;
     Defines.phy_errors := 0x04; Defines.ll_errors := 0 |}.

Definition t1 : Mach.timespec := {| Mach.tv_sec := 101; Mach.tv_nsec := 0 |}.
Definition t2 : Mach.timespec := {| Mach.tv_sec := 102; Mach.tv_nsec := 0 |}.

(** The state of u3loop at the start of the test. *)
Definition loop_start : U3loop.state_t :=
  U3loop.state (U3loop.machine_at_start t0 []).

(** u3loop in the middle of a test, with errors counted in the running
    interval and before. *)
Definition loop_mid : U3loop.state_t :=
  {| U3loop.start_time := t0;
     U3loop.ops := 1000;
     U3loop.ctrs := {| U3loop.tx_bytes := 65536000; U3loop.rx_bytes := 65536000 |};
     U3loop.host_errors :=
       {| U3loop.data_corrupt := 2; U3loop.tx_stall := 0; U3loop.tx_timeout := 1;
          U3loop.tx_overflow := 0; U3loop.rx_stall := 0; U3loop.rx_timeout := 0;
          U3loop.rx_overflow := 0 |};
     U3loop.dev_errors :=
       {| Defines.phy_error_cnt := 3; Defines.ll_error_cnt := 0;
          Defines.phy_errors := 0x04; Defines.ll_errors := 0 |};
     U3loop.cum_host_errors :=
       {| U3loop.data_corrupt := 7; U3loop.tx_stall := 0; U3loop.tx_timeout := 0;
          U3loop.tx_overflow := 0; U3loop.rx_stall := 0; U3loop.rx_timeout := 0;
          U3loop.rx_overflow := 0 |};
     U3loop.cum_dev_errors :=
       {| Defines.phy_error_cnt := 5; Defines.ll_error_cnt := 0;
          Defines.phy_errors := 0x01; Defines.ll_errors := 0 |};
     U3loop.measurement_time := t1;
     U3loop.measurement := {| U3loop.tx_bytes := 0; U3loop.rx_bytes := 0 |} |}.

(** The test loop at its start with a cleared receive buffer; a send that
    went through; a receive that returned what was sent, and one in which
    the byte at offset 100 came back as zero. *)
Definition loop_machine : U3loop.machine :=
  U3loop.machine_at_start t0 (replicate U3loop.BLOCK_SIZE "000"%byte).

Definition sent_all : U3loop.bulk_out :=
  {| U3loop.out_err := 0; U3loop.out_transferred := 0x10000 |}.

Definition echo_intact : U3loop.bulk_in :=
  {| U3loop.in_err := 0; U3loop.received := U3loop.txbuf |}.

Definition echo_flipped : U3loop.bulk_in :=
  {| U3loop.in_err := 0; U3loop.received := <[100%nat := "000"%byte]> U3loop.txbuf |}.

(** A send that timed out after 512 bytes, and a receive that timed out
    with nothing. *)
Definition sent_partly : U3loop.bulk_out :=
  {| U3loop.out_err := LIBUSB_ERROR_TIMEOUT; U3loop.out_transferred := 512 |}.

Definition echo_missing : U3loop.bulk_in :=
  {| U3loop.in_err := LIBUSB_ERROR_TIMEOUT; U3loop.received := [] |}.

(** A pool for which every allocation and every submission succeeds, the
    buffers one megabyte apart; the pool after [terminate] was set and the
    first 32, or all 64, transfers have completed; and the cancellations
    libusb reports for the elements [from .. from+n-1]. *)
Definition fill_ok (i : nat) : U3bench.fill_env :=
  {| U3bench.alloc_ok := true;
     U3bench.malloc_ret := Some (0x100000 * (Z.of_nat i + 1));
     U3bench.submit_ret := 0 |}.

Definition full_pool : U3bench.world :=
  U3bench.world_of
    (U3bench.fill_pool Defines.U3LOOP_MODE_READ_WRITE 1024 fill_ok
       (U3bench.world_at_start t0)).

Definition finished (st : libusb_transfer_status) (actual : Z) (i : nat) : U3bench.event :=
  U3bench.Completion
    {| U3bench.slot := i; U3bench.c_status := st;
       U3bench.c_actual_length := actual; U3bench.c_resubmit := 0 |}.

Definition half_pool : U3bench.world :=
  U3bench.libusb_handle_events
    (U3bench.Signal :: (finished LIBUSB_TRANSFER_COMPLETED 1024 <$> seq 0 32)) full_pool.

Definition idle_pool : U3bench.world :=
  U3bench.libusb_handle_events
    (U3bench.Signal :: (finished LIBUSB_TRANSFER_COMPLETED 1024 <$> seq 0 64)) full_pool.

Definition cancellations (from n : nat) : list (list U3bench.event) :=
  [finished LIBUSB_TRANSFER_CANCELLED 0 <$> seq from n].

(** Element 3 of the full pool stalls and the device is gone by the time
    the callback submits again: the completion libusb reports, the transfer
    object as the callback receives it, and the pool at that call. *)
Definition stall_of_third : U3bench.completion :=
  {| U3bench.slot := 3; U3bench.c_status := LIBUSB_TRANSFER_STALL;
     U3bench.c_actual_length := 0; U3bench.c_resubmit := LIBUSB_ERROR_NO_DEVICE |}.

Definition third_stalled : libusb_transfer.t :=
  libusb_transfer.mk U3bench.BULK_OUT LIBUSB_TRANSFER_STALL 1024 0 (Some 0x400000) Idle.

Definition pool_at_callback : U3bench.world :=
  U3bench.record (U3bench.Callback 3)
    (U3bench.store 3 (U3bench.Ptr third_stalled) full_pool).

(** The plug is pulled while the benchmark runs: one turn of the main loop
    in which libusb reports LIBUSB_TRANSFER_NO_DEVICE for all 64 transfers. *)
Definition unplugged : U3bench.tick :=
  {| U3bench.events := finished LIBUSB_TRANSFER_NO_DEVICE 0 <$> seq 0 64;
     U3bench.now := Some t1;
     U3bench.now_measurement := Some t1 |}.

(** The start of a run: two elements filled, the first transfer completes
    and is submitted again, the second stalls and its resubmission fails. *)
Definition short_run : list U3bench.op :=
  [U3bench.OpFill 0 (fill_ok 0); U3bench.OpFill 1 (fill_ok 1);
   U3bench.OpEvent (finished LIBUSB_TRANSFER_COMPLETED 1024 0);
   U3bench.OpEvent
     (U3bench.Completion
        {| U3bench.slot := 1; U3bench.c_status := LIBUSB_TRANSFER_STALL;
           U3bench.c_actual_length := 0;
           U3bench.c_resubmit := LIBUSB_ERROR_NO_DEVICE |})].

(** The run goes on: both transfers of the first element complete once
    more, the second time short. *)
Definition more_run : list U3bench.op :=
  [U3bench.OpEvent (finished LIBUSB_TRANSFER_COMPLETED 1024 0);
   U3bench.OpMeasure (Some t1);
   U3bench.OpEvent (finished LIBUSB_TRANSFER_COMPLETED 512 0)].

End Inputs.

(** * Whole runs

    Options and environments for complete runs of the two programs. *)
Module Scenarios.
Import Libusb.

(** Error masks with two named bits and a bit above the named ones. *)
Definition some_errors : Defines.u3loop_errors :=
  {| Defines.phy_error_cnt := 2; Defines.ll_error_cnt := 1;
     Defines.phy_errors := 0x201; Defines.ll_errors := 0x800 |}.

(** A device of another vendor, and a plug whose interface is taken. *)
Definition hub : usb_device :=
  {| descriptor_ret := 0;
     idVendor := 0x1d6b;
     idProduct := 0x0003;
     open_ret := 0;
     serial_descriptor := inr "hub"%string;
     claim_ret := 0 |}.

Definition plug_busy : usb_device :=
  {| descriptor_ret := 0;
     idVendor := 0x0403;
     idProduct := 0xff0b;
     open_ret := 0;
     serial_descriptor := inr "PM2"%string;
     claim_ret := LIBUSB_ERROR_BUSY |}.

(** The plug comes back at the fourth poll. *)
Definition bus_absent_3 (k : nat) : option (list usb_device) * string :=
  if decide (k < 3)%nat then (Some [hub], ""%string)
  else (Some [hub; Inputs.plug], ""%string).

(** [malloc] fails for the sixth buffer. *)
Definition fill_fails_at_5 (i : nat) : U3bench.fill_env :=
  if decide (i = 5%nat)
  then {| U3bench.alloc_ok := true; U3bench.malloc_ret := None; U3bench.submit_ret := 0 |}
  else Inputs.fill_ok i.

(** A turn of the main loop a second after the start in which nothing
    completes, and one before the second is over. *)
Definition second_later : U3bench.tick :=
  {| U3bench.events := [];
     U3bench.now := Some Inputs.t1;
     U3bench.now_measurement := Some Inputs.t1 |}.

Definition half_second : Mach.timespec :=
  {| Mach.tv_sec := 100; Mach.tv_nsec := 500000000 |}.

Definition within_second : U3bench.tick :=
  {| U3bench.events := [Inputs.finished LIBUSB_TRANSFER_COMPLETED 1024 0];
     U3bench.now := Some half_second;
     U3bench.now_measurement := Some half_second |}.

(** The pool when the two turns above have been made with a time limit of
    one second. *)
Definition two_turns : list U3bench.tick := [within_second; second_later].


(** u3loop when it has received more than it has sent. *)
Definition received_more : U3loop.state_t :=
  U3loop.set_ctrs {| U3loop.tx_bytes := 65536; U3loop.rx_bytes := 131072 |}
    Inputs.loop_mid.

(** u3bench with the PassMark plug, for one second. *)
Definition passmark : U3benchMain.test_device_type.t :=
  U3benchMain.test_device_type.mk U3benchMain.TEST_DEV_PASSMARK
    (Some "passmark"%string) 0x0403 0xff0b.

Definition bench_options : U3benchMain.options :=
  {| U3benchMain.opt_serial_number := None;
     U3benchMain.opt_time_limit := 1;
     U3benchMain.opt_report_ival := 1;
     U3benchMain.opt_mode := Defines.U3LOOP_MODE_READ_WRITE;
     U3benchMain.opt_transfer_size := 1024;
     U3benchMain.opt_vid := 0;
     U3benchMain.opt_pid := 0;
     U3benchMain.opt_test_device := passmark |}.

Definition bench_env : U3benchMain.main_env :=
  {| U3benchMain.init_ret := 0;
     U3benchMain.bus_first := (Some [hub; Inputs.plug], ""%string);
     U3benchMain.control_ret := λ _, 0;
     U3benchMain.bus_again := bus_absent_3;
     U3benchMain.start := Some Inputs.t0;
     U3benchMain.fill := Inputs.fill_ok;
     U3benchMain.ticks := two_turns;
     U3benchMain.report_clock := Some Inputs.t2;
     U3benchMain.batches := [U3benchMain.all_cancelled] |}.

Definition bench_finish : U3benchMain.finish :=
  Outcome.returned (U3benchMain.fail0 U3bench.EXIT_FAILURE [] None None)
    (U3benchMain.main bench_options bench_env).





End Scenarios.

(** * Properties *)

(** ** Machine integers *)
Section MachFacts.
Import Mach.

Lemma u32_small x : is_u32 x → u32 x = x.
Proof. unfold is_u32, UINT32_MAX, u32. intros. apply Z.mod_small. lia. Qed.

Lemma u64_small x : is_u64 x → u64 x = x.
Proof. unfold is_u64, UINT64_MAX, u64. intros. apply Z.mod_small. lia. Qed.

Lemma s32_small x : is_int x → s32 x = x.
Proof.
  unfold is_int, INT_MAX, s32. intros.
  rewrite Z.mod_small; lia.
Qed.

Lemma u32_range x : is_u32 (u32 x).
Proof.
  unfold is_u32, UINT32_MAX, u32.
  pose proof (Z.mod_pos_bound x (2 ^ 32)). lia.
Qed.

Lemma u64_range x : is_u64 (u64 x).
Proof.
  unfold is_u64, UINT64_MAX, u64.
  pose proof (Z.mod_pos_bound x (2 ^ 64)). lia.
Qed.

Lemma u64_add_u64_l a b : u64 (u64 a + b) = u64 (a + b).
Proof. unfold u64. by rewrite Zplus_mod_idemp_l. Qed.

Lemma udiv64_nonzero a b : b ≠ 0 → udiv64 a b = Some (a `div` b).
Proof. intros. unfold udiv64. by rewrite decide_False. Qed.

Lemma udiv64_traps a b : udiv64 a b = None ↔ b = 0.
Proof. unfold udiv64. case_decide; naive_solver. Qed.

(** Bits are only ever added by an OR. *)
Lemma lor_ge a b : 0 ≤ b → a ≤ Z.lor a b.
Proof.
  intros Hb.
  pose proof (Z.sub_lor_l_same_l b a) as Hsub.
  assert (0 ≤ Z.land b (Z.lnot a)) by (apply Z.land_nonneg; auto).
  lia.
Qed.

End MachFacts.

(** ** Device lookup and the wait for re-enumeration *)
Section Lookup.
Import Libusb OpenDevice.
Variables vid pid : Z.
Variable serial_number : option string.

Local Abbreviation bus_t := (nat → option (list usb_device) * string).
Local Abbreviation poll bus k := (open_device vid pid serial_number (bus k).1 (bus k).2).

Lemma wait_loop_polls (bus : bus_t) budget i :
  (i ≤ (wait_loop vid pid serial_number bus budget i).2 ≤ i + budget)%nat.
Proof.
  revert i. induction budget as [|budget IH]; intros i; simpl.
  - lia.
  - destruct (poll bus i); simpl; [lia|].
    specialize (IH (S i)). lia.
Qed.

Lemma wait_loop_absent (bus : bus_t) budget i :
  (∀ k, (i ≤ k < i + budget)%nat → poll bus k = None) →
  wait_loop vid pid serial_number bus budget i = (None, (i + budget)%nat).
Proof.
  revert i. induction budget as [|budget IH]; intros i Habs; simpl.
  - f_equal. lia.
  - rewrite Habs by lia. rewrite IH.
    + f_equal. lia.
    + intros k Hk. apply Habs. lia.
Qed.

(** A device found at poll [k] ends the wait there: polls [0..k] were made
    and no more. *)
Lemma wait_loop_found (bus : bus_t) budget i dev n :
  wait_loop vid pid serial_number bus budget i = (Some dev, n) →
  (i < n)%nat ∧ poll bus (n - 1)%nat = Some dev ∧
  ∀ k, (i ≤ k < n - 1)%nat → poll bus k = None.
Proof.
  revert i. induction budget as [|budget IH]; intros i; simpl; [done|].
  destruct (poll bus i) eqn:Hp.
  - intros [= -> <-]. replace (S i - 1)%nat with i by lia.
    split; [lia|]. split; [done|]. intros; lia.
  - intros Hw. destruct (IH _ Hw) as (Hlt & Hfound & Hnone).
    split; [lia|]. split; [done|].
    intros k Hk. destruct (decide (k = i)) as [->|]; [done|].
    apply Hnone. lia.
Qed.

Lemma await_polls (bus : bus_t) :
  ((await_reenumeration vid pid serial_number bus).2 ≤ Defines.MAX_DEVICE_WAIT)%nat.
Proof.
  unfold await_reenumeration.
  pose proof (wait_loop_polls bus Defines.MAX_DEVICE_WAIT 0) as H.
  destruct (wait_loop _ _ _ _ _ _) as [[dev|] n]; simpl in *; lia.
Qed.

Lemma await_absent (bus : bus_t) :
  (∀ k, (k < Defines.MAX_DEVICE_WAIT)%nat → poll bus k = None) →
  await_reenumeration vid pid serial_number bus
  = (ReenumerationTimeout, Defines.MAX_DEVICE_WAIT).
Proof.
  intros Habs. unfold await_reenumeration.
  rewrite wait_loop_absent; [done|].
  intros k Hk. apply Habs. lia.
Qed.

(** The verdicts of [examine] for a candidate that reaches the read of the
    serial number. *)
Lemma examine_candidate d buf :
  descriptor_ret d = LIBUSB_SUCCESS →
  idVendor d = vid → idProduct d = pid →
  open_ret d = LIBUSB_SUCCESS →
  examine vid pid serial_number d buf =
    let '(err, str) := libusb_get_string_descriptor_ascii d buf in
    if decide (err = LIBUSB_SUCCESS) then (SerialUnreadable, str)
    else match serial_number with
         | None => (Found, str)
         | Some sn => if decide (str = sn) then (Found, str) else (SerialDiffers, str)
         end.
Proof.
  intros Hd Hv Hp Ho. unfold examine.
  destruct (decide (descriptor_ret d ≠ LIBUSB_SUCCESS)); [done|].
  destruct (decide (idVendor d ≠ vid ∨ idProduct d ≠ pid)) as [[?|?]|]; [done..|].
  destruct (decide (open_ret d ≠ LIBUSB_SUCCESS)); done.
Qed.

Lemma read_negative_leaves_buffer d buf :
  (libusb_get_string_descriptor_ascii d buf).1 < 0 →
  (libusb_get_string_descriptor_ascii d buf).2 = buf.
Proof.
  unfold libusb_get_string_descriptor_ascii.
  destruct (serial_descriptor d); simpl; [done|lia].
Qed.

End Lookup.

(** C6.  The wait for re-enumeration, in both tools, makes one poll of the
    bus per [sleep(1)] and at most MAX_DEVICE_WAIT = 10 of them; when no poll
    within the budget finds the device, it ends after exactly 10 polls with
    the re-enumeration timeout. *)
Theorem reenumeration_wait_bounded
    (vid pid : Z) (serial_number : option string)
    (bus : nat → option (list Libusb.usb_device) * string) :
  ((U3bench.await_reenumeration vid pid serial_number bus).2 ≤ 10)%nat ∧
  ((U3loop.await_reenumeration serial_number bus).2 ≤ 10)%nat ∧
  ((∀ k, (k < 10)%nat →
      U3bench.open_device vid pid serial_number (bus k).1 (bus k).2 = None) →
   U3bench.await_reenumeration vid pid serial_number bus
   = (OpenDevice.ReenumerationTimeout, 10%nat)) ∧
  ((∀ k, (k < 10)%nat →
      U3loop.open_device serial_number (bus k).1 (bus k).2 = None) →
   U3loop.await_reenumeration serial_number bus
   = (OpenDevice.ReenumerationTimeout, 10%nat)).
Proof.
  split; [apply await_polls|].
  split; [apply await_polls|].
  split; intros Habs; by apply await_absent.
Qed.

Lemma reenumeration_wait_bounded_witness :
  U3bench.await_reenumeration 0x0403 0xff0b None Inputs.bus_absent_11
  = (OpenDevice.ReenumerationTimeout, 10%nat) ∧
  U3loop.await_reenumeration None Inputs.bus_absent_11
  = (OpenDevice.ReenumerationTimeout, 10%nat).
Proof.
  destruct (reenumeration_wait_bounded 0x0403 0xff0b None Inputs.bus_absent_11)
    as (_ & _ & Hbench & Hloop).
  split; [apply Hbench | apply Hloop]; intros k Hk;
    unfold Inputs.bus_absent_11; (destruct (decide (k < 11)%nat); [reflexivity | lia]).
Defined.

(** C10.  For a candidate of [open_device] that reaches the read of its
    serial number, the branch "Unable to get serial number" (close the
    device, try the next) is taken exactly when the read returns 0.  When the
    read returns a negative error code, the candidate is not rejected there,
    [serial_str] is left as it was before the read, and the candidate is
    matched: always when no serial number is asked for (so that both tools'
    [open_device] return it when it comes first and can be claimed), and
    otherwise when the stale contents of [serial_str] equal the serial
    number asked for. *)
Theorem serial_unreadable_branch
    (vid pid : Z) (serial_number : option string)
    (d : Libusb.usb_device) (serial_str : string) :
  Libusb.descriptor_ret d = Libusb.LIBUSB_SUCCESS →
  Libusb.idVendor d = vid → Libusb.idProduct d = pid →
  Libusb.open_ret d = Libusb.LIBUSB_SUCCESS →
  let err := (Libusb.libusb_get_string_descriptor_ascii d serial_str).1 in
  let verdict := (OpenDevice.examine vid pid serial_number d serial_str).1 in
  (verdict = OpenDevice.SerialUnreadable ↔ err = Libusb.LIBUSB_SUCCESS) ∧
  (err < 0 →
   verdict ≠ OpenDevice.SerialUnreadable ∧
   (OpenDevice.examine vid pid serial_number d serial_str).2 = serial_str ∧
   (∀ sn, serial_number = Some sn → (verdict = OpenDevice.Found ↔ serial_str = sn)) ∧
   (serial_number = None →
    verdict = OpenDevice.Found ∧
    ∀ devs, Libusb.claim_ret d = Libusb.LIBUSB_SUCCESS →
      U3bench.open_device vid pid None (Some (d :: devs)) serial_str = Some 0%nat ∧
      (vid = U3loop.VID → pid = U3loop.PID →
       U3loop.open_device None (Some (d :: devs)) serial_str = Some 0%nat))).
Proof.
  intros Hd Hv Hp Ho err verdict.
  pose proof (examine_candidate vid pid serial_number d serial_str Hd Hv Hp Ho) as Hex.
  pose proof (read_negative_leaves_buffer d serial_str) as Hbuf.
  subst err verdict.
  destruct (Libusb.libusb_get_string_descriptor_ascii d serial_str) as [err str].
  simpl in *. split.
  - rewrite Hex. destruct (decide (err = Libusb.LIBUSB_SUCCESS)); [done|].
    destruct serial_number as [sn|]; [destruct (decide (str = sn))|]; simpl; naive_solver.
  - intros Hneg. specialize (Hbuf Hneg). subst str.
    assert (err ≠ Libusb.LIBUSB_SUCCESS) as Hne
      by (unfold Libusb.LIBUSB_SUCCESS; lia).
    rewrite decide_False in Hex by done.
    split; [|split; [|split]].
    + rewrite Hex. by destruct serial_number as [sn|]; [destruct (decide (serial_str = sn))|].
    + rewrite Hex. by destruct serial_number as [sn|]; [destruct (decide (serial_str = sn))|].
    + intros sn ->. rewrite Hex.
      destruct (decide (serial_str = sn)); simpl; naive_solver.
    + intros ->. split; [by rewrite Hex|].
      intros devs Hclaim.
      assert (U3bench.open_device vid pid None (Some (d :: devs)) serial_str = Some 0%nat)
        as Hopen.
      { unfold U3bench.open_device, OpenDevice.open_device. simpl.
        rewrite Hex. simpl. by rewrite decide_False by naive_solver. }
      split; [done|]. intros -> ->. exact Hopen.
Qed.

Lemma serial_unreadable_branch_witness :
  (OpenDevice.examine 0x0403 0xff0b None Inputs.plug_unreadable "junk").1
  = OpenDevice.Found ∧
  U3loop.open_device None (Some [Inputs.plug_unreadable]) "junk" = Some 0%nat.
Proof.
  destruct (serial_unreadable_branch 0x0403 0xff0b None Inputs.plug_unreadable "junk"
              eq_refl eq_refl eq_refl eq_refl) as [_ Hneg].
  destruct Hneg as (_ & _ & _ & Hnone); [reflexivity|].
  destruct (Hnone eq_refl) as [Hfound Hopen].
  split; [exact Hfound|].
  by destruct (Hopen [] eq_refl) as [_ Hloop]; apply Hloop.
Defined.

(** ** Measurements: throughput *)
Section Throughput.
Import Mach.

Lemma bench_interval_rates_zero tx rx :
  U3bench.interval_rates tx rx 0 = Some (INFINITY, INFINITY, INFINITY).
Proof. reflexivity. Qed.

Lemma bench_interval_rates_nonzero tx rx usec :
  usec ≠ 0 →
  U3bench.interval_rates tx rx usec
  = Some (of_uint64 (u64 (u64 (tx + rx) * 8) `div` usec),
          of_uint64 (u64 (tx * 8) `div` usec),
          of_uint64 (u64 (rx * 8) `div` usec)).
Proof.
  intros Hne. unfold U3bench.interval_rates.
  rewrite decide_True by done.
  by rewrite !udiv64_nonzero.
Qed.

Lemma bench_interval_rates_total tx rx usec :
  is_Some (U3bench.interval_rates tx rx usec).
Proof.
  destruct (decide (usec = 0)) as [->|Hne].
  - by rewrite bench_interval_rates_zero.
  - by rewrite bench_interval_rates_nonzero.
Qed.

Lemma bench_average_rates_total c usec : is_Some (U3bench.average_rates c usec).
Proof.
  unfold U3bench.average_rates. case_decide; [|by eexists].
  rewrite !udiv64_nonzero by done. by eexists.
Qed.

Lemma loop_rate_zero bytes : U3loop.rate bytes 0 = Some INFINITY.
Proof. reflexivity. Qed.

Lemma loop_rate_nonzero bytes usec :
  usec ≠ 0 → U3loop.rate bytes usec = Some (of_uint64 (u64 (bytes * 8) `div` usec)).
Proof.
  intros Hne. unfold U3loop.rate.
  rewrite decide_True by done.
  by rewrite udiv64_nonzero.
Qed.

Lemma loop_rate_total bytes usec : is_Some (U3loop.rate bytes usec).
Proof.
  destruct (decide (usec = 0)) as [->|Hne].
  - by rewrite loop_rate_zero.
  - by rewrite loop_rate_nonzero.
Qed.

(** [print_measurement] of u3bench.c never traps, and its interval rates are
    those of [interval_rates]. *)
Lemma bench_print_measurement_returns now s :
  ∃ s' l rates,
    U3bench.print_measurement (Some now) s = Some (s', Some l) ∧
    U3bench.interval_rates
      (u64 (U3bench.tx_bytes (U3bench.ctrs s) - U3bench.tx_bytes (U3bench.measurement s)))
      (u64 (U3bench.rx_bytes (U3bench.ctrs s) - U3bench.rx_bytes (U3bench.measurement s)))
      (U3bench.ival_usec now s) = Some rates ∧
    (U3bench.line_mbps l, U3bench.line_tx_mbps l, U3bench.line_rx_mbps l) = rates ∧
    U3bench.host_errors s' = U3bench.host_errors_t.zero ∧
    U3bench.dev_errors s' = Defines.u3loop_errors_zero ∧
    U3bench.cum_host_errors s'
    = U3bench.accumulate_host_errors (U3bench.cum_host_errors s) (U3bench.host_errors s) ∧
    U3bench.cum_dev_errors s'
    = Defines.accumulate_dev_errors (U3bench.cum_dev_errors s) (U3bench.dev_errors s).
Proof.
  destruct (bench_interval_rates_total
      (u64 (U3bench.tx_bytes (U3bench.ctrs s) - U3bench.tx_bytes (U3bench.measurement s)))
      (u64 (U3bench.rx_bytes (U3bench.ctrs s) - U3bench.rx_bytes (U3bench.measurement s)))
      (U3bench.ival_usec now s)) as [[[m t] r] Hr].
  destruct (bench_average_rates_total (U3bench.ctrs s) (U3bench.total_time_usec now s))
    as [[[a ta] ra] Havg].
  eexists _, _, (m, t, r).
  split; [|split; [exact Hr|]].
  - unfold U3bench.print_measurement. rewrite Hr, Havg. reflexivity.
  - repeat split.
Qed.

(** The same for u3loop.c. *)
Lemma loop_print_measurement_returns now s :
  ∃ s' l r,
    U3loop.print_measurement (Some now) s = Some (s', Some l) ∧
    U3loop.rate
      (u64 (U3loop.rx_bytes (U3loop.ctrs s) - U3loop.rx_bytes (U3loop.measurement s)))
      (U3loop.ival_usec now s) = Some r ∧
    U3loop.line_rx_mbps l = r ∧
    U3loop.host_errors s' = U3loop.host_errors_zero ∧
    U3loop.dev_errors s' = Defines.u3loop_errors_zero ∧
    U3loop.cum_host_errors s'
    = U3loop.accumulate_host_errors (U3loop.cum_host_errors s) (U3loop.host_errors s) ∧
    U3loop.cum_dev_errors s'
    = Defines.accumulate_dev_errors (U3loop.cum_dev_errors s) (U3loop.dev_errors s).
Proof.
  destruct (loop_rate_total
      (u64 (U3loop.rx_bytes (U3loop.ctrs s) - U3loop.rx_bytes (U3loop.measurement s)))
      (U3loop.ival_usec now s)) as [r Hr].
  destruct (loop_rate_total (U3loop.rx_bytes (U3loop.ctrs s)) (U3loop.total_time_usec now s))
    as [a Ha].
  eexists _, _, r.
  split; [|split; [exact Hr|]].
  - unfold U3loop.print_measurement. rewrite Hr, Ha. reflexivity.
  - repeat split.
Qed.

End Throughput.

(** C7.  In both tools [print_measurement] always returns (no division
    traps, whatever the clock and the state), and when the elapsed interval
    [ival_usec] is zero the interval throughput it reports is [INFINITY];
    a division by [ival_usec] is made only when [ival_usec] is not zero,
    and then the rate reported is its quotient. *)
Theorem zero_interval_reports_infinity
    (now : Mach.timespec) (sb : U3bench.state_t) (sl : U3loop.state_t) :
  (∀ clock, is_Some (U3bench.print_measurement clock sb)) ∧
  (∀ clock, is_Some (U3loop.print_measurement clock sl)) ∧
  (∃ s' l,
     U3bench.print_measurement (Some now) sb = Some (s', Some l) ∧
     (U3bench.ival_usec now sb = 0 →
      U3bench.line_mbps l = Mach.INFINITY ∧
      U3bench.line_tx_mbps l = Mach.INFINITY ∧
      U3bench.line_rx_mbps l = Mach.INFINITY) ∧
     (U3bench.line_mbps l ≠ Mach.INFINITY → U3bench.ival_usec now sb ≠ 0)) ∧
  (∃ s' l,
     U3loop.print_measurement (Some now) sl = Some (s', Some l) ∧
     (U3loop.ival_usec now sl = 0 → U3loop.line_rx_mbps l = Mach.INFINITY) ∧
     (U3loop.line_rx_mbps l ≠ Mach.INFINITY → U3loop.ival_usec now sl ≠ 0)) ∧
  (∀ a b c, U3bench.interval_rates a b 0 = Some (Mach.INFINITY, Mach.INFINITY, Mach.INFINITY)
            ∧ U3loop.rate c 0 = Some Mach.INFINITY) ∧
  (∀ a b, Mach.udiv64 a b = None ↔ b = 0).
Proof.
  split; [|split; [|split; [|split; [|split]]]].
  - intros [t|]; [|by eexists].
    destruct (bench_print_measurement_returns t sb) as (s' & l & r & -> & _). by eexists.
  - intros [t|]; [|by eexists].
    destruct (loop_print_measurement_returns t sl) as (s' & l & r & -> & _). by eexists.
  - destruct (bench_print_measurement_returns now sb)
      as (s' & l & r & Hpm & Hr & Hl & _).
    exists s', l. split; [done|]. split.
    + intros Hz. rewrite Hz, bench_interval_rates_zero in Hr.
      injection Hr as <-. by injection Hl as -> -> ->.
    + intros Hfin Hz. rewrite Hz, bench_interval_rates_zero in Hr.
      injection Hr as <-. injection Hl as H1 _ _. by rewrite H1 in Hfin.
  - destruct (loop_print_measurement_returns now sl)
      as (s' & l & r & Hpm & Hr & Hl & _).
    exists s', l. split; [done|]. split.
    + intros Hz. rewrite Hz, loop_rate_zero in Hr. by injection Hr as <-.
    + intros Hfin Hz. rewrite Hz, loop_rate_zero in Hr.
      injection Hr as <-. by rewrite Hl in Hfin.
  - done.
  - apply udiv64_traps.
Qed.

Lemma zero_interval_reports_infinity_witness :
  ∃ s' l,
    U3bench.print_measurement (Some {| Mach.tv_sec := 5; Mach.tv_nsec := 0 |})
      (U3bench.state (U3bench.world_at_start {| Mach.tv_sec := 5; Mach.tv_nsec := 0 |}))
    = Some (s', Some l)
    ∧ U3bench.line_mbps l = Mach.INFINITY.
Proof.
  destruct (zero_interval_reports_infinity
              {| Mach.tv_sec := 5; Mach.tv_nsec := 0 |}
              (U3bench.state (U3bench.world_at_start {| Mach.tv_sec := 5; Mach.tv_nsec := 0 |}))
              (U3loop.state (U3loop.machine_at_start {| Mach.tv_sec := 5; Mach.tv_nsec := 0 |} [])))
    as (_ & _ & (s' & l & Hpm & Hzero & _) & _).
  exists s', l. split; [exact Hpm|].
  apply Hzero. reflexivity.
Defined.

(** ** The completion callback *)
Section Callback.
Import Mach Libusb U3bench.

Lemma direction_of_endpoint e :
  Z.land e LIBUSB_ENDPOINT_DIR_MASK = LIBUSB_ENDPOINT_OUT
  ∨ Z.land e LIBUSB_ENDPOINT_DIR_MASK = LIBUSB_ENDPOINT_IN.
Proof.
  unfold LIBUSB_ENDPOINT_DIR_MASK, LIBUSB_ENDPOINT_OUT, LIBUSB_ENDPOINT_IN.
  change 128 with (2 ^ 7).
  destruct (Z.testbit e 7) eqn:Hbit; [right|left]; apply Z.bits_inj'; intros n Hn;
    rewrite Z.land_spec, ?Z.bits_0, Z.pow2_bits_eqb by lia;
    destruct (Z.eqb_spec 7 n) as [<-|]; rewrite ?Hbit, ?andb_false_r; done.
Qed.

Lemma completed_case_active is_tx transfer s :
  active_transfers (completed_case is_tx transfer s) = active_transfers s.
Proof. unfold completed_case. by destruct (decide (_ ≠ _)), is_tx. Qed.

Lemma only_incremented_length h : only_incremented Length h (count_length h).
Proof. by intros []. Qed.

Lemma only_incremented_error h : only_incremented Error h (count_error h).
Proof. by intros []. Qed.

Lemma only_incremented_timeout h : only_incremented Timeout h (count_timeout h).
Proof. by intros []. Qed.

Lemma only_incremented_stall h : only_incremented Stall h (count_stall h).
Proof. by intros []. Qed.

Lemma only_incremented_overflow h : only_incremented Overflow h (count_overflow h).
Proof. by intros []. Qed.


(** Resubmission leaves the statistics alone. *)
Lemma resubmit_statistics i transfer r w :
  let w' := resubmit i transfer r w in
  ops (state w') = ops (state w) ∧ ctrs (state w') = ctrs (state w) ∧
  host_errors (state w') = host_errors (state w) ∧
  dev_errors (state w') = dev_errors (state w) ∧
  cum_host_errors (state w') = cum_host_errors (state w) ∧
  cum_dev_errors (state w') = cum_dev_errors (state w) ∧
  measurement (state w') = measurement (state w) ∧
  terminate w' = terminate w.
Proof.
  cbv zeta. unfold resubmit. destruct (terminate w) eqn:Ht; simpl; [by rewrite Ht|].
  destruct (libusb_submit_transfer r transfer) as [ret t'].
  by destruct (decide (ret = LIBUSB_SUCCESS)).
Qed.

Lemma resubmit_terminated i transfer r w :
  terminate w = true → resubmit i transfer r w = w.
Proof. intros H. unfold resubmit. by rewrite H. Qed.

Lemma resubmit_running i transfer r w :
  terminate w = false →
  let ret := (libusb_submit_transfer r transfer).1 in
  let w' := resubmit i transfer r w in
  log w' = Submit i ret :: log w ∧
  xfers w' = <[i := Ptr (libusb_submit_transfer r transfer).2]> (xfers w) ∧
  active_transfers (state w') =
    if decide (ret = LIBUSB_SUCCESS)
    then u32 (active_transfers (state w) + 1)
    else active_transfers (state w).
Proof.
  intros H. cbv zeta. unfold resubmit. rewrite H. simpl.
  destruct (libusb_submit_transfer r transfer) as [ret t']. simpl.
  by destruct (decide (ret = LIBUSB_SUCCESS)).
Qed.

(** The [switch] touches neither the array, nor the record of calls, nor
    [active_transfers]. *)
Lemma status_switch_frame is_tx t w w1 :
  status_switch is_tx t w = Some w1 →
  xfers w1 = xfers w ∧ log w1 = log w ∧
  active_transfers (state w1) = active_transfers (state w).
Proof.
  unfold status_switch.
  destruct (libusb_transfer.status t); intros [= <-]; simpl; try done.
  by rewrite completed_case_active.
Qed.

End Callback.

(** C1.  [transfer_cb] on a completion with status
    LIBUSB_TRANSFER_COMPLETED does [ops++] (modulo 2^64), adds the actual
    length to [tx_bytes] when the endpoint is an OUT endpoint and to
    [rx_bytes] when it is an IN endpoint (modulo 2^64, the other counter
    untouched), and increments the interval counter [host_errors.length],
    and no other, exactly when the actual length differs from the length
    requested.  With status ERROR, TIMED_OUT, STALL or OVERFLOW it
    increments the matching interval counter and no other, and leaves [ops]
    and the byte counters as they are.  The cumulative counters change in
    none of these cases. *)
Theorem completion_callback_counts
    (i : nat) (transfer : Libusb.libusb_transfer.t) (submit_ret : Z)
    (w : U3bench.world) :
  let s := U3bench.state w in
  let s' := U3bench.state (U3bench.transfer_cb i transfer submit_ret w) in
  let h := U3bench.host_errors s in
  let h' := U3bench.host_errors s' in
  let endpoint_dir :=
    Z.land (Libusb.libusb_transfer.endpoint transfer) Libusb.LIBUSB_ENDPOINT_DIR_MASK in
  let actual := Libusb.libusb_transfer.actual_length transfer in
  (Libusb.libusb_transfer.status transfer = Libusb.LIBUSB_TRANSFER_COMPLETED →
   U3bench.ops s' = Mach.u64 (U3bench.ops s + 1) ∧
   (endpoint_dir = Libusb.LIBUSB_ENDPOINT_OUT →
    U3bench.tx_bytes (U3bench.ctrs s') = Mach.u64 (U3bench.tx_bytes (U3bench.ctrs s) + actual) ∧
    U3bench.rx_bytes (U3bench.ctrs s') = U3bench.rx_bytes (U3bench.ctrs s)) ∧
   (endpoint_dir = Libusb.LIBUSB_ENDPOINT_IN →
    U3bench.rx_bytes (U3bench.ctrs s') = Mach.u64 (U3bench.rx_bytes (U3bench.ctrs s) + actual) ∧
    U3bench.tx_bytes (U3bench.ctrs s') = U3bench.tx_bytes (U3bench.ctrs s)) ∧
   (Libusb.libusb_transfer.length transfer ≠ actual →
    U3bench.only_incremented U3bench.Length h h') ∧
   (Libusb.libusb_transfer.length transfer = actual → h' = h)) ∧
  (∀ st c,
     (st, c) ∈ [(Libusb.LIBUSB_TRANSFER_ERROR, U3bench.Error);
                (Libusb.LIBUSB_TRANSFER_TIMED_OUT, U3bench.Timeout);
                (Libusb.LIBUSB_TRANSFER_STALL, U3bench.Stall);
                (Libusb.LIBUSB_TRANSFER_OVERFLOW, U3bench.Overflow)] →
     Libusb.libusb_transfer.status transfer = st →
     U3bench.only_incremented c h h' ∧
     U3bench.ops s' = U3bench.ops s ∧
     U3bench.ctrs s' = U3bench.ctrs s) ∧
  U3bench.cum_host_errors s' = U3bench.cum_host_errors s ∧
  U3bench.cum_dev_errors s' = U3bench.cum_dev_errors s ∧
  U3bench.dev_errors s' = U3bench.dev_errors s.
Proof.
  intros s s' h h' endpoint_dir actual.
  subst s s' h h'. unfold U3bench.transfer_cb.
  set (w0 := U3bench.on_state _ w).
  set (is_tx := bool_decide _).
  split; [|split].
  - intros Hst. unfold U3bench.status_switch. rewrite Hst.
    set (w1 := U3bench.on_state _ w0).
    destruct (resubmit_statistics i transfer submit_ret w1)
      as (-> & -> & -> & _).
    subst w1 w0. simpl. unfold U3bench.completed_case. simpl.
    split; [by destruct (decide (_ ≠ _)), is_tx|].
    split; [|split; [|split]].
    + intros Hout. subst is_tx. rewrite bool_decide_eq_true_2 by done.
      by destruct (decide (_ ≠ _)).
    + intros Hin. subst is_tx. rewrite bool_decide_eq_false_2.
      * by destruct (decide (_ ≠ _)).
      * fold endpoint_dir. by rewrite Hin.
    + intros Hne. rewrite decide_True by done.
      destruct is_tx; apply only_incremented_length.
    + intros Heq. rewrite decide_False by naive_solver. by destruct is_tx.
  - intros st c Hin Hst. unfold U3bench.status_switch. rewrite Hst.
    rewrite !elem_of_cons in Hin.
    destruct Hin as [[= -> ->]|[[= -> ->]|[[= -> ->]|[[= -> ->]|Hin]]]];
      [| | | |by apply elem_of_nil in Hin];
      match goal with
      | |- context [U3bench.resubmit _ _ _ ?w1] =>
          destruct (resubmit_statistics i transfer submit_ret w1) as (-> & -> & -> & _)
      end; subst w0; simpl;
      (split; [|done]).
    + apply only_incremented_error.
    + apply only_incremented_timeout.
    + apply only_incremented_stall.
    + apply only_incremented_overflow.
  - unfold U3bench.status_switch.
    destruct (Libusb.libusb_transfer.status transfer); simpl;
      try match goal with
      | |- context [U3bench.resubmit _ _ _ ?w1] =>
          destruct (resubmit_statistics i transfer submit_ret w1)
            as (_ & _ & _ & -> & -> & -> & _)
      end; subst w0; simpl; try done.
    unfold U3bench.completed_case.
    by destruct (decide (_ ≠ _)), is_tx.
Qed.

Lemma completion_callback_counts_witness :
  let w' := U3bench.transfer_cb 1 Inputs.short_write 0 (U3bench.world_at_start Inputs.t0) in
  U3bench.ops (U3bench.state w') = 1 ∧
  U3bench.tx_bytes (U3bench.ctrs (U3bench.state w')) = 512 ∧
  U3bench.rx_bytes (U3bench.ctrs (U3bench.state w')) = 0 ∧
  U3bench.host_errors_t.length (U3bench.host_errors (U3bench.state w')) = 1.
Proof.
  destruct (completion_callback_counts 1 Inputs.short_write 0
              (U3bench.world_at_start Inputs.t0)) as [Hcompleted _].
  destruct (Hcompleted eq_refl) as (Hops & Hout & _ & Hlen & _).
  destruct (Hout eq_refl) as [Htx Hrx].
  split; [exact Hops|]. split; [exact Htx|]. split; [exact Hrx|].
  exact (Hlen ltac:(discriminate) U3bench.Length).
Defined.

(** C3.  [transfer_cb] on a cancelled transfer changes nothing but
    [active_transfers]: no statistics counter, no submission.  For every
    other status control reaches the test [if (!terminate)] after the
    [switch]; the flag tested there is the one the callback was entered with,
    or the one the case LIBUSB_TRANSFER_NO_DEVICE of the switch has just set.
    When the flag is set at the test no submission is made, whatever the
    status.  Otherwise the transfer is submitted again, once, at once:
    [active_transfers] is incremented again when the submission succeeds;
    when it fails the counter stays decremented, the transfer is not in
    flight and no further submission is made.  The last part holds for
    every world reaching the test, however its flag came to be set. *)
Theorem completion_callback_resubmission
    (i : nat) (transfer : Libusb.libusb_transfer.t) (submit_ret : Z)
    (w : U3bench.world) :
  let st := Libusb.libusb_transfer.status transfer in
  let active := U3bench.active_transfers (U3bench.state w) in
  let is_tx :=
    bool_decide (Z.land (Libusb.libusb_transfer.endpoint transfer)
                   Libusb.LIBUSB_ENDPOINT_DIR_MASK = Libusb.LIBUSB_ENDPOINT_OUT) in
  let w0 := U3bench.on_state (U3bench.set_active_transfers (Mach.u32 (active - 1))) w in
  let w' := U3bench.transfer_cb i transfer submit_ret w in
  let ret := (Libusb.libusb_submit_transfer submit_ret transfer).1 in
  let submitted := (Libusb.libusb_submit_transfer submit_ret transfer).2 in
  (st = Libusb.LIBUSB_TRANSFER_CANCELLED →
   w' = w0 ∧
   U3bench.ops (U3bench.state w') = U3bench.ops (U3bench.state w) ∧
   U3bench.ctrs (U3bench.state w') = U3bench.ctrs (U3bench.state w) ∧
   U3bench.host_errors (U3bench.state w') = U3bench.host_errors (U3bench.state w) ∧
   U3bench.cum_host_errors (U3bench.state w')
   = U3bench.cum_host_errors (U3bench.state w) ∧
   U3bench.log w' = U3bench.log w ∧ U3bench.xfers w' = U3bench.xfers w) ∧
  (st ≠ Libusb.LIBUSB_TRANSFER_CANCELLED →
   ∃ w1,
     U3bench.status_switch is_tx transfer w0 = Some w1 ∧
     w' = U3bench.resubmit i transfer submit_ret w1 ∧
     U3bench.terminate w1
     = U3bench.terminate w || bool_decide (st = Libusb.LIBUSB_TRANSFER_NO_DEVICE) ∧
     (U3bench.terminate w1 = true →
      U3bench.log w' = U3bench.log w ∧ U3bench.xfers w' = U3bench.xfers w ∧
      U3bench.active_transfers (U3bench.state w') = Mach.u32 (active - 1)) ∧
     (U3bench.terminate w1 = false →
      U3bench.log w' = U3bench.Submit i ret :: U3bench.log w ∧
      U3bench.xfers w' = <[i := U3bench.Ptr submitted]> (U3bench.xfers w) ∧
      (ret = Libusb.LIBUSB_SUCCESS →
       U3bench.active_transfers (U3bench.state w') = Mach.u32 (Mach.u32 (active - 1) + 1)) ∧
      (ret ≠ Libusb.LIBUSB_SUCCESS →
       U3bench.active_transfers (U3bench.state w') = Mach.u32 (active - 1) ∧
       (Libusb.in_flight transfer = false → Libusb.in_flight submitted = false)))) ∧
  (∀ w1,
     (U3bench.terminate w1 = true → U3bench.resubmit i transfer submit_ret w1 = w1) ∧
     (U3bench.terminate w1 = false →
      U3bench.log (U3bench.resubmit i transfer submit_ret w1)
      = U3bench.Submit i ret :: U3bench.log w1 ∧
      U3bench.active_transfers (U3bench.state (U3bench.resubmit i transfer submit_ret w1))
      = if decide (ret = Libusb.LIBUSB_SUCCESS)
        then Mach.u32 (U3bench.active_transfers (U3bench.state w1) + 1)
        else U3bench.active_transfers (U3bench.state w1))).
Proof.
  intros st active is_tx w0 w' ret submitted.
  assert (w' = match U3bench.status_switch is_tx transfer w0 with
               | None => w0
               | Some w1 => U3bench.resubmit i transfer submit_ret w1
               end) as Hdef by reflexivity.
  split; [|split].
  - intros Hst. rewrite Hdef. unfold U3bench.status_switch. fold st. by rewrite Hst.
  - intros Hnc.
    assert (∃ w1, U3bench.status_switch is_tx transfer w0 = Some w1 ∧
                  U3bench.terminate w1
                  = U3bench.terminate w
                    || bool_decide (st = Libusb.LIBUSB_TRANSFER_NO_DEVICE))
      as (w1 & Hsw & Hflag).
    { unfold U3bench.status_switch. fold st.
      destruct st; try done; eexists; (split; [reflexivity|]);
        simpl; by rewrite ?orb_false_r, ?orb_true_r. }
    exists w1. split; [done|].
    assert (w' = U3bench.resubmit i transfer submit_ret w1) as Hw'.
    { by rewrite Hdef, Hsw. }
    split; [done|]. split; [done|].
    destruct (status_switch_frame _ _ _ _ Hsw) as (Hx & Hl & Ha).
    split.
    + intros Hterm. rewrite Hw', resubmit_terminated by done.
      by rewrite Hx, Hl, Ha.
    + intros Hterm.
      destruct (resubmit_running i transfer submit_ret w1 Hterm) as (Hlog & Hxf & Hact).
      rewrite Hw', Hlog, Hxf, Hact, Hx, Hl, Ha.
      split; [done|]. split; [done|]. fold ret.
      split; [by intros Hret; rewrite decide_True|].
      intros Hret. rewrite decide_False by done. split; [done|].
      intros Hidle. subst submitted ret.
      unfold Libusb.libusb_submit_transfer in *. rewrite Hidle in *.
      destruct (decide (submit_ret = Libusb.LIBUSB_SUCCESS)); [done|]. exact Hidle.
  - intros w1. split.
    + apply resubmit_terminated.
    + intros Hterm.
      destruct (resubmit_running i transfer submit_ret w1 Hterm) as (Hlog & _ & Hact).
      by split.
Qed.

Lemma completion_callback_resubmission_witness :
  let w' := U3bench.transfer_cb 3 Inputs.third_stalled Libusb.LIBUSB_ERROR_NO_DEVICE
              Inputs.pool_at_callback in
  U3bench.deliver Inputs.stall_of_third Inputs.full_pool = w' ∧
  U3bench.log w'
  = U3bench.Submit 3 Libusb.LIBUSB_ERROR_NO_DEVICE :: U3bench.log Inputs.pool_at_callback ∧
  U3bench.active_transfers (U3bench.state w') = 63.
Proof.
  intros w'.
  destruct (completion_callback_resubmission 3 Inputs.third_stalled
              Libusb.LIBUSB_ERROR_NO_DEVICE Inputs.pool_at_callback)
    as (_ & Hother & _).
  destruct Hother as (w1 & _ & _ & Hflag & _ & Hsubmit); [discriminate|].
  destruct Hsubmit as (Hlog & _ & _ & Hfail); [by rewrite Hflag|].
  destruct Hfail as [Hactive _]; [discriminate|].
  split; [vm_compute; reflexivity|].
  split; [exact Hlog|exact Hactive].
Defined.

(** ** Measurements: the error counters *)
Section Snapshot.
Import Mach Defines.

Lemma accumulate_dev_errors_grow cum ival :
  dev_errors_grow cum ival (accumulate_dev_errors cum ival).
Proof.
  unfold dev_errors_grow, accumulate_dev_errors. simpl.
  split; [by apply lor_ge|]. split; [by apply lor_ge|].
  split; intros Hc Hi Hsum; (rewrite u32_small by (unfold is_u32; lia)); lia.
Qed.

Lemma bench_accumulate_counter c cum ival :
  U3bench.counter_value c (U3bench.accumulate_host_errors cum ival)
  = s32 (U3bench.counter_value c cum + U3bench.counter_value c ival).
Proof. by destruct c. Qed.

Lemma loop_accumulate_counter f cum ival :
  f ∈ U3loop.host_counters →
  f (U3loop.accumulate_host_errors cum ival) = s32 (f cum + f ival).
Proof.
  unfold U3loop.host_counters. rewrite !elem_of_cons, elem_of_nil.
  intros [->|[->|[->|[->|[->|[->|[->|[]]]]]]]]; done.
Qed.

Lemma s32_add_grows c i :
  is_int c → 0 ≤ i → c + i ≤ INT_MAX → s32 (c + i) = c + i ∧ c ≤ s32 (c + i).
Proof.
  intros Hc Hi Hsum.
  rewrite s32_small by (unfold is_int in *; lia). lia.
Qed.

End Snapshot.

(** A snapshot after which a cumulative counter is smaller than before:
    u3loop is told of 4294967295 physical-layer errors in one interval and
    of one more in the next; the cumulative count goes from 4294967295 to 0. *)
Lemma cumulative_count_wraps :
  ∃ s1 l1 s2 l2,
    U3loop.print_measurement (Some Inputs.t1)
      (U3loop.set_dev_errors Inputs.burst Inputs.loop_start) = Some (s1, l1) ∧
    U3loop.print_measurement (Some Inputs.t2)
      (U3loop.set_dev_errors Inputs.one_more s1) = Some (s2, l2) ∧
    Defines.phy_error_cnt (U3loop.cum_dev_errors s1) = 4294967295 ∧
    Defines.phy_error_cnt (U3loop.cum_dev_errors s2) = 0 ∧
    ¬ (Defines.phy_error_cnt (U3loop.cum_dev_errors (U3loop.set_dev_errors Inputs.one_more s1))
       ≤ Defines.phy_error_cnt (U3loop.cum_dev_errors s2)).
Proof.
  eexists _, _, _, _.
  split; [vm_compute; reflexivity|].
  split; [vm_compute; reflexivity|].
  split; [reflexivity|]. split; [reflexivity|].
  vm_compute. intros H. apply H. reflexivity.
Qed.

(** C5, amended.  In both tools a call of [print_measurement] that gets the
    time leaves every interval host and device error counter at zero, after
    it has added each to its cumulative counter in the counter's 32-bit
    type.  A cumulative bit mask never loses a bit.  A cumulative host
    counter, or device error count, is afterwards its old value plus the
    interval's, and so no smaller than before, provided that sum does not
    exceed the maximum of its type (INT_MAX for the host counters,
    UINT32_MAX for the device counts). *)
Theorem snapshot_resets_interval_counters
    (now : Mach.timespec) (sb : U3bench.state_t) (sl : U3loop.state_t) :
  (∃ s' l,
     U3bench.print_measurement (Some now) sb = Some (s', Some l) ∧
     U3bench.host_errors s' = U3bench.host_errors_t.zero ∧
     U3bench.dev_errors s' = Defines.u3loop_errors_zero ∧
     (∀ c, U3bench.counter_value c (U3bench.cum_host_errors s')
           = Mach.s32 (U3bench.counter_value c (U3bench.cum_host_errors sb)
                       + U3bench.counter_value c (U3bench.host_errors sb))) ∧
     (∀ c, Mach.is_int (U3bench.counter_value c (U3bench.cum_host_errors sb)) →
           0 ≤ U3bench.counter_value c (U3bench.host_errors sb) →
           U3bench.counter_value c (U3bench.cum_host_errors sb)
           + U3bench.counter_value c (U3bench.host_errors sb) ≤ Mach.INT_MAX →
           U3bench.counter_value c (U3bench.cum_host_errors sb)
           ≤ U3bench.counter_value c (U3bench.cum_host_errors s')) ∧
     Defines.dev_errors_grow (U3bench.cum_dev_errors sb) (U3bench.dev_errors sb)
       (U3bench.cum_dev_errors s')) ∧
  (∃ s' l,
     U3loop.print_measurement (Some now) sl = Some (s', Some l) ∧
     U3loop.host_errors s' = U3loop.host_errors_zero ∧
     U3loop.dev_errors s' = Defines.u3loop_errors_zero ∧
     (∀ f, f ∈ U3loop.host_counters →
           f (U3loop.cum_host_errors s')
           = Mach.s32 (f (U3loop.cum_host_errors sl) + f (U3loop.host_errors sl))) ∧
     (∀ f, f ∈ U3loop.host_counters →
           Mach.is_int (f (U3loop.cum_host_errors sl)) →
           0 ≤ f (U3loop.host_errors sl) →
           f (U3loop.cum_host_errors sl) + f (U3loop.host_errors sl) ≤ Mach.INT_MAX →
           f (U3loop.cum_host_errors sl) ≤ f (U3loop.cum_host_errors s')) ∧
     Defines.dev_errors_grow (U3loop.cum_dev_errors sl) (U3loop.dev_errors sl)
       (U3loop.cum_dev_errors s')).
Proof.
  split.
  - destruct (bench_print_measurement_returns now sb)
      as (s' & l & r & Hpm & _ & _ & Hh & Hd & Hch & Hcd).
    exists s', l. rewrite Hch, Hcd.
    split; [done|]. split; [done|]. split; [done|].
    split; [intros c; apply bench_accumulate_counter|].
    split; [|apply accumulate_dev_errors_grow].
    intros c Hc Hi Hsum. rewrite bench_accumulate_counter.
    by apply s32_add_grows.
  - destruct (loop_print_measurement_returns now sl)
      as (s' & l & r & Hpm & _ & _ & Hh & Hd & Hch & Hcd).
    exists s', l. rewrite Hch, Hcd.
    split; [done|]. split; [done|]. split; [done|].
    split; [intros f Hf; by apply loop_accumulate_counter|].
    split; [|apply accumulate_dev_errors_grow].
    intros f Hf Hc Hi Hsum. rewrite loop_accumulate_counter by done.
    by apply s32_add_grows.
Qed.

Lemma snapshot_resets_interval_counters_witness :
  ∃ s' l,
    U3loop.print_measurement (Some Inputs.t2) Inputs.loop_mid = Some (s', Some l) ∧
    U3loop.host_errors s' = U3loop.host_errors_zero ∧
    U3loop.data_corrupt (U3loop.cum_host_errors s') = 9 ∧
    Defines.phy_error_cnt (U3loop.cum_dev_errors s') = 8 ∧
    0x01 ≤ Defines.phy_errors (U3loop.cum_dev_errors s').
Proof.
  destruct (snapshot_resets_interval_counters Inputs.t2
              (U3bench.state (U3bench.world_at_start Inputs.t0)) Inputs.loop_mid)
    as [_ (s' & l & Hpm & Hzero & _ & Hroll & _ & Hdev)].
  exists s', l. split; [exact Hpm|]. split; [exact Hzero|].
  split; [exact (Hroll U3loop.data_corrupt ltac:(by left))|].
  destruct Hdev as (Hmask & _ & Hcnt & _).
  split; [|apply Hmask; by vm_compute].
  by destruct Hcnt as [Hsum _]; [by vm_compute..|exact Hsum].
Defined.

(** ** The synchronous test loop *)
Section Loopback.
Import Mach U3loop.

(** A result that is there is the one [default] picks. *)
Lemma some_default {A} (d : A) (o : option A) :
  bool_decide (is_Some o) = true → o = Some (default d o).
Proof. intros H. apply bool_decide_eq_true_1 in H. by destruct H as [x ->]. Qed.

Lemma memcmp_zero_iff a b n :
  length a = n → length b = n → memcmp a b n = 0 ↔ a = b.
Proof.
  revert a b. induction n as [|n IH]; intros [|x a] [|y b]; simpl; try done.
  intros [= Ha] [= Hb].
  destruct (decide (x = y)) as [->|Hne].
  - rewrite IH by done. split; [by intros ->|by intros [= ->]].
  - split; [|by intros [= ->]].
    intros Hdiff. exfalso. apply Hne.
    assert (Byte.to_N x = Byte.to_N y) as Heq by lia.
    pose proof (Byte.of_to_N x) as Hx. pose proof (Byte.of_to_N y) as Hy.
    congruence.
Qed.

Lemma store_bytes_length data buf :
  (length data ≤ length buf)%nat → length (store_bytes data buf) = length buf.
Proof.
  intros Hle. unfold store_bytes.
  rewrite length_take, length_app, length_drop. lia.
Qed.

Lemma classify_tx_data_corrupt err h h' :
  classify_tx err h = Some h' → data_corrupt h' = data_corrupt h.
Proof.
  unfold classify_tx. repeat case_decide; by intros [= <-].
Qed.

Lemma classify_rx_data_corrupt err h h' :
  classify_rx err h = Some h' → data_corrupt h' = data_corrupt h.
Proof.
  unfold classify_rx. repeat case_decide; by intros [= <-].
Qed.

(** The three steps of a cycle, spelled out. *)
Lemma transfer_cycle_inv tx rx m m' :
  transfer_cycle tx rx m = Some m' →
  ∃ h1 h2,
    classify_tx (out_err tx) (host_errors (state m)) = Some h1 ∧
    classify_rx (in_err rx) h1 = Some h2 ∧
    let data := take BLOCK_SIZE (received rx) in
    let buf := store_bytes data (rxbuf m) in
    rxbuf m' = buf ∧
    running m' = running m ∧
    ops (state m') = u64 (ops (state m) + 1) ∧
    tx_bytes (ctrs (state m'))
    = u64 (tx_bytes (ctrs (state m)) + u32 (out_transferred tx)) ∧
    rx_bytes (ctrs (state m'))
    = u64 (rx_bytes (ctrs (state m)) + u32 (Z.of_nat (length data))) ∧
    host_errors (state m')
    = (if decide (memcmp txbuf buf BLOCK_SIZE ≠ 0) then count_data_corrupt h2 else h2) ∧
    cum_host_errors (state m') = cum_host_errors (state m).
Proof.
  unfold transfer_cycle, send.
  destruct (classify_tx _ _) as [h1|] eqn:Htx; [|done].
  cbn [mbind option_bind]. unfold receive.
  destruct (classify_rx _ _) as [h2|] eqn:Hrx; [|done].
  cbn [mbind option_bind].
  intros [= <-]. exists h1, h2. split; [done|]. split; [exact Hrx|].
  unfold compare_and_count.
  destruct (decide (memcmp _ _ _ ≠ 0)); repeat split.
Qed.

End Loopback.

(** C9.  A cycle of the test loop of u3loop in which neither the send nor
    the receive ends in the [goto fail3] does [ops++] once.  It leaves the
    interval counter [data_corrupt] as it is when the receive buffer, after
    the receive, equals the transmit buffer of 0xC5 bytes, and does
    [data_corrupt++] once (in [int]) when the two differ in some byte. *)
Theorem loopback_compare_counts
    (tx : U3loop.bulk_out) (rx : U3loop.bulk_in) (m m' : U3loop.machine) :
  length (U3loop.rxbuf m) = U3loop.BLOCK_SIZE →
  U3loop.transfer_cycle tx rx m = Some m' →
  let dc := U3loop.data_corrupt (U3loop.host_errors (U3loop.state m)) in
  let dc' := U3loop.data_corrupt (U3loop.host_errors (U3loop.state m')) in
  U3loop.rxbuf m'
  = U3loop.store_bytes (take U3loop.BLOCK_SIZE (U3loop.received rx)) (U3loop.rxbuf m) ∧
  U3loop.ops (U3loop.state m') = Mach.u64 (U3loop.ops (U3loop.state m) + 1) ∧
  (U3loop.rxbuf m' = U3loop.txbuf → dc' = dc) ∧
  (U3loop.rxbuf m' ≠ U3loop.txbuf → dc' = Mach.s32 (dc + 1)).
Proof.
  intros Hlen Hcycle dc dc'. subst dc dc'.
  destruct (transfer_cycle_inv tx rx m m' Hcycle)
    as (h1 & h2 & Htx & Hrx & Hbuf & _ & Hops & _ & _ & Hh & _).
  apply classify_tx_data_corrupt in Htx. apply classify_rx_data_corrupt in Hrx.
  rewrite Hh, <- Htx, <- Hrx, <- Hbuf. clear Hh.
  split; [done|]. split; [done|].
  assert (length (U3loop.rxbuf m') = U3loop.BLOCK_SIZE) as Hlen'.
  { rewrite Hbuf, store_bytes_length; [done|].
    rewrite length_take, Hlen. lia. }
  assert (length U3loop.txbuf = U3loop.BLOCK_SIZE) as Hlentx
    by apply length_replicate.
  pose proof (memcmp_zero_iff U3loop.txbuf (U3loop.rxbuf m') U3loop.BLOCK_SIZE
                Hlentx Hlen') as Hcmp.
  split; intros Hrx'.
  - rewrite decide_False; [done|]. intros Hne. apply Hne, Hcmp. done.
  - rewrite decide_True; [done|]. intros Heq. apply Hrx'. symmetry. by apply Hcmp.
Qed.

Lemma loopback_compare_counts_witness :
  let intact := default Inputs.loop_machine
    (U3loop.transfer_cycle Inputs.sent_all Inputs.echo_intact Inputs.loop_machine) in
  let flipped := default Inputs.loop_machine
    (U3loop.transfer_cycle Inputs.sent_all Inputs.echo_flipped Inputs.loop_machine) in
  (U3loop.data_corrupt (U3loop.host_errors (U3loop.state intact)) = 0
   ∧ U3loop.ops (U3loop.state intact) = 1) ∧
  (U3loop.data_corrupt (U3loop.host_errors (U3loop.state flipped)) = 1
   ∧ U3loop.ops (U3loop.state flipped) = 1).
Proof.
  split.
  - destruct (loopback_compare_counts Inputs.sent_all Inputs.echo_intact
                Inputs.loop_machine
                (default Inputs.loop_machine
                   (U3loop.transfer_cycle Inputs.sent_all Inputs.echo_intact
                      Inputs.loop_machine)))
      as (_ & Hops & Hsame & _).
    + apply length_replicate.
    + apply some_default. vm_compute. reflexivity.
    + split; [|exact Hops]. apply Hsame.
      apply (bool_decide_eq_true_1 _). vm_compute. reflexivity.
  - destruct (loopback_compare_counts Inputs.sent_all Inputs.echo_flipped
                Inputs.loop_machine
                (default Inputs.loop_machine
                   (U3loop.transfer_cycle Inputs.sent_all Inputs.echo_flipped
                      Inputs.loop_machine)))
      as (_ & Hops & _ & Hdiff).
    + apply length_replicate.
    + apply some_default. vm_compute. reflexivity.
    + split; [|exact Hops]. apply Hdiff.
      apply (bool_decide_eq_false_1 _). vm_compute. reflexivity.
Defined.

(** ** The pipeline: what a callback does to the pool *)
Section Pipeline.
Import Mach Libusb Outcome U3bench.

Lemma length_filter_insert {A} (P : A → Prop) `{!∀ x, Decision (P x)}
    (l : list A) (i : nat) (x y : A) :
  l !! i = Some x →
  (length (filter P (<[i:=y]> l)) + (if decide (P x) then 1 else 0)
   = length (filter P l) + (if decide (P y) then 1 else 0))%nat.
Proof.
  revert i. induction l as [|z l IH]; intros [|i]; simpl; try done.
  - intros [= ->]. rewrite !filter_cons.
    destruct (decide (P x)), (decide (P y)); simpl; lia.
  - intros Hi. specialize (IH _ Hi). rewrite !filter_cons.
    destruct (decide (P z)); simpl; lia.
Qed.

Lemma submitted_count_store i p q w :
  xfers w !! i = Some p →
  (submitted_count (store i q w) + b2n (is_submitted p)
   = submitted_count w + b2n (is_submitted q))%nat.
Proof.
  intros Hi. unfold submitted_count, store, b2n. cbn [xfers].
  pose proof (length_filter_insert (λ p, is_submitted p = true)
                (xfers w) i p q Hi) as H.
  cbv beta in H.
  destruct (is_submitted p), (is_submitted q);
    rewrite ?(decide_True (P := true = true)),
            ?(decide_False (P := false = true)) in H by done; lia.
Qed.

Lemma submitted_count_le w : (submitted_count w ≤ length (xfers w))%nat.
Proof. apply length_filter. Qed.

Lemma submitted_count_pos i t w :
  xfers w !! i = Some (Ptr t) → in_flight t = true → (0 < submitted_count w)%nat.
Proof.
  intros Hi Hf. unfold submitted_count.
  assert (Ptr t ∈ filter (λ p, is_submitted p = true) (xfers w)) as Hin.
  { apply list_elem_of_filter. split; [done|]. by apply list_elem_of_lookup_2 in Hi. }
  destruct (filter _ _); [by apply elem_of_nil in Hin | simpl; lia].
Qed.

Lemma count_calls_cons f c l :
  count_calls f (c :: l) = (b2n (f c) + count_calls f l)%nat.
Proof.
  unfold count_calls. rewrite filter_cons.
  destruct (f c); by case_decide.
Qed.

Lemma count_calls_app f l k :
  count_calls f (l ++ k) = (count_calls f l + count_calls f k)%nat.
Proof. unfold count_calls. by rewrite filter_app, length_app. Qed.

(** The two ways a callback can end: without a submission, or with one. *)
Lemma transfer_cb_effect i t r w :
  let w' := transfer_cb i t r w in
  let a := u32 (active_transfers (state w) - 1) in
  (xfers w' = xfers w ∧ log w' = log w ∧ active_transfers (state w') = a) ∨
  (xfers w' = <[i := Ptr (libusb_submit_transfer r t).2]> (xfers w) ∧
   log w' = Submit i (libusb_submit_transfer r t).1 :: log w ∧
   active_transfers (state w') =
     if decide ((libusb_submit_transfer r t).1 = LIBUSB_SUCCESS)
     then u32 (a + 1) else a).
Proof.
  cbv zeta. unfold transfer_cb.
  set (w0 := on_state _ w).
  destruct (status_switch _ t w0) as [w1|] eqn:Hsw; [|by left].
  apply status_switch_frame in Hsw as (Hx & Hl & Ha).
  destruct (terminate w1) eqn:Hterm.
  - left. rewrite resubmit_terminated by done. by rewrite Hx, Hl, Ha.
  - right. destruct (resubmit_running i t r w1 Hterm) as (-> & -> & ->).
    by rewrite Hx, Hl, Ha.
Qed.

(** A completion that libusb cannot produce is not delivered. *)
Lemma deliver_cases c w :
  deliver c w = w ∨
  ∃ t, xfers w !! slot c = Some (Ptr t) ∧
       deliverable (c_status c) (libusb_transfer.flight t) = true ∧
       deliver c w =
         transfer_cb (slot c) (complete (c_status c) (c_actual_length c) t) (c_resubmit c)
           (record (Callback (slot c))
              (store (slot c) (Ptr (complete (c_status c) (c_actual_length c) t)) w)).
Proof.
  unfold deliver.
  destruct (xfers w !! slot c) as [[| |t]|] eqn:Hi; try by left.
  destruct (deliverable _ _) eqn:Hd; [|by left].
  right. by exists t.
Qed.

Lemma deliverable_in_flight st t :
  deliverable st (libusb_transfer.flight t) = true → in_flight t = true.
Proof. unfold in_flight. by destruct (libusb_transfer.flight t). Qed.

Lemma submit_idle r t :
  in_flight t = false →
  let '(ret, t') := libusb_submit_transfer r t in
  is_submitted (Ptr t') = bool_decide (ret = LIBUSB_SUCCESS) ∧
  libusb_transfer.buffer t' = libusb_transfer.buffer t.
Proof.
  intros Hidle. unfold libusb_submit_transfer. rewrite Hidle.
  destruct (decide (r = LIBUSB_SUCCESS)) as [->|Hne]; simpl; [done|].
  rewrite Hidle. by rewrite bool_decide_eq_false_2.
Qed.

Lemma submitted_count_xfers w1 w2 :
  xfers w1 = xfers w2 → submitted_count w1 = submitted_count w2.
Proof. unfold submitted_count. by intros ->. Qed.

Lemma consistent_bound w :
  consistent w → 0 ≤ active_transfers (state w) ≤ Z.of_nat BUFFER_CNT.
Proof.
  intros [Hlen Hact _]. pose proof (submitted_count_le w). lia.
Qed.

(** What libusb does before it calls the callback: the transfer is taken
    out of flight and the call is put on record. *)
Lemma handed_over i t st actual w :
  xfers w !! i = Some (Ptr t) → in_flight t = true →
  let t' := complete st actual t in
  let w0 := record (Callback i) (store i (Ptr t') w) in
  length (xfers w0) = length (xfers w) ∧
  xfers w0 !! i = Some (Ptr t') ∧
  (submitted_count w0 + 1 = submitted_count w)%nat ∧
  log w0 = Callback i :: log w ∧
  state w0 = state w ∧ terminate w0 = terminate w.
Proof.
  intros Hi Hf t' w0. subst w0.
  split; [by simpl; rewrite length_insert|].
  split; [simpl; apply list_lookup_insert_eq; by eapply lookup_lt_Some|].
  split; [|done].
  pose proof (submitted_count_store i (Ptr t) (Ptr t') w Hi) as Hc.
  change (submitted_count (record (Callback i) (store i (Ptr t') w)))
    with (submitted_count (store i (Ptr t') w)).
  simpl in Hc. rewrite Hf in Hc. simpl in Hc. lia.
Qed.

Lemma deliver_consistent c w : consistent w → consistent (deliver c w).
Proof.
  intros Hw.
  destruct (deliver_cases c w) as [->|(t & Hi & Hd & ->)]; [done|].
  apply deliverable_in_flight in Hd.
  destruct (handed_over (slot c) t (c_status c) (c_actual_length c) w Hi Hd)
    as (Hlen0 & Hi0 & Hcount0 & Hlog0 & Hst0 & _).
  pose proof (consistent_bound w Hw) as Hbound.
  pose proof (submitted_count_pos _ _ _ Hi Hd) as Hpos.
  destruct Hw as [Hlen Hact Hbal].
  set (t' := complete _ _ t) in *.
  set (w0 := record _ _) in *.
  assert (u32 (active_transfers (state w0) - 1) = Z.of_nat (submitted_count w0)) as Ha.
  { rewrite Hst0, u32_small; unfold is_u32, UINT32_MAX, BUFFER_CNT in *; lia. }
  destruct (transfer_cb_effect (slot c) t' (c_resubmit c) w0)
    as [(Hx & Hl & Hact')|(Hx & Hl & Hact')].
  - split.
    + by rewrite Hx, Hlen0.
    + rewrite Hact', Ha. by rewrite (submitted_count_xfers _ _ Hx).
    + rewrite Hact', Ha, Hl, Hlog0, !count_calls_cons. simpl. lia.
  - pose proof (submit_idle (c_resubmit c) t' eq_refl) as Hsub.
    destruct (libusb_submit_transfer (c_resubmit c) t') as [ret t''].
    destruct Hsub as [Hsub _]. cbn [fst snd] in Hx, Hl, Hact'.
    assert (submitted_count (transfer_cb (slot c) t' (c_resubmit c) w0)
            = submitted_count w0 + b2n (bool_decide (ret = LIBUSB_SUCCESS)))%nat
      as Hcount'.
    { pose proof (submitted_count_store (slot c) (Ptr t') (Ptr t'') w0 Hi0) as Hc.
      rewrite (submitted_count_xfers _ (store (slot c) (Ptr t'') w0) Hx).
      rewrite Hsub in Hc. simpl in Hc. lia. }
    pose proof (submitted_count_le (transfer_cb (slot c) t' (c_resubmit c) w0)) as Hle.
    rewrite Hx, length_insert, Hlen0, Hlen in Hle.
    split.
    + by rewrite Hx, length_insert, Hlen0.
    + rewrite Hact', Hcount', Ha.
      destruct (decide (ret = LIBUSB_SUCCESS)) as [Hr|Hr].
      * rewrite bool_decide_eq_true_2 in * by done. simpl in *.
        rewrite u32_small; unfold is_u32, UINT32_MAX, BUFFER_CNT in *; lia.
      * rewrite bool_decide_eq_false_2 in * by done. simpl. lia.
    + rewrite Hact', Ha, Hl, Hlog0, !count_calls_cons. simpl.
      destruct (decide (ret = LIBUSB_SUCCESS)) as [Hr|Hr].
      * rewrite bool_decide_eq_true_2 in * by done. simpl in *.
        rewrite u32_small; unfold is_u32, UINT32_MAX, BUFFER_CNT in *; lia.
      * rewrite bool_decide_eq_false_2 in * by done. simpl in *. lia.
Qed.

Lemma print_measurement_active clock s s' l :
  print_measurement clock s = Some (s', l) →
  active_transfers s' = active_transfers s ∧ ctrs s' = ctrs s.
Proof.
  destruct clock as [now|]; [|by intros [= <- _]].
  unfold print_measurement.
  destruct (bench_interval_rates_total
              (u64 (tx_bytes (ctrs s) - tx_bytes (measurement s)))
              (u64 (rx_bytes (ctrs s) - rx_bytes (measurement s)))
              (ival_usec now s)) as [[[m t] r] Hr].
  destruct (bench_average_rates_total (ctrs s) (total_time_usec now s))
    as [[[a ta] ra] Ha].
  rewrite Hr, Ha. by intros [= <- _].
Qed.

(** A measurement changes neither the array nor the counters of the pool;
    it puts at most a [Print] on record. *)
Lemma measure_frame clock w w' :
  measure clock w = Ret w' →
  xfers w' = xfers w ∧ terminate w' = terminate w ∧
  active_transfers (state w') = active_transfers (state w) ∧
  ctrs (state w') = ctrs (state w) ∧
  (log w' = log w ∨ ∃ l, log w' = Print l :: log w).
Proof.
  unfold measure.
  destruct (print_measurement clock (state w)) as [[s l]|] eqn:Hpm;
    cbn [trap mbind result_bind]; [|done].
  apply print_measurement_active in Hpm as [Ha Hc].
  intros [= <-]. destruct l as [l|]; simpl; eauto 10.
Qed.

Lemma cancel_keeps_flight t :
  in_flight (libusb_cancel_transfer t).2 = in_flight t ∧
  libusb_transfer.buffer (libusb_cancel_transfer t).2 = libusb_transfer.buffer t.
Proof. by destruct t as [? ? ? ? ? []]. Qed.

Lemma cancel_slot_frame i w w' :
  cancel_slot i w = Ret w' →
  state w' = state w ∧ terminate w' = terminate w ∧
  length (xfers w') = length (xfers w) ∧
  submitted_count w' = submitted_count w ∧
  (log w' = log w ∨ log w' = Cancel i :: log w).
Proof.
  unfold cancel_slot.
  destruct (xfers w !! i) as [[| |t]|] eqn:Hi; try done; intros [= <-];
    [by eauto 10|].
  split; [done|]. split; [done|]. split; [by simpl; rewrite length_insert|].
  split; [|by right].
  pose proof (submitted_count_store i (Ptr t) (Ptr (libusb_cancel_transfer t).2) w Hi)
    as Hc.
  change (submitted_count (record (Cancel i) ?x)) with (submitted_count x).
  destruct (cancel_keeps_flight t) as [Hf _].
  cbn [is_submitted] in Hc. rewrite Hf in Hc. lia.
Qed.

Lemma free_slot_frame i w w' :
  free_slot i w = Ret w' →
  state w' = state w ∧ terminate w' = terminate w ∧ xfers w' = xfers w ∧
  ∃ t, xfers w !! i = Some (Ptr t) ∧
       log w' = match libusb_transfer.buffer t with
                | Some buf => FreeTransfer i :: Free buf (active_transfers (state w)) :: log w
                | None => log w
                end.
Proof.
  unfold free_slot.
  destruct (xfers w !! i) as [[| |t]|] eqn:Hi; try done.
  destruct (libusb_transfer.buffer t) as [buf|] eqn:Hb; intros [= <-];
    (split; [done|]); (split; [done|]); (split; [done|]); exists t; by rewrite Hb.
Qed.

Lemma fill_slot_consistent opt_mode size i e w :
  xfers w !! i = Some Indeterminate →
  consistent w →
  consistent (match fill_slot opt_mode size i e w with
              | Continue w' => w'
              | Goto_fail3 w' => w'
              end).
Proof.
  intros Hi Hw.
  assert (consistent (store i NULL w)) as Hnull.
  { pose proof (submitted_count_store i Indeterminate NULL w Hi) as Hc.
    destruct Hw as [Hlen Hact Hbal]. split; simpl.
    - by rewrite length_insert.
    - rewrite Hact. simpl in Hc. lia.
    - done. }
  unfold fill_slot. destruct (alloc_ok e); simpl; [|done].
  destruct (malloc_ret e) as [buf|]; [|done].
  set (t := libusb_fill_bulk_transfer _ _ _).
  pose proof (submit_idle (submit_ret e) t eq_refl) as Hsub.
  destruct (libusb_submit_transfer (submit_ret e) t) as [ret t'].
  destruct Hsub as [Hsub _].
  pose proof (submitted_count_store i Indeterminate (Ptr t') w Hi) as Hc.
  rewrite Hsub in Hc. simpl in Hc.
  pose proof (submitted_count_le (store i (Ptr t') w)) as Hle.
  simpl in Hle. rewrite length_insert in Hle.
  destruct Hw as [Hlen Hact Hbal].
  destruct (decide (ret = LIBUSB_SUCCESS)) as [Hr|Hr].
  - rewrite bool_decide_eq_true_2 in Hc by done. simpl in Hc.
    split.
    + by simpl; rewrite length_insert.
    + rewrite (submitted_count_xfers
                 (on_state _ (record (Submit i ret) (store i (Ptr t') w)))
                 (store i (Ptr t') w) eq_refl). simpl.
      rewrite u32_small; unfold is_u32, UINT32_MAX, BUFFER_CNT in *; lia.
    + simpl. rewrite !count_calls_cons. simpl.
      rewrite bool_decide_eq_true_2 by done. simpl.
      rewrite u32_small; unfold is_u32, UINT32_MAX, BUFFER_CNT in *; lia.
  - rewrite bool_decide_eq_false_2 in Hc by done. simpl in Hc.
    split.
    + by simpl; rewrite length_insert.
    + rewrite (submitted_count_xfers
                 (record (Submit i ret) (store i (Ptr t') w))
                 (store i (Ptr t') w) eq_refl). simpl. lia.
    + simpl. rewrite !count_calls_cons. simpl.
      rewrite bool_decide_eq_false_2 by done. simpl. lia.
Qed.

Lemma consistent_frame w w' :
  consistent w →
  length (xfers w') = length (xfers w) →
  submitted_count w' = submitted_count w →
  active_transfers (state w') = active_transfers (state w) →
  count_calls is_submit_ok (log w') = count_calls is_submit_ok (log w) →
  count_calls is_callback (log w') = count_calls is_callback (log w) →
  consistent w'.
Proof.
  intros [Hlen Hact Hbal] Hl Hs Ha Hok Hcb.
  split; [by rewrite Hl | by rewrite Ha, Hs | by rewrite Ha, Hok, Hcb].
Qed.

Lemma exec_consistent opt_mode size o w w' :
  consistent w → exec opt_mode size o w = Ret w' → consistent w'.
Proof.
  intros Hw. destruct o as [i e|[c|]| |clock|i|i]; simpl.
  - destruct (xfers w !! i) as [[| |t]|] eqn:Hi; try done.
    pose proof (fill_slot_consistent opt_mode size i e w Hi Hw) as Hfill.
    by destruct (fill_slot opt_mode size i e w); intros [= <-].
  - intros [= <-]. by apply deliver_consistent.
  - intros [= <-]. by apply (consistent_frame w).
  - intros [= <-]. by apply (consistent_frame w).
  - intros Hm. apply measure_frame in Hm as (Hx & _ & Ha & _ & Hl).
    apply (consistent_frame w); try done.
    + by rewrite Hx.
    + by apply submitted_count_xfers.
    + by destruct Hl as [->|[l ->]]; rewrite ?count_calls_cons.
    + by destruct Hl as [->|[l ->]]; rewrite ?count_calls_cons.
  - intros Hc. apply cancel_slot_frame in Hc as (Hs & _ & Hlen & Hcount & Hl).
    apply (consistent_frame w); try done.
    + by rewrite Hs.
    + by destruct Hl as [->| ->]; rewrite ?count_calls_cons.
    + by destruct Hl as [->| ->]; rewrite ?count_calls_cons.
  - intros Hf. apply free_slot_frame in Hf as (Hs & _ & Hx & t & _ & Hl).
    apply (consistent_frame w); try done.
    + by rewrite Hx.
    + by apply submitted_count_xfers.
    + by rewrite Hs.
    + rewrite Hl. by destruct (libusb_transfer.buffer t); rewrite ?count_calls_cons.
    + rewrite Hl. by destruct (libusb_transfer.buffer t); rewrite ?count_calls_cons.
Qed.

Lemma run_consistent opt_mode size os w w' :
  consistent w → run opt_mode size os w = Ret w' → consistent w'.
Proof.
  revert w. induction os as [|o os IH]; intros w Hw; simpl.
  - by intros [= <-].
  - destruct (exec opt_mode size o w) as [w1| |] eqn:Hexec; try done.
    cbn [mbind result_bind]. apply IH. by eapply exec_consistent.
Qed.

Lemma world_at_start_consistent start : consistent (world_at_start start).
Proof. split; reflexivity. Qed.

Lemma run_app opt_mode size os1 os2 w :
  run opt_mode size (os1 ++ os2) w
  = run opt_mode size os1 w ≫= run opt_mode size os2.
Proof.
  revert w. induction os1 as [|o os1 IH]; intros w; simpl; [done|].
  destruct (exec opt_mode size o w) as [w1| |]; try done.
  cbn [mbind result_bind]. apply IH.
Qed.

(** What one step does to [active_transfers]: only a submission that
    succeeds increments it, only a callback decrements it. *)
Lemma exec_accounting opt_mode size o w w' :
  consistent w → exec opt_mode size o w = Ret w' →
  active_transfers (state w') - active_transfers (state w)
  = (Z.of_nat (count_calls is_submit_ok (log w'))
     - Z.of_nat (count_calls is_submit_ok (log w)))
    - (Z.of_nat (count_calls is_callback (log w'))
       - Z.of_nat (count_calls is_callback (log w))).
Proof.
  intros Hw Hexec.
  pose proof (exec_consistent _ _ _ _ _ Hw Hexec) as [_ _ Hbal'].
  destruct Hw as [_ _ Hbal]. lia.
Qed.

End Pipeline.

(** ** The pipeline of [main] is a run *)
Section Linking.
Import Mach Libusb Outcome U3bench.
Variable opt_mode : Defines.u3loop_mode.
Variable opt_transfer_size : Z.

Local Abbreviation run' := (run opt_mode opt_transfer_size).

Lemma run_snoc os o w w1 w2 :
  run' os w = Ret w1 → exec opt_mode opt_transfer_size o w1 = Ret w2 →
  run' (os ++ [o]) w = Ret w2.
Proof.
  intros Hrun Hexec. rewrite run_app, Hrun. cbn [mbind result_bind run].
  by rewrite Hexec.
Qed.

Lemma run_trans os1 os2 w w1 w2 :
  run' os1 w = Ret w1 → run' os2 w1 = Ret w2 → run' (os1 ++ os2) w = Ret w2.
Proof. intros H1 H2. by rewrite run_app, H1. Qed.

Lemma fill_slot_xfers i e w :
  ∃ p, xfers (world_of (fill_slot opt_mode opt_transfer_size i e w))
       = <[i := p]> (xfers w).
Proof.
  unfold fill_slot. destruct (alloc_ok e); simpl; [|by eexists].
  destruct (malloc_ret e) as [buf|]; simpl; [|by eexists].
  destruct (libusb_submit_transfer _ _) as [ret t]. simpl.
  by destruct (decide (ret = LIBUSB_SUCCESS)); eexists.
Qed.

Lemma fill_loop_is_run env n i w :
  (∀ j, (i ≤ j < i + n)%nat → xfers w !! j = Some Indeterminate) →
  ∃ os, run' os w = Ret (world_of (fill_loop opt_mode opt_transfer_size env n i w)).
Proof.
  revert i w. induction n as [|n IH]; intros i w Hfresh; simpl.
  - by exists [].
  - assert (exec opt_mode opt_transfer_size (OpFill i (env i)) w
            = Ret (world_of (fill_slot opt_mode opt_transfer_size i (env i) w)))
      as Hexec.
    { simpl. rewrite Hfresh by lia. by destruct (fill_slot _ _ _ _ _). }
    destruct (fill_slot_xfers i (env i) w) as [p Hx].
    destruct (fill_slot opt_mode opt_transfer_size i (env i) w) as [w1|w1] eqn:Hslot;
      simpl in Hexec, Hx.
    + destruct (IH (S i) w1) as [os Hos].
      { intros j Hj. rewrite Hx, list_lookup_insert_ne by lia. apply Hfresh. lia. }
      exists (OpFill i (env i) :: os). simpl in *.
      rewrite Hfresh in * by lia. by rewrite Hslot in *.
    + exists [OpFill i (env i)]. simpl in *.
      rewrite Hfresh in * by lia. by rewrite Hslot in *.
Qed.

Lemma handle_events_is_run es w :
  run' (OpEvent <$> es) w = Ret (libusb_handle_events es w).
Proof.
  revert w. induction es as [|e es IH]; intros w; simpl; [done|].
  apply IH.
Qed.

Lemma main_loop_body_is_run limit ival tk lv w lv' f :
  main_loop_body limit ival tk lv w = Ret (lv', f) →
  ∃ os, run' os w = Ret (world_of f).
Proof.
  unfold main_loop_body.
  set (w1 := libusb_handle_events_timeout_completed (events tk) w).
  assert (∃ os, run' os w = Ret w1) as [os1 Hos1].
  { subst w1. unfold libusb_handle_events_timeout_completed.
    destruct (terminate w); [by exists []|].
    eexists. apply handle_events_is_run. }
  destruct (now tk) as [now|]; [|intros [= <- <-]; by exists os1].
  set (tr := time_running now (state w1)).
  set (w2 := if decide (0 < limit ∧ limit ≤ tr) then set_terminate w1 else w1).
  assert (∃ os, run' os w = Ret w2) as [os2 Hos2].
  { subst w2. destruct (decide (0 < limit ∧ limit ≤ tr)); [|by exists os1].
    exists (os1 ++ [OpTimeLimit]). by eapply run_snoc. }
  destruct (decide (tr ≠ last_time_running lv)).
  - fold w2.
    destruct (_ || terminate w2).
    + destruct (measure (now_measurement tk) w2) as [w3| |] eqn:Hm; try done.
      cbn [mbind result_bind]. intros [= <- <-].
      exists (os2 ++ [OpMeasure (now_measurement tk)]). by eapply run_snoc.
    + intros [= <- <-]. by exists os2.
  - destruct (_ || terminate w1).
    + destruct (measure (now_measurement tk) w1) as [w3| |] eqn:Hm; try done.
      cbn [mbind result_bind]. intros [= <- <-].
      exists (os1 ++ [OpMeasure (now_measurement tk)]). by eapply run_snoc.
    + intros [= <- <-]. by exists os1.
Qed.

Lemma main_loop_is_run limit ival ticks lv w f :
  main_loop limit ival ticks lv w = Ret f →
  ∃ os, run' os w = Ret (world_of f).
Proof.
  revert lv w. induction ticks as [|tk ticks IH]; intros lv w; simpl.
  - destruct (terminate w); [|done]. intros [= <-]. by exists [].
  - destruct (terminate w); [intros [= <-]; by exists []|].
    destruct (main_loop_body limit ival tk lv w) as [[lv' f1]| |] eqn:Hbody; try done.
    cbn [mbind result_bind].
    apply main_loop_body_is_run in Hbody as [os1 Hos1].
    destruct f1 as [w1|w1]; simpl in Hos1.
    + intros Hrest. apply IH in Hrest as [os2 Hos2].
      exists (os1 ++ os2). by eapply run_trans.
    + intros [= <-]. by exists os1.
Qed.

Lemma cancel_loop_is_run n i w w' :
  cancel_loop n i w = Ret w' → ∃ os, run' os w = Ret w'.
Proof.
  revert i w. induction n as [|n IH]; intros i w; simpl.
  - intros [= <-]. by exists [].
  - destruct (cancel_slot i w) as [w1| |] eqn:Hc; try done.
    cbn [mbind result_bind]. intros Hrest. apply IH in Hrest as [os Hos].
    exists (OpCancel i :: os). simpl. by rewrite Hc.
Qed.

Lemma wait_loop_is_run batches w w' :
  wait_loop batches w = Ret w' → ∃ os, run' os w = Ret w'.
Proof.
  revert w. induction batches as [|es batches IH]; intros w; simpl.
  - case_decide; [done|]. intros [= <-]. by exists [].
  - case_decide; [|intros [= <-]; by exists []].
    intros Hrest. apply IH in Hrest as [os Hos].
    exists ((OpEvent <$> es) ++ os).
    eapply run_trans; [apply handle_events_is_run | done].
Qed.

Lemma free_loop_is_run n i w w' :
  free_loop n i w = Ret w' → ∃ os, run' os w = Ret w'.
Proof.
  revert i w. induction n as [|n IH]; intros i w; simpl.
  - intros [= <-]. by exists [].
  - destruct (free_slot i w) as [w1| |] eqn:Hf; try done.
    cbn [mbind result_bind]. intros Hrest. apply IH in Hrest as [os Hos].
    exists (OpFree i :: os). simpl. by rewrite Hf.
Qed.

Lemma drain_inv batches w w' :
  drain batches w = Ret w' →
  ∃ w1 w2, cancel_loop BUFFER_CNT 0 w = Ret w1 ∧
           wait_loop batches w1 = Ret w2 ∧
           free_loop BUFFER_CNT 0 w2 = Ret w'.
Proof.
  unfold drain.
  destruct (cancel_loop BUFFER_CNT 0 w) as [w1| |] eqn:Hc; try done.
  cbn [mbind result_bind].
  destruct (wait_loop batches w1) as [w2| |] eqn:Hw; try done.
  cbn [mbind result_bind]. intros Hfree. by exists w1, w2.
Qed.

Lemma drain_is_run batches w w' :
  drain batches w = Ret w' → ∃ os, run' os w = Ret w'.
Proof.
  intros (w1 & w2 & Hc & Hw & Hf)%drain_inv.
  apply cancel_loop_is_run in Hc as [os1 H1].
  apply wait_loop_is_run in Hw as [os2 H2].
  apply free_loop_is_run in Hf as [os3 H3].
  exists (os1 ++ os2 ++ os3). eapply run_trans; [done|]. by eapply run_trans.
Qed.

Lemma pipeline_is_run limit ival env ticks batches start rv w' :
  pipeline opt_mode opt_transfer_size limit ival env ticks batches
    (world_at_start start) = Ret (rv, w') →
  ∃ os, run' os (world_at_start start) = Ret w'.
Proof.
  unfold pipeline, fill_pool.
  destruct (fill_loop_is_run env BUFFER_CNT 0 (world_at_start start)) as [os1 H1].
  { intros j Hj. unfold world_at_start. cbn [xfers].
    apply lookup_replicate_2. lia. }
  destruct (fill_loop _ _ _ _ _ _) as [w1|w1]; simpl in H1.
  - destruct (main_loop _ _ _ _ _) as [f| |] eqn:Hloop; try done.
    cbn [mbind result_bind].
    apply main_loop_is_run in Hloop as [os2 H2].
    assert (∀ w2, run' os2 w1 = Ret w2 →
              (w ← drain batches w2; Ret (EXIT_SUCCESS, w)) = Ret (rv, w')
              ∨ (w ← drain batches w2; Ret (EXIT_FAILURE, w)) = Ret (rv, w') →
              ∃ os, run' os (world_at_start start) = Ret w') as Hrest.
    { intros w2 Hw2 Hd.
      assert (drain batches w2 = Ret w') as Hdrain.
      { destruct (drain batches w2) as [w3| |]; cbn [mbind result_bind] in Hd;
          by destruct Hd as [[= _ ->]|[= _ ->]] || destruct Hd. }
      apply drain_is_run in Hdrain as [os3 H3].
      exists (os1 ++ os2 ++ os3). eapply run_trans; [done|]. by eapply run_trans. }
    destruct f as [w2|w2]; simpl in H2; intros Hd; eapply Hrest; eauto.
  - destruct (drain batches w1) as [w3| |] eqn:Hdrain; try done.
    cbn [mbind result_bind]. intros [= _ <-].
    apply drain_is_run in Hdrain as [os3 H3].
    exists (os1 ++ os3). by eapply run_trans.
Qed.

End Linking.

(** ** The code at [fail3] *)
Section Drain.
Import Mach Libusb Outcome U3bench.

Lemma omap_via_fmap {A B} (f : A → option B) (l : list A) :
  omap f l = omap id (f <$> l).
Proof.
  induction l as [|x l IH]; [done|].
  rewrite fmap_cons. cbn [omap list_omap]. rewrite <- IH. by destruct (f x).
Qed.

Lemma omap_cons' {A B} (f : A → option B) (x : A) (l : list A) :
  omap f (x :: l) = match f x with
                    | Some y => y :: omap f l
                    | None => omap f l
                    end.
Proof. done. Qed.

Lemma wait_loop_zero batches w w' :
  wait_loop batches w = Ret w' → active_transfers (state w') = 0.
Proof.
  revert w. induction batches as [|es batches IH]; intros w; simpl.
  - case_decide as Ha; [done|]. intros [= <-]. lia.
  - case_decide as Ha; [apply IH|]. intros [= <-]. lia.
Qed.

Lemma frees_cons c l :
  frees (c :: l) = match c with
                   | Free buf active => (buf, active) :: frees l
                   | _ => frees l
                   end.
Proof. by destruct c. Qed.

Lemma buffers_insert i p (l : list xfer_ptr) q :
  l !! i = Some q → buffer_of p = buffer_of q →
  buffer_of <$> <[i := p]> l = buffer_of <$> l.
Proof.
  intros Hi Hb. rewrite list_fmap_insert, Hb.
  apply list_insert_id. by rewrite list_lookup_fmap, Hi.
Qed.

(** Handling an event frees nothing and leaves every buffer with its
    transfer. *)
Lemma handle_quiet e w :
  buffer_of <$> xfers (handle e w) = buffer_of <$> xfers w ∧
  frees (log (handle e w)) = frees (log w).
Proof.
  destruct e as [c|]; simpl; [|done].
  destruct (deliver_cases c w) as [->|(t & Hi & Hd & ->)]; [done|].
  apply deliverable_in_flight in Hd.
  destruct (handed_over (slot c) t (c_status c) (c_actual_length c) w Hi Hd)
    as (_ & Hi0 & _ & Hlog0 & _).
  set (t' := complete _ _ t) in *.
  assert (buffer_of <$> xfers (record (Callback (slot c)) (store (slot c) (Ptr t') w))
          = buffer_of <$> xfers w) as Hb0.
  { simpl. by apply (buffers_insert _ _ _ (Ptr t)). }
  set (w0 := record _ _) in *.
  destruct (transfer_cb_effect (slot c) t' (c_resubmit c) w0)
    as [(Hx & Hl & _)|(Hx & Hl & _)]; rewrite Hx, Hl, ?frees_cons, Hlog0, frees_cons.
  - done.
  - split; [|done]. rewrite <- Hb0.
    apply (buffers_insert _ _ _ (Ptr t')); [done|].
    pose proof (submit_idle (c_resubmit c) t' eq_refl) as Hsub.
    destruct (libusb_submit_transfer (c_resubmit c) t') as [ret t''].
    by destruct Hsub as [_ Hsub].
Qed.

Lemma handle_events_quiet es w :
  buffer_of <$> xfers (libusb_handle_events es w) = buffer_of <$> xfers w ∧
  frees (log (libusb_handle_events es w)) = frees (log w).
Proof.
  revert w. induction es as [|e es IH]; intros w; simpl; [done|].
  destruct (IH (handle e w)) as [-> ->]. apply handle_quiet.
Qed.

Lemma wait_loop_quiet batches w w' :
  wait_loop batches w = Ret w' →
  buffer_of <$> xfers w' = buffer_of <$> xfers w ∧ frees (log w') = frees (log w).
Proof.
  revert w. induction batches as [|es batches IH]; intros w; simpl.
  - case_decide; [done|]. by intros [= <-].
  - case_decide; [|by intros [= <-]].
    intros Hrest. destruct (IH _ Hrest) as [-> ->]. apply handle_events_quiet.
Qed.

Lemma cancel_loop_quiet n i w w' :
  cancel_loop n i w = Ret w' →
  buffer_of <$> xfers w' = buffer_of <$> xfers w ∧ frees (log w') = frees (log w).
Proof.
  revert i w. induction n as [|n IH]; intros i w; simpl.
  - by intros [= <-].
  - unfold cancel_slot at 1.
    destruct (xfers w !! i) as [[| |t]|] eqn:Hi; try done; cbn [mbind result_bind].
    + apply IH.
    + intros Hrest. destruct (IH _ _ Hrest) as [-> ->]. simpl.
      split; [|done]. apply (buffers_insert _ _ _ (Ptr t)); [done|].
      simpl. by destruct (cancel_keeps_flight t) as [_ ->].
Qed.

(** The free loop frees the buffers of the elements [i .. i+n-1], in that
    order, and changes nothing else. *)
Lemma free_loop_frees n i w w' :
  free_loop n i w = Ret w' →
  state w' = state w ∧ xfers w' = xfers w ∧
  frees (log w')
  = reverse ((λ buf, (buf, active_transfers (state w)))
             <$> omap buffer_of (take n (drop i (xfers w))))
    ++ frees (log w).
Proof.
  revert i w. induction n as [|n IH]; intros i w; simpl.
  - by intros [= <-].
  - destruct (free_slot i w) as [w1| |] eqn:Hf; try done.
    cbn [mbind result_bind]. intros Hrest.
    apply free_slot_frame in Hf as (Hs1 & _ & Hx1 & t & Hi & Hl1).
    destruct (IH _ _ Hrest) as (-> & -> & ->).
    rewrite Hs1, Hx1. split; [done|]. split; [done|].
    rewrite (drop_S _ _ _ Hi). cbn [take].
    rewrite omap_cons', Hl1. cbn [buffer_of].
    destruct (libusb_transfer.buffer t) as [buf|]; [|done].
    rewrite !frees_cons, fmap_cons, reverse_cons.
    by rewrite <- app_assoc.
Qed.

Lemma drain_frees batches w w' :
  drain batches w = Ret w' →
  active_transfers (state w') = 0 ∧
  frees (log w') = reverse ((λ buf, (buf, 0)) <$> pool_buffers w) ++ frees (log w).
Proof.
  intros (w1 & w2 & Hc & Hw & Hf)%drain_inv.
  pose proof (wait_loop_zero _ _ _ Hw) as Hzero.
  apply cancel_loop_quiet in Hc as [Hb1 Hl1].
  apply wait_loop_quiet in Hw as [Hb2 Hl2].
  apply free_loop_frees in Hf as (Hs & _ & Hl).
  split; [by rewrite Hs|].
  rewrite Hl, Hzero, Hl2, Hl1. f_equal. f_equal. f_equal.
  unfold pool_buffers. rewrite drop_0.
  rewrite !(omap_via_fmap buffer_of), !fmap_take. by rewrite Hb2, Hb1.
Qed.

End Drain.

Lemma returned_ret {A} (d : A) (r : Outcome.result A) :
  Outcome.is_ret r = true → r = Outcome.Ret (Outcome.returned d r).
Proof. by destruct r. Qed.

(** C2.  Whenever the code at [fail3] (cancel every transfer, handle events
    until [active_transfers] is zero, free) returns, whatever the number of
    transfers still submitted when it starts: [active_transfers] is zero,
    and the calls of [free] it made are one for each buffer of the pool and
    no other, no buffer twice, each made while [active_transfers] was
    zero. *)
Theorem drain_postcondition
    (batches : list (list U3bench.event)) (w w' : U3bench.world) :
  U3bench.drain batches w = Outcome.Ret w' →
  NoDup (U3bench.pool_buffers w) →
  U3bench.active_transfers (U3bench.state w') = 0 ∧
  ∃ freed,
    U3bench.frees (U3bench.log w') = freed ++ U3bench.frees (U3bench.log w) ∧
    freed.*1 ≡ₚ U3bench.pool_buffers w ∧
    NoDup freed.*1 ∧
    Forall (λ f, f.2 = 0) freed.
Proof.
  intros Hdrain Hnd.
  destruct (drain_frees batches w w' Hdrain) as [Hzero Hfrees].
  split; [done|]. eexists. split; [exact Hfrees|].
  assert (((λ buf : Z, (buf, 0)) <$> U3bench.pool_buffers w).*1
          = U3bench.pool_buffers w) as Hfst.
  { rewrite <- list_fmap_compose. apply list_fmap_id. }
  rewrite fmap_reverse, Hfst.
  split; [apply reverse_Permutation|].
  split; [by rewrite reverse_Permutation|].
  rewrite reverse_Permutation. by apply Forall_fmap, Forall_true.
Qed.

Lemma drain_postcondition_witness :
  let all := Outcome.returned Inputs.full_pool
               (U3bench.drain (Inputs.cancellations 0 64) Inputs.full_pool) in
  let some := Outcome.returned Inputs.half_pool
               (U3bench.drain (Inputs.cancellations 32 32) Inputs.half_pool) in
  let none := Outcome.returned Inputs.idle_pool
               (U3bench.drain [] Inputs.idle_pool) in
  (U3bench.submitted_count Inputs.full_pool = 64%nat ∧
   U3bench.active_transfers (U3bench.state all) = 0 ∧
   ∃ freed, U3bench.frees (U3bench.log all) = freed ++ [] ∧
            freed.*1 ≡ₚ U3bench.pool_buffers Inputs.full_pool ∧
            NoDup freed.*1 ∧ Forall (λ f, f.2 = 0) freed) ∧
  (U3bench.submitted_count Inputs.half_pool = 32%nat ∧
   U3bench.active_transfers (U3bench.state some) = 0 ∧
   ∃ freed, U3bench.frees (U3bench.log some) = freed ++ [] ∧
            freed.*1 ≡ₚ U3bench.pool_buffers Inputs.half_pool ∧
            NoDup freed.*1 ∧ Forall (λ f, f.2 = 0) freed) ∧
  (U3bench.submitted_count Inputs.idle_pool = 0%nat ∧
   U3bench.active_transfers (U3bench.state none) = 0 ∧
   ∃ freed, U3bench.frees (U3bench.log none) = freed ++ [] ∧
            freed.*1 ≡ₚ U3bench.pool_buffers Inputs.idle_pool ∧
            NoDup freed.*1 ∧ Forall (λ f, f.2 = 0) freed).
Proof.
  split; [|split]; (split; [vm_compute; reflexivity|]).
  - apply (drain_postcondition (Inputs.cancellations 0 64) Inputs.full_pool).
    + apply returned_ret. vm_compute. reflexivity.
    + apply (bool_decide_eq_true_1 _). vm_compute. reflexivity.
  - apply (drain_postcondition (Inputs.cancellations 32 32) Inputs.half_pool).
    + apply returned_ret. vm_compute. reflexivity.
    + apply (bool_decide_eq_true_1 _). vm_compute. reflexivity.
  - apply (drain_postcondition [] Inputs.idle_pool).
    + apply returned_ret. vm_compute. reflexivity.
    + apply (bool_decide_eq_true_1 _). vm_compute. reflexivity.
Defined.

Lemma pipeline_drains opt_mode size limit ival env ticks batches w rv w' :
  U3bench.pipeline opt_mode size limit ival env ticks batches w = Outcome.Ret (rv, w') →
  ∃ w1, U3bench.drain batches w1 = Outcome.Ret w'.
Proof.
  unfold U3bench.pipeline.
  destruct (U3bench.fill_pool _ _ _ _) as [w1|w1].
  - destruct (U3bench.main_loop _ _ _ _ _) as [[w2|w2]| |]; try done;
      cbn [mbind Outcome.result_bind];
      (destruct (U3bench.drain batches w2) as [w3| |] eqn:Hd; try done);
      cbn [mbind Outcome.result_bind]; intros [= _ <-]; by exists w2.
  - destruct (U3bench.drain batches w1) as [w3| |] eqn:Hd; try done.
    cbn [mbind Outcome.result_bind]. intros [= _ <-]. by exists w1.
Qed.

(** [active_transfers] reaching zero before the code at [fail3] is entered:
    all 64 transfers are submitted, the plug is pulled, and the first turn
    of the main loop delivers LIBUSB_TRANSFER_NO_DEVICE for each of them;
    the loop body ends with [active_transfers] at zero and nothing
    cancelled yet. *)
Lemma active_transfers_zero_in_main_loop :
  ∃ w1 lv w2,
    U3bench.fill_pool Defines.U3LOOP_MODE_READ_WRITE 1024 Inputs.fill_ok
      (U3bench.world_at_start Inputs.t0) = U3bench.Continue w1 ∧
    U3bench.active_transfers (U3bench.state w1) = 64 ∧
    U3bench.main_loop_body 0 1 Inputs.unplugged
      {| U3bench.take_measurement := false; U3bench.last_time_running := 0 |} w1
    = Outcome.Ret (lv, U3bench.Continue w2) ∧
    U3bench.active_transfers (U3bench.state w2) = 0 ∧
    U3bench.count_calls
      (λ c, match c with U3bench.Cancel _ => true | _ => false end)
      (U3bench.log w2) = 0%nat.
Proof.
  eexists _, _, _.
  split; [vm_compute; reflexivity|].
  split; [reflexivity|].
  split; [vm_compute; reflexivity|].
  split; reflexivity.
Qed.

(** C4, amended.  Throughout a run of the pipeline, from the allocation of
    the pool on, [active_transfers] is the number of transfers libusb holds,
    so it never exceeds BUFFER_CNT = 64; it is the number of submissions
    that succeeded (in the allocation loop or in a callback) less the
    number of callbacks made, and every step changes it by just that
    difference.  Every [main] that gets past the code at [fail3] is such a
    run and ends with [active_transfers] at zero. *)
Theorem active_transfers_bookkeeping
    (opt_mode : Defines.u3loop_mode) (opt_transfer_size : Z) (start : Mach.timespec) :
  (∀ os w,
     U3bench.run opt_mode opt_transfer_size os (U3bench.world_at_start start)
     = Outcome.Ret w →
     0 ≤ U3bench.active_transfers (U3bench.state w) ≤ 64 ∧
     U3bench.active_transfers (U3bench.state w) = Z.of_nat (U3bench.submitted_count w) ∧
     U3bench.active_transfers (U3bench.state w)
     = Z.of_nat (U3bench.count_calls U3bench.is_submit_ok (U3bench.log w))
       - Z.of_nat (U3bench.count_calls U3bench.is_callback (U3bench.log w)) ∧
     ∀ o w1,
       U3bench.exec opt_mode opt_transfer_size o w = Outcome.Ret w1 →
       U3bench.active_transfers (U3bench.state w1)
       - U3bench.active_transfers (U3bench.state w)
       = (Z.of_nat (U3bench.count_calls U3bench.is_submit_ok (U3bench.log w1))
          - Z.of_nat (U3bench.count_calls U3bench.is_submit_ok (U3bench.log w)))
         - (Z.of_nat (U3bench.count_calls U3bench.is_callback (U3bench.log w1))
            - Z.of_nat (U3bench.count_calls U3bench.is_callback (U3bench.log w)))) ∧
  (∀ limit ival env ticks batches rv w',
     U3bench.pipeline opt_mode opt_transfer_size limit ival env ticks batches
       (U3bench.world_at_start start) = Outcome.Ret (rv, w') →
     (∃ os, U3bench.run opt_mode opt_transfer_size os (U3bench.world_at_start start)
            = Outcome.Ret w') ∧
     U3bench.active_transfers (U3bench.state w') = 0).
Proof.
  split.
  - intros os w Hrun.
    pose proof (run_consistent _ _ _ _ _ (world_at_start_consistent start) Hrun) as Hw.
    pose proof (consistent_bound w Hw) as Hbound.
    split; [exact Hbound|].
    split; [by destruct Hw|]. split; [by destruct Hw|].
    intros o w1 Hexec. by apply (exec_accounting opt_mode opt_transfer_size o).
  - intros limit ival env ticks batches rv w' Hp.
    split; [by eapply pipeline_is_run|].
    apply pipeline_drains in Hp as [w1 Hd].
    by destruct (drain_frees _ _ _ Hd).
Qed.

Lemma active_transfers_bookkeeping_witness :
  let w := Outcome.returned (U3bench.world_at_start Inputs.t0)
             (U3bench.run Defines.U3LOOP_MODE_READ_WRITE 1024 Inputs.short_run
                (U3bench.world_at_start Inputs.t0)) in
  U3bench.active_transfers (U3bench.state w) = 1 ∧
  0 ≤ U3bench.active_transfers (U3bench.state w) ≤ 64 ∧
  U3bench.submitted_count w = 1%nat ∧
  U3bench.count_calls U3bench.is_submit_ok (U3bench.log w) = 3%nat ∧
  U3bench.count_calls U3bench.is_callback (U3bench.log w) = 2%nat.
Proof.
  destruct (active_transfers_bookkeeping Defines.U3LOOP_MODE_READ_WRITE 1024 Inputs.t0)
    as [Hrun _].
  destruct (Hrun Inputs.short_run
              (Outcome.returned (U3bench.world_at_start Inputs.t0)
                 (U3bench.run Defines.U3LOOP_MODE_READ_WRITE 1024 Inputs.short_run
                    (U3bench.world_at_start Inputs.t0))))
    as (Hbound & Hsub & Hbal & _).
  { apply returned_ret. vm_compute. reflexivity. }
  split; [vm_compute; reflexivity|].
  split; [exact Hbound|].
  split; [vm_compute; reflexivity|].
  split; vm_compute; reflexivity.
Defined.

(** ** The byte counters *)
Section Bytes.
Import Mach Libusb Outcome U3bench.

Lemma status_switch_credit is_tx t w w1 :
  status_switch is_tx t w = Some w1 →
  if bool_decide (libusb_transfer.status t = LIBUSB_TRANSFER_COMPLETED)
  then credit (libusb_transfer.actual_length t) (ctrs (state w)) (ctrs (state w1))
       ∧ ((tx_bytes (ctrs (state w1))
           = u64 (tx_bytes (ctrs (state w)) + libusb_transfer.actual_length t)
           ∧ rx_bytes (ctrs (state w1)) = rx_bytes (ctrs (state w)))
          ∨ (rx_bytes (ctrs (state w1))
             = u64 (rx_bytes (ctrs (state w)) + libusb_transfer.actual_length t)
             ∧ tx_bytes (ctrs (state w1)) = tx_bytes (ctrs (state w))))
  else ctrs (state w1) = ctrs (state w).
Proof.
  unfold status_switch.
  destruct (libusb_transfer.status t); intros [= <-]; simpl; try done.
  unfold completed_case.
  destruct (decide (_ ≠ _)), is_tx; simpl; unfold credit; auto.
Qed.

Lemma transfer_cb_credit i t r w :
  let w' := transfer_cb i t r w in
  if bool_decide (libusb_transfer.status t = LIBUSB_TRANSFER_COMPLETED)
  then (tx_bytes (ctrs (state w'))
        = u64 (tx_bytes (ctrs (state w)) + libusb_transfer.actual_length t)
        ∧ rx_bytes (ctrs (state w')) = rx_bytes (ctrs (state w)))
       ∨ (rx_bytes (ctrs (state w'))
          = u64 (rx_bytes (ctrs (state w)) + libusb_transfer.actual_length t)
          ∧ tx_bytes (ctrs (state w')) = tx_bytes (ctrs (state w)))
  else ctrs (state w') = ctrs (state w).
Proof.
  cbv zeta. unfold transfer_cb.
  set (w0 := on_state _ w).
  destruct (status_switch _ t w0) as [w1|] eqn:Hsw.
  - apply status_switch_credit in Hsw.
    destruct (resubmit_statistics i t r w1) as (_ & -> & _).
    destruct (bool_decide _); [by destruct Hsw as [_ Hsw]|done].
  - unfold status_switch in Hsw.
    by destruct (libusb_transfer.status t).
Qed.

Lemma handle_credit e w :
  credit (credited e w) (ctrs (state w)) (ctrs (state (handle e w))).
Proof.
  destruct e as [c|]; simpl; [|by left].
  unfold deliver.
  destruct (xfers w !! slot c) as [[| |t]|]; try by left.
  destruct (deliverable _ _); [|by left]. simpl.
  set (t' := complete _ _ t). set (w0 := record _ _).
  pose proof (transfer_cb_credit (slot c) t' (c_resubmit c) w0) as H.
  simpl in H.
  destruct (bool_decide (c_status c = LIBUSB_TRANSFER_COMPLETED)); [by right|by left].
Qed.

Lemma exec_credit opt_mode size o w w' :
  exec opt_mode size o w = Ret w' →
  credit (match o with OpEvent e => credited e w | _ => 0 end)
    (ctrs (state w)) (ctrs (state w')).
Proof.
  destruct o as [i e|e| |clock|i|i]; simpl.
  - destruct (xfers w !! i) as [[| |t]|]; try done.
    unfold fill_slot. destruct (alloc_ok e); simpl; [|by intros [= <-]; left].
    destruct (malloc_ret e); [|by intros [= <-]; left].
    destruct (libusb_submit_transfer _ _) as [ret t'].
    destruct (decide (ret = LIBUSB_SUCCESS)); intros [= <-]; by left.
  - intros [= <-]. apply handle_credit.
  - intros [= <-]. by left.
  - intros (_ & _ & _ & Hc & _)%measure_frame. by left.
  - intros (Hs & _)%cancel_slot_frame. left. by rewrite Hs.
  - intros (Hs & _)%free_slot_frame. left. by rewrite Hs.
Qed.

Lemma credited_nonneg e w :
  match e with Completion c => 0 ≤ c_actual_length c | Signal => True end →
  0 ≤ credited e w.
Proof.
  destruct e as [c|]; simpl; [|done]. intros Hc.
  destruct (xfers w !! slot c) as [[| |t]|]; try done.
  by destruct (_ && _).
Qed.

Lemma credited_total_nonneg opt_mode size os w :
  lengths_nonneg os → 0 ≤ credited_total opt_mode size os w.
Proof.
  revert w. induction os as [|o os IH]; intros w Hos; simpl; [done|].
  apply Forall_cons in Hos as [Ho Hos].
  assert (0 ≤ match o with OpEvent e => credited e w | _ => 0 end) as H1.
  { destruct o as [| e | | | |]; try done. apply credited_nonneg. by destruct e. }
  assert (0 ≤ match exec opt_mode size o w with
              | Ret w' => credited_total opt_mode size os w'
              | _ => 0
              end) as H2.
  { destruct (exec opt_mode size o w); try done. by apply IH. }
  lia.
Qed.

(** Adding within 64 bits: the counters grow by just the amount credited. *)
Lemma credit_exact a c c' :
  credit a c c' → 0 ≤ a →
  is_u64 (tx_bytes c) → is_u64 (rx_bytes c) →
  tx_bytes c + rx_bytes c + a ≤ UINT64_MAX →
  tx_bytes c' + rx_bytes c' = tx_bytes c + rx_bytes c + a ∧
  tx_bytes c ≤ tx_bytes c' ∧ rx_bytes c ≤ rx_bytes c' ∧
  is_u64 (tx_bytes c') ∧ is_u64 (rx_bytes c').
Proof.
  unfold is_u64. intros [[-> ->]|[[Htx Hrx]|[Hrx Htx]]] Ha Ht Hr Hsum.
  - lia.
  - rewrite Htx, Hrx, u64_small by (unfold is_u64; lia). lia.
  - rewrite Htx, Hrx, u64_small by (unfold is_u64; lia). lia.
Qed.

Lemma run_credit opt_mode size os w w' :
  run opt_mode size os w = Ret w' →
  lengths_nonneg os →
  is_u64 (tx_bytes (ctrs (state w))) → is_u64 (rx_bytes (ctrs (state w))) →
  tx_bytes (ctrs (state w)) + rx_bytes (ctrs (state w))
  + credited_total opt_mode size os w ≤ UINT64_MAX →
  tx_bytes (ctrs (state w')) + rx_bytes (ctrs (state w'))
  = tx_bytes (ctrs (state w)) + rx_bytes (ctrs (state w))
    + credited_total opt_mode size os w ∧
  tx_bytes (ctrs (state w)) ≤ tx_bytes (ctrs (state w')) ∧
  rx_bytes (ctrs (state w)) ≤ rx_bytes (ctrs (state w')) ∧
  is_u64 (tx_bytes (ctrs (state w'))) ∧ is_u64 (rx_bytes (ctrs (state w'))).
Proof.
  revert w. induction os as [|o os IH]; intros w; simpl.
  - intros [= <-] _ Ht Hr _. unfold is_u64 in *. lia.
  - destruct (exec opt_mode size o w) as [w1| |] eqn:Hexec; try done.
    cbn [mbind result_bind]. intros Hrun Hos Ht Hr Hsum.
    apply Forall_cons in Hos as [Ho Hos].
    pose proof (credited_total_nonneg opt_mode size os w1 Hos) as Hrest.
    pose proof (exec_credit _ _ _ _ _ Hexec) as Hcredit.
    set (a := match o with OpEvent e => credited e w | _ => 0 end) in *.
    assert (0 ≤ a) as Ha.
    { subst a. destruct o as [| e | | | |]; try done.
      apply credited_nonneg. by destruct e. }
    destruct (credit_exact _ _ _ Hcredit Ha Ht Hr) as (Heq & Hle1 & Hle2 & Ht1 & Hr1);
      [lia|].
    destruct (IH w1 Hrun Hos Ht1 Hr1) as (Heq' & Hle1' & Hle2' & Ht' & Hr'); [lia|].
    unfold is_u64 in *. lia.
Qed.

Lemma credited_total_app opt_mode size os1 os2 w w1 :
  run opt_mode size os1 w = Ret w1 →
  credited_total opt_mode size (os1 ++ os2) w
  = credited_total opt_mode size os1 w + credited_total opt_mode size os2 w1.
Proof.
  revert w. induction os1 as [|o os1 IH]; intros w; simpl.
  - by intros [= <-].
  - destruct (exec opt_mode size o w) as [w0| |]; try done.
    cbn [mbind result_bind]. intros Hrun. rewrite (IH _ Hrun). lia.
Qed.

(** The counters of a cycle of u3loop are those before plus what the two
    calls report as transferred, whatever their classification. *)
Lemma cycle_bytes tx rx m m' :
  U3loop.transfer_cycle tx rx m = Some m' →
  U3loop.tx_bytes (U3loop.ctrs (U3loop.state m'))
  = u64 (U3loop.tx_bytes (U3loop.ctrs (U3loop.state m)) + u32 (U3loop.out_transferred tx)) ∧
  U3loop.rx_bytes (U3loop.ctrs (U3loop.state m'))
  = u64 (U3loop.rx_bytes (U3loop.ctrs (U3loop.state m))
         + u32 (Z.of_nat (length (take U3loop.BLOCK_SIZE (U3loop.received rx))))).
Proof.
  intros (h1 & h2 & _ & _ & _ & _ & _ & Htx & Hrx & _)%transfer_cycle_inv.
  by split.
Qed.

End Bytes.

(** A cycle of u3loop in which the send times out after 512 bytes and the
    receive times out with none: neither call is classified as successful,
    both are counted as timeouts, and the byte counters have grown by 512. *)
Lemma timed_out_send_is_counted :
  ∃ m',
    U3loop.transfer_cycle Inputs.sent_partly Inputs.echo_missing Inputs.loop_machine
    = Some m' ∧
    U3loop.credited_cycle Inputs.sent_partly Inputs.echo_missing = 0 ∧
    U3loop.tx_timeout (U3loop.host_errors (U3loop.state m')) = 1 ∧
    U3loop.rx_timeout (U3loop.host_errors (U3loop.state m')) = 1 ∧
    U3loop.tx_bytes (U3loop.ctrs (U3loop.state m'))
    + U3loop.rx_bytes (U3loop.ctrs (U3loop.state m')) = 512 ∧
    U3loop.tx_bytes (U3loop.ctrs (U3loop.state m'))
    + U3loop.rx_bytes (U3loop.ctrs (U3loop.state m'))
    ≠ U3loop.tx_bytes (U3loop.ctrs (U3loop.state Inputs.loop_machine))
      + U3loop.rx_bytes (U3loop.ctrs (U3loop.state Inputs.loop_machine))
      + U3loop.credited_cycle Inputs.sent_partly Inputs.echo_missing.
Proof.
  exists (default Inputs.loop_machine
            (U3loop.transfer_cycle Inputs.sent_partly Inputs.echo_missing
               Inputs.loop_machine)).
  split; [apply some_default; vm_compute; reflexivity|].
  split; [vm_compute; reflexivity|].
  split; [vm_compute; reflexivity|].
  split; [vm_compute; reflexivity|].
  split; [vm_compute; reflexivity|].
  vm_compute. discriminate.
Qed.

(** C8, amended.  In the asynchronous pipeline, at every point [w1] of a
    run from the start of the benchmark, and at every later point [w2],
    [tx_bytes + rx_bytes] is the sum of the actual lengths of the
    completions delivered so far with status LIBUSB_TRANSFER_COMPLETED
    (other completions add nothing), and neither counter is smaller at
    [w2] than at [w1]; this as long as the lengths are not negative and
    their sum fits in 64 bits.  In the synchronous loop a cycle adds to
    [tx_bytes] and [rx_bytes] (modulo 2^64) what the send and the receive
    report as transferred, whether the call succeeded or was counted as
    timeout, stall or overflow. *)
Theorem byte_counters_account
    (opt_mode : Defines.u3loop_mode) (opt_transfer_size : Z) (start : Mach.timespec)
    (os1 os2 : list U3bench.op) (w1 w2 : U3bench.world) :
  U3bench.run opt_mode opt_transfer_size os1 (U3bench.world_at_start start)
  = Outcome.Ret w1 →
  U3bench.run opt_mode opt_transfer_size os2 w1 = Outcome.Ret w2 →
  U3bench.lengths_nonneg (os1 ++ os2) →
  U3bench.credited_total opt_mode opt_transfer_size (os1 ++ os2)
    (U3bench.world_at_start start) ≤ Mach.UINT64_MAX →
  (U3bench.tx_bytes (U3bench.ctrs (U3bench.state w1))
   + U3bench.rx_bytes (U3bench.ctrs (U3bench.state w1))
   = U3bench.credited_total opt_mode opt_transfer_size os1 (U3bench.world_at_start start)) ∧
  (U3bench.tx_bytes (U3bench.ctrs (U3bench.state w2))
   + U3bench.rx_bytes (U3bench.ctrs (U3bench.state w2))
   = U3bench.credited_total opt_mode opt_transfer_size (os1 ++ os2)
       (U3bench.world_at_start start)) ∧
  U3bench.tx_bytes (U3bench.ctrs (U3bench.state w1))
  ≤ U3bench.tx_bytes (U3bench.ctrs (U3bench.state w2)) ∧
  U3bench.rx_bytes (U3bench.ctrs (U3bench.state w1))
  ≤ U3bench.rx_bytes (U3bench.ctrs (U3bench.state w2)) ∧
  (∀ tx rx m m',
     U3loop.transfer_cycle tx rx m = Some m' →
     U3loop.tx_bytes (U3loop.ctrs (U3loop.state m'))
     = Mach.u64 (U3loop.tx_bytes (U3loop.ctrs (U3loop.state m))
                 + Mach.u32 (U3loop.out_transferred tx)) ∧
     U3loop.rx_bytes (U3loop.ctrs (U3loop.state m'))
     = Mach.u64 (U3loop.rx_bytes (U3loop.ctrs (U3loop.state m))
                 + Mach.u32 (Z.of_nat (length (take U3loop.BLOCK_SIZE
                                                 (U3loop.received rx)))))).
Proof.
  intros Hrun1 Hrun2 Hnn Hsum.
  rewrite (credited_total_app _ _ _ _ _ _ Hrun1) in *.
  apply Forall_app in Hnn as [Hnn1 Hnn2].
  pose proof (credited_total_nonneg opt_mode opt_transfer_size os1
                (U3bench.world_at_start start) Hnn1) as Hpos1.
  pose proof (credited_total_nonneg opt_mode opt_transfer_size os2 w1 Hnn2) as Hpos2.
  assert (Mach.is_u64 0) as Hzero by (unfold Mach.is_u64, Mach.UINT64_MAX; lia).
  destruct (run_credit _ _ _ _ _ Hrun1 Hnn1 Hzero Hzero)
    as (Heq1 & _ & _ & Ht1 & Hr1); [simpl; lia|].
  simpl in Heq1.
  destruct (run_credit _ _ _ _ _ Hrun2 Hnn2 Ht1 Hr1)
    as (Heq2 & Hle1 & Hle2 & _); [lia|].
  split; [lia|]. split; [lia|]. split; [done|]. split; [done|].
  intros tx rx m m' Hcycle. by apply cycle_bytes.
Qed.

Lemma byte_counters_account_witness :
  let w0 := U3bench.world_at_start Inputs.t0 in
  let run := U3bench.run Defines.U3LOOP_MODE_READ_WRITE 1024 in
  let w1 := Outcome.returned w0 (run Inputs.short_run w0) in
  let w2 := Outcome.returned w0 (run Inputs.more_run w1) in
  U3bench.tx_bytes (U3bench.ctrs (U3bench.state w1))
  + U3bench.rx_bytes (U3bench.ctrs (U3bench.state w1)) = 1024 ∧
  U3bench.tx_bytes (U3bench.ctrs (U3bench.state w2))
  + U3bench.rx_bytes (U3bench.ctrs (U3bench.state w2)) = 2560 ∧
  U3bench.rx_bytes (U3bench.ctrs (U3bench.state w1))
  ≤ U3bench.rx_bytes (U3bench.ctrs (U3bench.state w2)).
Proof.
  intros w0 run w1 w2.
  destruct (byte_counters_account Defines.U3LOOP_MODE_READ_WRITE 1024 Inputs.t0
              Inputs.short_run Inputs.more_run w1 w2)
    as (H1 & H2 & _ & Hrx & _).
  - apply returned_ret. vm_compute. reflexivity.
  - apply returned_ret. vm_compute. reflexivity.
  - unfold U3bench.lengths_nonneg. repeat constructor; by vm_compute.
  - vm_compute. discriminate.
  - split; [exact H1|]. split; [exact H2|]. exact Hrx.
Defined.

(** * The rest of the two programs *)

(** ** The device error flags of the report *)
Section Flags.
Import Mach Defines Protocol U3loopMain.

Lemma land_bit_testbit m k :
  0 ≤ k → Z.land m (Z.shiftl 1 k) ≠ 0 ↔ Z.testbit m k = true.
Proof.
  intros Hk. rewrite Z.shiftl_1_l. split.
  - intros Hne. destruct (Z.testbit m k) eqn:Hb; [done|].
    exfalso. apply Hne. apply Z.bits_inj'. intros n Hn.
    rewrite Z.land_spec, Z.bits_0, Z.pow2_bits_eqb by done.
    destruct (Z.eqb_spec k n) as [->|Hnk]; [by rewrite Hb|apply andb_false_r].
  - intros Hb Hz.
    assert (Z.testbit (Z.land m (2 ^ k)) k = true) as Ht.
    { by rewrite Z.land_spec, Hb, Z.pow2_bits_eqb, Z.eqb_refl. }
    by rewrite Hz, Z.bits_0 in Ht.
Qed.

(** The mask [~((1ul << k) - 1)] selects the bits from [k] on. *)
Lemma land_high_bits m k :
  0 ≤ k ≤ 32 → is_u32 m →
  Z.land m (u64 (Z.lnot (Z.shiftl 1 k - 1))) ≠ 0 ↔ 2 ^ k ≤ m.
Proof.
  intros Hk [Hm0 Hm]. unfold UINT32_MAX in Hm.
  assert (∀ n, 0 ≤ n →
            Z.testbit (u64 (Z.lnot (Z.shiftl 1 k - 1))) n = bool_decide (k ≤ n < 64))
    as Hmask.
  { intros n Hn. unfold u64. rewrite Z.shiftl_1_l.
    change (2 ^ k - 1) with (Z.pred (2 ^ k)). rewrite <- Z.ones_equiv.
    destruct (decide (n < 64)).
    - rewrite Z.mod_pow2_bits_low by lia.
      rewrite Z.lnot_spec by done.
      destruct (decide (n < k)).
      + rewrite Z.ones_spec_low by lia. by rewrite bool_decide_eq_false_2 by lia.
      + rewrite Z.ones_spec_high by lia. by rewrite bool_decide_eq_true_2 by lia.
    - rewrite Z.mod_pow2_bits_high by lia. by rewrite bool_decide_eq_false_2 by lia. }
  split.
  - intros Hne. destruct (decide (2 ^ k ≤ m)) as [|Hlt]; [done|].
    exfalso. apply Hne. apply Z.bits_inj'. intros n Hn.
    rewrite Z.land_spec, Z.bits_0, Hmask by done.
    destruct (decide (k ≤ n < 64)) as [Hin|Hout].
    + destruct (decide (m = 0)) as [->|]; [by rewrite Z.bits_0|].
      rewrite (Z.bits_above_log2 m n); [done|lia|].
      apply Z.log2_lt_pow2; [lia|].
      assert (2 ^ k ≤ 2 ^ n) by (apply Z.pow_le_mono_r; lia). lia.
    + rewrite bool_decide_eq_false_2 by done. apply andb_false_r.
  - intros Hle Hz.
    assert (0 < m) as Hpos by (pose proof (Z.pow_pos_nonneg 2 k); lia).
    pose proof (Z.bit_log2 m Hpos) as Hbit.
    pose proof (Z.log2_nonneg m) as Hl0.
    assert (k ≤ Z.log2 m) as Hlk by (apply Z.log2_le_pow2; lia).
    assert (Z.log2 m < 32) as Hl32 by (apply Z.log2_lt_pow2; lia).
    assert (Z.testbit (Z.land m (u64 (Z.lnot (Z.shiftl 1 k - 1)))) (Z.log2 m) = true)
      as Ht.
    { rewrite Z.land_spec, Hbit, Hmask by done.
      by rewrite bool_decide_eq_true_2 by lia. }
    by rewrite Hz, Z.bits_0 in Ht.
Qed.

Lemma elem_of_print_if x mask flag name :
  x ∈ print_if mask flag name ↔ x = name ∧ Z.land mask flag ≠ 0.
Proof.
  unfold print_if. destruct (decide (Z.land mask flag ≠ 0)) as [Hne|He].
  - rewrite list_elem_of_singleton. split; [by intros ->|by intros [-> _]].
  - rewrite elem_of_nil. split; [done|by intros [_ ?]].
Qed.

Lemma print_if_nil mask flag name :
  print_if mask flag name = [] ↔ Z.land mask flag = 0.
Proof.
  unfold print_if. destruct (decide (Z.land mask flag = 0)) as [He|Hne].
  - rewrite decide_False by (intros H; by apply H). done.
  - rewrite decide_True by done. split; [done|]. by intros ?.
Qed.

(** No bit below [k] and none from [k] on: the value is zero. *)
Lemma no_bits_zero m k :
  0 ≤ k ≤ 32 → is_u32 m →
  (∀ j, 0 ≤ j < k → Z.land m (Z.shiftl 1 j) = 0) →
  Z.land m (u64 (Z.lnot (Z.shiftl 1 k - 1))) = 0 →
  m = 0.
Proof.
  intros Hk Hm Hlow Hhigh.
  assert (¬ 2 ^ k ≤ m) as Hlt.
  { intros Hle. by apply (land_high_bits m k Hk Hm) in Hle. }
  apply Z.bits_inj'. intros n Hn. rewrite Z.bits_0.
  destruct (decide (n < k)).
  - destruct (Z.testbit m n) eqn:Hb; [|done].
    apply land_bit_testbit in Hb; [|done]. exfalso. apply Hb, Hlow. lia.
  - destruct Hm as [Hm0 _].
    destruct (decide (m = 0)) as [->|]; [apply Z.bits_0|].
    apply Z.bits_above_log2; [done|].
    apply Z.log2_lt_pow2; [lia|].
    assert (2 ^ k ≤ 2 ^ n) by (apply Z.pow_le_mono_r; lia). lia.
Qed.

End Flags.

(** Membership in a chain of [print_if]s, once written as a disjunction. *)
Ltac flag_cases :=
  split;
  [ let H := fresh in
    intros H; repeat (destruct H as [H|H]);
    (let Heq := fresh in let Hne := fresh in
     destruct H as [Heq Hne]; first [discriminate Heq | exact Hne])
  | let H := fresh in
    intros H;
    repeat (first [left; split; [reflexivity|exact H] | right]);
    try (split; [reflexivity|exact H]) ].

(** X1.  [print_dev_phy_errors] and [print_dev_ll_errors] of u3loop.c list
    a named flag exactly when the bit of that flag is set in the mask, and
    the line of the UNDEFINED flag exactly when a bit above the named ones
    is set (from bit 9 for the physical layer, from bit 12 for the link
    layer); so nothing is listed exactly when the mask is zero. *)
Theorem device_error_flags_listed (ec : Defines.u3loop_errors) :
  Mach.is_u32 (Defines.phy_errors ec) → Mach.is_u32 (Defines.ll_errors ec) →
  (∀ k name, (k, name) ∈ Protocol.phy_flag_bits →
     name ∈ U3loopMain.print_dev_phy_errors ec
     ↔ Z.testbit (Defines.phy_errors ec) k = true) ∧
  ("U3LOOP_ERR_PHY_UNDEFINED"%string ∈ U3loopMain.print_dev_phy_errors ec
   ↔ 2 ^ 9 ≤ Defines.phy_errors ec) ∧
  (U3loopMain.print_dev_phy_errors ec = [] ↔ Defines.phy_errors ec = 0) ∧
  (∀ k name, (k, name) ∈ Protocol.ll_flag_bits →
     name ∈ U3loopMain.print_dev_ll_errors ec
     ↔ Z.testbit (Defines.ll_errors ec) k = true) ∧
  ("U3LOOP_ERR_LL_UNDEFINED"%string ∈ U3loopMain.print_dev_ll_errors ec
   ↔ 2 ^ 12 ≤ Defines.ll_errors ec) ∧
  (U3loopMain.print_dev_ll_errors ec = [] ↔ Defines.ll_errors ec = 0).
Proof.
  intros Hphy Hll.
  pose proof (land_high_bits (Defines.phy_errors ec) 9 ltac:(lia) Hphy) as Hp9.
  pose proof (land_high_bits (Defines.ll_errors ec) 12 ltac:(lia) Hll) as Hl12.
  split; [|split; [|split; [|split; [|split]]]].
  - intros k name Hin. unfold Protocol.phy_flag_bits in Hin.
    unfold U3loopMain.print_dev_phy_errors.
    rewrite !elem_of_app, !elem_of_print_if.
    repeat (apply elem_of_cons in Hin as [[= -> ->]|Hin]);
      try (by apply elem_of_nil in Hin);
      rewrite <- land_bit_testbit by lia; flag_cases.
  - unfold U3loopMain.print_dev_phy_errors.
    rewrite !elem_of_app, !elem_of_print_if, <- Hp9.
    flag_cases.
  - unfold U3loopMain.print_dev_phy_errors.
    split.
    + intros Hnil. repeat (apply app_eq_nil in Hnil as [?%print_if_nil Hnil]).
      apply print_if_nil in Hnil.
      apply (no_bits_zero _ 9); [lia|done| |done].
      intros j Hj.
      assert (j = 0 ∨ j = 1 ∨ j = 2 ∨ j = 3 ∨ j = 4 ∨ j = 5 ∨ j = 6 ∨ j = 7 ∨ j = 8)
        as Hcases by lia.
      by repeat destruct Hcases as [->|Hcases]; subst.
    + intros ->. reflexivity.
  - intros k name Hin. unfold Protocol.ll_flag_bits in Hin.
    unfold U3loopMain.print_dev_ll_errors.
    rewrite !elem_of_app, !elem_of_print_if.
    repeat (apply elem_of_cons in Hin as [[= -> ->]|Hin]);
      try (by apply elem_of_nil in Hin);
      rewrite <- land_bit_testbit by lia; flag_cases.
  - unfold U3loopMain.print_dev_ll_errors.
    rewrite !elem_of_app, !elem_of_print_if, <- Hl12.
    flag_cases.
  - unfold U3loopMain.print_dev_ll_errors.
    split.
    + intros Hnil. repeat (apply app_eq_nil in Hnil as [?%print_if_nil Hnil]).
      apply print_if_nil in Hnil.
      apply (no_bits_zero _ 12); [lia|done| |done].
      intros j Hj.
      assert (j = 0 ∨ j = 1 ∨ j = 2 ∨ j = 3 ∨ j = 4 ∨ j = 5 ∨ j = 6 ∨ j = 7 ∨ j = 8
              ∨ j = 9 ∨ j = 10 ∨ j = 11) as Hcases by lia.
      by repeat destruct Hcases as [->|Hcases]; subst.
    + intros ->. reflexivity.
Qed.

Lemma device_error_flags_listed_witness :
  "U3LOOP_ERR_PHY_DECODE"%string ∈ U3loopMain.print_dev_phy_errors Scenarios.some_errors ∧
  "U3LOOP_ERR_PHY_UNDEFINED"%string ∈ U3loopMain.print_dev_phy_errors Scenarios.some_errors ∧
  "U3LOOP_ERR_LL_HDR_ADV_LGO_EN"%string ∈ U3loopMain.print_dev_ll_errors Scenarios.some_errors ∧
  "U3LOOP_ERR_LL_UNDEFINED"%string ∉ U3loopMain.print_dev_ll_errors Scenarios.some_errors.
Proof.
  destruct (device_error_flags_listed Scenarios.some_errors)
    as (Hphy & Hphy_undefined & _ & Hll & Hll_undefined & _).
  - unfold Mach.is_u32, Mach.UINT32_MAX. simpl. lia.
  - unfold Mach.is_u32, Mach.UINT32_MAX. simpl. lia.
  - split; [apply (Hphy 0 _); [apply list_elem_of_here|reflexivity]|].
    split; [apply Hphy_undefined; simpl; lia|].
    split; [apply (Hll 11 _); [|reflexivity]|].
    + unfold Protocol.ll_flag_bits. do 11 apply list_elem_of_further.
      apply list_elem_of_here.
    + intros Hin. apply Hll_undefined in Hin. simpl in Hin. lia.
Defined.

(** ** The calls of [open_device] on the handles it opens *)
Section HandleRules.
Import Libusb.
Variables vid pid : Z.
Variable serial_number : option string.

Lemma after_calls_app h l k :
  Handles.after_calls h (l ++ k)
  = Handles.after_calls h l ≫= λ h', Handles.after_calls h' k.
Proof.
  revert h. induction l as [|c l IH]; intros h; simpl; [done|].
  destruct (Handles.after_call h c) as [h'|]; simpl; [apply IH|done].
Qed.

(** One candidate: the verdict is that of [OpenDevice.examine], and the
    handle is left open exactly for the verdict [Found]. *)
Lemma examine_calls d i buf :
  let '(v, buf', calls) := Handles.examine vid pid serial_number d i buf in
  (v, buf') = OpenDevice.examine vid pid serial_number d buf ∧
  Handles.after_calls Handles.NoHandle calls
  = Some (if decide (v = OpenDevice.Found) then Handles.Opened else Handles.NoHandle).
Proof.
  unfold Handles.examine, OpenDevice.examine.
  destruct (decide (descriptor_ret d ≠ LIBUSB_SUCCESS)); [done|].
  destruct (decide (idVendor d ≠ vid ∨ idProduct d ≠ pid)); [done|].
  destruct (decide (open_ret d ≠ LIBUSB_SUCCESS)); [done|].
  destruct (libusb_get_string_descriptor_ascii d buf) as [err str].
  destruct (decide (err = LIBUSB_SUCCESS)); [done|].
  destruct serial_number as [sn|]; [|done].
  by destruct (decide (str = sn)).
Qed.

Lemma scan_calls devs i buf :
  let '(found, calls) := Handles.scan vid pid serial_number devs i buf in
  found = OpenDevice.scan vid pid serial_number devs i buf ∧
  Handles.after_calls Handles.NoHandle calls
  = Some (match found with Some _ => Handles.Opened | None => Handles.NoHandle end).
Proof.
  revert i buf. induction devs as [|d devs IH]; intros i buf; simpl; [done|].
  pose proof (examine_calls d i buf) as Hex.
  destruct (Handles.examine vid pid serial_number d i buf) as [[v buf'] calls].
  destruct Hex as [<- Hcalls].
  specialize (IH (S i) buf').
  destruct (Handles.scan vid pid serial_number devs (S i) buf') as [r calls'].
  destruct IH as [<- Hrest].
  destruct v; simpl in *; try done;
    rewrite after_calls_app, Hcalls; simpl; by rewrite ?Hrest.
Qed.

Lemma scan_lookup devs i buf j :
  OpenDevice.scan vid pid serial_number devs i buf = Some j →
  (i ≤ j)%nat ∧ is_Some (devs !! (j - i)%nat).
Proof.
  revert i buf. induction devs as [|d devs IH]; intros i buf; simpl; [done|].
  destruct (OpenDevice.examine vid pid serial_number d buf) as [v buf'].
  destruct v;
    try (intros [Hle Hsome]%IH; split; [lia|];
         by replace (j - i)%nat with (S (j - S i)) by lia).
  intros [= ->]. split; [lia|]. rewrite Nat.sub_diag. by eexists.
Qed.

(** Devices behind the one the loop stops at are not looked at. *)
Lemma scan_app devs more i buf j :
  OpenDevice.scan vid pid serial_number devs i buf = Some j →
  OpenDevice.scan vid pid serial_number (devs ++ more) i buf = Some j.
Proof.
  revert i buf. induction devs as [|d devs IH]; intros i buf; simpl; [done|].
  destruct (OpenDevice.examine vid pid serial_number d buf) as [v buf'].
  destruct v; try apply IH. done.
Qed.

Lemma open_device_calls devs stack :
  let '(dev, calls) := Handles.open_device vid pid serial_number devs stack in
  dev = OpenDevice.open_device vid pid serial_number devs stack ∧
  Handles.after_calls Handles.NoHandle calls
  = Some (match dev with Some _ => Handles.Claimed | None => Handles.NoHandle end).
Proof.
  unfold Handles.open_device, OpenDevice.open_device.
  destruct devs as [devs|]; [|done].
  pose proof (scan_calls devs 0 stack) as Hscan.
  destruct (Handles.scan vid pid serial_number devs 0 stack) as [found calls].
  destruct Hscan as [Hfound Hcalls].
  destruct found as [i|]; rewrite <- Hfound.
  - symmetry in Hfound. apply scan_lookup in Hfound as [_ [d Hd]].
    rewrite Nat.sub_0_r in Hd. rewrite Hd.
    destruct (decide (claim_ret d ≠ LIBUSB_SUCCESS)) as [Hne|He].
    + split; [done|].
      rewrite !after_calls_app, Hcalls. simpl. by rewrite decide_False.
    + apply dec_stable in He. split; [done|].
      rewrite !after_calls_app, Hcalls. simpl. by rewrite decide_True.
  - split; [done|]. by rewrite after_calls_app, Hcalls.
Qed.

Lemma wait_loop_calls bus budget i :
  let '(dev, calls) := Handles.wait_loop vid pid serial_number bus budget i in
  dev = (OpenDevice.wait_loop vid pid serial_number bus budget i).1 ∧
  Handles.after_calls Handles.NoHandle calls
  = Some (match dev with Some _ => Handles.Claimed | None => Handles.NoHandle end).
Proof.
  revert i. induction budget as [|budget IH]; intros i; simpl; [done|].
  pose proof (open_device_calls (bus i).1 (bus i).2) as Hopen.
  destruct (Handles.open_device vid pid serial_number (bus i).1 (bus i).2)
    as [dev calls].
  destruct Hopen as [<- Hcalls].
  destruct dev as [dev|]; [done|].
  specialize (IH (S i)).
  destruct (Handles.wait_loop vid pid serial_number bus budget (S i)) as [r calls'].
  destruct IH as [-> Hrest]. split; [done|].
  cbn [Handles.after_calls Handles.after_call mbind option_bind].
  by rewrite after_calls_app, Hcalls.
Qed.

End HandleRules.

(** X2.  [open_device] with its calls on record returns what [open_device]
    returns, and the calls keep the rules of libusb: it never has two
    handles open, every candidate it turns down after opening it is closed
    before the next is looked at, the handle whose interface cannot be
    claimed is closed, and at the end it holds the handle it returns, with
    the interface claimed, and no other. *)
Theorem open_device_handle_rules
    (vid pid : Z) (serial_number : option string)
    (devs : option (list Libusb.usb_device)) (stack : string) :
  (Handles.open_device vid pid serial_number devs stack).1
  = OpenDevice.open_device vid pid serial_number devs stack ∧
  Handles.after_calls Handles.NoHandle
    (Handles.open_device vid pid serial_number devs stack).2
  = Some (match OpenDevice.open_device vid pid serial_number devs stack with
          | Some _ => Handles.Claimed
          | None => Handles.NoHandle
          end).
Proof.
  pose proof (open_device_calls vid pid serial_number devs stack) as H.
  destruct (Handles.open_device vid pid serial_number devs stack) as [dev calls].
  destruct H as [<- Hcalls]. by split.
Qed.

(** X3.  [open_device] does not look behind the first device that matches:
    once the loop has stopped at a device, the result is the same whatever
    follows it on the bus.  If the interface of that device cannot be
    claimed the result is NULL, and a second plug further down the list is
    not tried. *)
Theorem open_device_stops_at_first_match
    (vid pid : Z) (serial_number : option string)
    (devs more : list Libusb.usb_device) (stack : string) (i : nat) :
  OpenDevice.scan vid pid serial_number devs 0 stack = Some i →
  (i < length devs)%nat ∧
  OpenDevice.open_device vid pid serial_number (Some (devs ++ more)) stack
  = OpenDevice.open_device vid pid serial_number (Some devs) stack ∧
  (∀ d, devs !! i = Some d → Libusb.claim_ret d ≠ Libusb.LIBUSB_SUCCESS →
        OpenDevice.open_device vid pid serial_number (Some (devs ++ more)) stack = None).
Proof.
  intros Hscan.
  pose proof (scan_lookup vid pid serial_number devs 0 stack i Hscan) as [_ Hi].
  rewrite Nat.sub_0_r in Hi.
  pose proof (lookup_lt_is_Some_1 _ _ Hi) as Hlt.
  assert (OpenDevice.open_device vid pid serial_number (Some (devs ++ more)) stack
          = OpenDevice.open_device vid pid serial_number (Some devs) stack) as Heq.
  { unfold OpenDevice.open_device.
    rewrite (scan_app vid pid serial_number devs more 0 stack i Hscan), Hscan.
    by rewrite lookup_app_l. }
  split; [done|]. split; [done|].
  intros d Hd Hclaim. rewrite Heq. unfold OpenDevice.open_device.
  rewrite Hscan, Hd. by rewrite decide_True.
Qed.

Lemma open_device_stops_at_first_match_witness :
  OpenDevice.open_device 0x0403 0xff0b None
    (Some ([Scenarios.hub; Inputs.plug] ++ [Scenarios.plug_busy])) ""
  = OpenDevice.open_device 0x0403 0xff0b None (Some [Scenarios.hub; Inputs.plug]) "".
Proof.
  destruct (open_device_stops_at_first_match 0x0403 0xff0b None
              [Scenarios.hub; Inputs.plug] [Scenarios.plug_busy] "" 1)
    as (_ & Hsame & _); [vm_compute; reflexivity|exact Hsame].
Defined.

(** ** Device lookup: what the loops pass over and where they stop *)
Section LookupMore.
Import Libusb OpenDevice.
Variables vid pid : Z.
Variable serial_number : option string.

Lemma wait_loop_first_success (bus : nat → option (list usb_device) * string)
    budget i k dev :
  (k < budget)%nat →
  open_device vid pid serial_number (bus (i + k)%nat).1 (bus (i + k)%nat).2 = Some dev →
  (∀ j, (j < k)%nat →
        open_device vid pid serial_number (bus (i + j)%nat).1 (bus (i + j)%nat).2 = None) →
  wait_loop vid pid serial_number bus budget i = (Some dev, S (i + k)).
Proof.
  revert i k. induction budget as [|budget IH]; intros i k Hk Hfound Hnone; [lia|].
  simpl. destruct k as [|k].
  - rewrite Nat.add_0_r in Hfound. rewrite Hfound. by rewrite Nat.add_0_r.
  - pose proof (Hnone 0%nat ltac:(lia)) as H0. rewrite Nat.add_0_r in H0. rewrite H0.
    replace (S (i + S k)) with (S (S i + k)) by lia.
    apply IH; [lia| |].
    + by replace (S i + k)%nat with (i + S k)%nat by lia.
    + intros j Hj. replace (S i + j)%nat with (i + S j)%nat by lia. apply Hnone. lia.
Qed.

(** A candidate that is not taken leaves the loop to go on with the next. *)
Lemma scan_passes_over pre devs i buf :
  Forall (λ d, ∀ buf, (examine vid pid serial_number d buf).1 ≠ Found) pre →
  ∃ buf', scan vid pid serial_number (pre ++ devs) i buf
          = scan vid pid serial_number devs (i + length pre) buf'.
Proof.
  revert i buf. induction pre as [|d pre IH]; intros i buf Hpre; simpl.
  - exists buf. by rewrite Nat.add_0_r.
  - apply Forall_cons in Hpre as [Hd Hpre].
    specialize (Hd buf).
    destruct (examine vid pid serial_number d buf) as [v buf1]. simpl in Hd.
    destruct (IH (S i) buf1 Hpre) as [buf' Hscan].
    exists buf'. rewrite <- Nat.add_succ_comm.
    by destruct v.
Qed.

End LookupMore.

(** X4.  The wait for re-enumeration ends with the first poll that finds
    the device: when the polls before poll [k] (counted from 0, [k < 10])
    find nothing and poll [k] returns a handle, both tools go on with that
    handle after exactly [k + 1] polls. *)
Theorem reenumeration_ends_at_first_success
    (vid pid : Z) (serial_number : option string)
    (bus : nat → option (list Libusb.usb_device) * string) (k dev : nat) :
  (k < 10)%nat →
  OpenDevice.open_device vid pid serial_number (bus k).1 (bus k).2 = Some dev →
  (∀ j, (j < k)%nat →
        OpenDevice.open_device vid pid serial_number (bus j).1 (bus j).2 = None) →
  U3bench.await_reenumeration vid pid serial_number bus
  = (OpenDevice.Reenumerated dev, S k) ∧
  (vid = U3loop.VID → pid = U3loop.PID →
   U3loop.await_reenumeration serial_number bus = (OpenDevice.Reenumerated dev, S k)).
Proof.
  intros Hk Hfound Hnone.
  assert (U3bench.await_reenumeration vid pid serial_number bus
          = (OpenDevice.Reenumerated dev, S k)) as Hbench.
  { unfold U3bench.await_reenumeration, OpenDevice.await_reenumeration.
    by rewrite (wait_loop_first_success vid pid serial_number bus
                  Defines.MAX_DEVICE_WAIT 0 k dev). }
  split; [done|]. by intros -> ->.
Qed.

Lemma reenumeration_ends_at_first_success_witness :
  U3bench.await_reenumeration 0x0403 0xff0b None Scenarios.bus_absent_3
  = (OpenDevice.Reenumerated 1, 4%nat) ∧
  U3loop.await_reenumeration None Scenarios.bus_absent_3
  = (OpenDevice.Reenumerated 1, 4%nat).
Proof.
  destruct (reenumeration_ends_at_first_success 0x0403 0xff0b None
              Scenarios.bus_absent_3 3 1) as [Hbench Hloop].
  - lia.
  - vm_compute. reflexivity.
  - intros j Hj. unfold Scenarios.bus_absent_3.
    destruct (decide (j < 3)%nat); [vm_compute; reflexivity|lia].
  - split; [exact Hbench|]. by apply Hloop.
Defined.

(** X5.  The lookup loop of [open_device] goes on past every device it
    does not take: when each device before [d] on the bus is one the loop
    turns down and [d] is one it accepts, [open_device] stops at [d]
    whatever follows, and returns it if its interface can be claimed and
    NULL if not. *)
Theorem open_device_passes_over_rejected
    (vid pid : Z) (serial_number : option string)
    (pre post : list Libusb.usb_device) (d : Libusb.usb_device) (stack : string) :
  Forall (λ d', ∀ buf, (OpenDevice.examine vid pid serial_number d' buf).1
                       ≠ OpenDevice.Found) pre →
  (∀ buf, (OpenDevice.examine vid pid serial_number d buf).1 = OpenDevice.Found) →
  OpenDevice.scan vid pid serial_number (pre ++ d :: post) 0 stack = Some (length pre) ∧
  OpenDevice.open_device vid pid serial_number (Some (pre ++ d :: post)) stack
  = if decide (Libusb.claim_ret d = Libusb.LIBUSB_SUCCESS)
    then Some (length pre) else None.
Proof.
  intros Hpre Hd.
  destruct (scan_passes_over vid pid serial_number pre (d :: post) 0 stack Hpre)
    as [buf' Hscan].
  assert (OpenDevice.scan vid pid serial_number (pre ++ d :: post) 0 stack
          = Some (length pre)) as Hfound.
  { rewrite Hscan. simpl. specialize (Hd buf').
    destruct (OpenDevice.examine vid pid serial_number d buf') as [v b].
    simpl in Hd. by rewrite Hd. }
  split; [done|].
  unfold OpenDevice.open_device. rewrite Hfound.
  rewrite list_lookup_middle by done.
  destruct (decide (Libusb.claim_ret d = Libusb.LIBUSB_SUCCESS)) as [He|Hne].
  - rewrite decide_False; [done|]. by intros ?.
  - by rewrite decide_True.
Qed.

Lemma open_device_passes_over_rejected_witness :
  OpenDevice.open_device 0x0403 0xff0b None
    (Some ([Scenarios.hub] ++ Inputs.plug :: [Scenarios.plug_busy])) ""
  = Some 1%nat.
Proof.
  destruct (open_device_passes_over_rejected 0x0403 0xff0b None
              [Scenarios.hub] [Scenarios.plug_busy] Inputs.plug "") as [_ Hopen].
  - apply Forall_cons. split; [|apply Forall_nil_2].
    intros buf. vm_compute. discriminate.
  - intros buf. vm_compute. reflexivity.
  - exact Hopen.
Defined.

(** ** The pool when an allocation fails *)
Section AllocationFailure.
Import Mach Libusb Outcome U3bench.

(** An iteration of the allocation loop goes on only with both allocations
    made; otherwise it leaves NULL in the element and goes to [fail3]. *)
Lemma fill_slot_fails mode size i e w :
  alloc_ok e = false ∨ malloc_ret e = None →
  fill_slot mode size i e w = Goto_fail3 (store i NULL w).
Proof.
  unfold fill_slot. intros [->| ->]; [done|].
  by destruct (alloc_ok e).
Qed.

Lemma fill_slot_continues mode size i e w w' :
  fill_slot mode size i e w = Continue w' →
  alloc_ok e = true ∧ is_Some (malloc_ret e) ∧
  length (xfers w') = length (xfers w).
Proof.
  unfold fill_slot. destruct (alloc_ok e); [|done]. simpl.
  destruct (malloc_ret e) as [buf|]; [|done].
  destruct (libusb_submit_transfer _ _) as [r t].
  intros [= <-]. split; [done|]. split; [by eexists|].
  destruct (decide (r = LIBUSB_SUCCESS)); simpl; by rewrite length_insert.
Qed.

Lemma fill_loop_fails mode size env n k w i :
  (k ≤ i < k + n)%nat → (k + n ≤ length (xfers w))%nat →
  alloc_ok (env i) = false ∨ malloc_ret (env i) = None →
  ∃ w' j, fill_loop mode size env n k w = Goto_fail3 w' ∧
          (j < k + n)%nat ∧ xfers w' !! j = Some NULL.
Proof.
  revert k w. induction n as [|n IH]; intros k w Hi Hlen Hfail; [lia|].
  simpl.
  destruct (fill_slot mode size k (env k) w) as [w1|w1] eqn:Hslot.
  - apply fill_slot_continues in Hslot as (Hok & Hbuf & Hlen1).
    assert (i ≠ k) as Hne.
    { intros Heq. rewrite Heq in Hfail. destruct Hfail as [Hf|Hf]; [congruence|].
      rewrite Hf in Hbuf. by destruct Hbuf. }
    destruct (IH (S k) w1) as (w' & j & Hloop & Hj & Hnull); [lia|lia|done|].
    exists w', j. split; [done|]. split; [lia|done].
  - exists w1, k. split; [done|]. split; [lia|].
    unfold fill_slot in Hslot.
    destruct (alloc_ok (env k)); simpl in Hslot.
    + destruct (malloc_ret (env k)); [|injection Hslot as <-].
      * by destruct (libusb_submit_transfer _ _).
      * simpl. apply list_lookup_insert_eq. lia.
    + injection Hslot as <-. simpl. apply list_lookup_insert_eq. lia.
Qed.

(** Neither a cancellation nor an event puts a transfer where there is
    none. *)
Lemma cancel_loop_keeps_null n k w w' j :
  cancel_loop n k w = Ret w' → xfers w !! j = Some NULL → xfers w' !! j = Some NULL.
Proof.
  revert k w. induction n as [|n IH]; intros k w; simpl; [by intros [= <-]|].
  unfold cancel_slot at 1.
  destruct (xfers w !! k) as [[| |t]|] eqn:Hk; try done; cbn [mbind result_bind].
  - apply IH.
  - intros Hrest Hj. apply (IH _ _ Hrest). simpl.
    rewrite list_lookup_insert_ne; [done|]. intros Heq. rewrite Heq in Hk. congruence.
Qed.

Lemma handle_keeps_null e w j :
  xfers w !! j = Some NULL → xfers (handle e w) !! j = Some NULL.
Proof.
  intros Hj. destruct e as [c|]; simpl; [|done].
  destruct (deliver_cases c w) as [->|(t & Hi & Hd & ->)]; [done|].
  assert (slot c ≠ j) as Hne by (intros Heq; rewrite Heq in Hi; congruence).
  set (t' := complete _ _ t).
  set (w0 := record _ _).
  assert (xfers w0 !! j = Some NULL) as Hj0.
  { subst w0. simpl. by rewrite list_lookup_insert_ne. }
  destruct (transfer_cb_effect (slot c) t' (c_resubmit c) w0)
    as [(Hx & _)|(Hx & _)]; rewrite Hx; [done|].
  by rewrite list_lookup_insert_ne.
Qed.

Lemma handle_events_keep_null es w j :
  xfers w !! j = Some NULL → xfers (libusb_handle_events es w) !! j = Some NULL.
Proof.
  revert w. induction es as [|e es IH]; intros w Hj; simpl; [done|].
  by apply IH, handle_keeps_null.
Qed.

Lemma wait_loop_keeps_null batches w w' j :
  wait_loop batches w = Ret w' → xfers w !! j = Some NULL → xfers w' !! j = Some NULL.
Proof.
  revert w. induction batches as [|es batches IH]; intros w; simpl.
  - case_decide; [done|]. by intros [= <-].
  - case_decide; [|by intros [= <-]].
    intros Hrest Hj. apply (IH _ Hrest). by apply handle_events_keep_null.
Qed.

(** The free loop dereferences every element. *)
Lemma free_loop_null n k w j :
  (k ≤ j < k + n)%nat → xfers w !! j = Some NULL →
  is_ret (free_loop n k w) = false.
Proof.
  revert k w. induction n as [|n IH]; intros k w Hj Hnull; [lia|]. simpl.
  destruct (free_slot k w) as [w1| |] eqn:Hslot; try done.
  cbn [mbind result_bind].
  apply free_slot_frame in Hslot as (_ & _ & Hx & t & Hk & _).
  assert (j ≠ k) as Hne by (intros Heq; rewrite Heq in Hnull; congruence).
  apply IH; [lia|]. by rewrite Hx.
Qed.

Lemma drain_null batches w j :
  (j < BUFFER_CNT)%nat → xfers w !! j = Some NULL →
  is_ret (drain batches w) = false.
Proof.
  intros Hj Hnull. unfold drain.
  destruct (cancel_loop BUFFER_CNT 0 w) as [w1| |] eqn:Hc; try done.
  cbn [mbind result_bind].
  destruct (wait_loop batches w1) as [w2| |] eqn:Hw; try done.
  cbn [mbind result_bind].
  apply (free_loop_null _ _ _ j); [lia|].
  eapply wait_loop_keeps_null; [done|].
  by eapply cancel_loop_keeps_null.
Qed.

End AllocationFailure.

(** X6.  When one of the 64 allocations of the pool fails (the transfer
    object or its buffer), u3bench does not get to a clean exit: the loop
    leaves NULL in the element and goes to [fail3], where the code that
    frees the pool dereferences every element of the array.  Whatever
    libusb reports in between, the run ends there or before and never
    returns. *)
Theorem allocation_failure_never_returns
    (opt_mode : Defines.u3loop_mode) (opt_transfer_size opt_time_limit opt_report_ival : Z)
    (env : nat → U3bench.fill_env) (ticks : list U3bench.tick)
    (batches : list (list U3bench.event)) (start : Mach.timespec) (i : nat) :
  (i < 64)%nat →
  U3bench.alloc_ok (env i) = false ∨ U3bench.malloc_ret (env i) = None →
  (∃ w, U3bench.fill_pool opt_mode opt_transfer_size env (U3bench.world_at_start start)
        = U3bench.Goto_fail3 w) ∧
  Outcome.is_ret
    (U3bench.pipeline opt_mode opt_transfer_size opt_time_limit opt_report_ival
       env ticks batches (U3bench.world_at_start start)) = false.
Proof.
  intros Hi Hfail.
  destruct (fill_loop_fails opt_mode opt_transfer_size env U3bench.BUFFER_CNT 0
              (U3bench.world_at_start start) i) as (w & j & Hfill & Hj & Hnull);
    [unfold U3bench.BUFFER_CNT; lia|done|done|].
  split; [by exists w|].
  unfold U3bench.pipeline, U3bench.fill_pool. rewrite Hfill.
  pose proof (drain_null batches w j Hj Hnull) as Hd.
  by destruct (U3bench.drain batches w).
Qed.

Lemma allocation_failure_never_returns_witness :
  Outcome.is_ret
    (U3bench.pipeline Defines.U3LOOP_MODE_READ_WRITE 1024 1 1
       Scenarios.fill_fails_at_5 Scenarios.two_turns [U3benchMain.all_cancelled]
       (U3bench.world_at_start Inputs.t0)) = false.
Proof.
  destruct (allocation_failure_never_returns Defines.U3LOOP_MODE_READ_WRITE 1024 1 1
              Scenarios.fill_fails_at_5 Scenarios.two_turns [U3benchMain.all_cancelled]
              Inputs.t0 5) as [_ Hnever].
  - lia.
  - right. reflexivity.
  - exact Hnever.
Defined.

(** ** The code at [fail3] comes to an end *)
Section DrainReturns.
Import Mach Libusb Outcome U3bench U3benchMain.

















End DrainReturns.





(** ** Measurements: what a line is computed from *)
Section Lines.
Import Mach.

Lemma bench_print_measurement_line now s :
  ∃ s' l rates avgs,
    U3bench.print_measurement (Some now) s = Some (s', Some l) ∧
    U3bench.interval_rates
      (u64 (U3bench.tx_bytes (U3bench.ctrs s) - U3bench.tx_bytes (U3bench.measurement s)))
      (u64 (U3bench.rx_bytes (U3bench.ctrs s) - U3bench.rx_bytes (U3bench.measurement s)))
      (U3bench.ival_usec now s) = Some rates ∧
    U3bench.average_rates (U3bench.ctrs s) (U3bench.total_time_usec now s)
    = Some avgs ∧
    (U3bench.line_mbps l, U3bench.line_tx_mbps l, U3bench.line_rx_mbps l) = rates ∧
    (U3bench.line_avg_mbps l, U3bench.line_tx_avg_mbps l, U3bench.line_rx_avg_mbps l)
    = avgs ∧
    U3bench.line_ops l = U3bench.ops s ∧
    U3bench.line_time l = U3bench.total_time_usec now s `div` 1000000 ∧
    U3bench.line_host_errors l = U3bench.host_errors_sum (U3bench.host_errors s) ∧
    U3bench.measurement_time s' = now ∧
    U3bench.measurement s' = U3bench.ctrs s ∧
    U3bench.ctrs s' = U3bench.ctrs s ∧
    U3bench.ops s' = U3bench.ops s ∧
    U3bench.start_time s' = U3bench.start_time s.
Proof.
  destruct (bench_interval_rates_total
      (u64 (U3bench.tx_bytes (U3bench.ctrs s) - U3bench.tx_bytes (U3bench.measurement s)))
      (u64 (U3bench.rx_bytes (U3bench.ctrs s) - U3bench.rx_bytes (U3bench.measurement s)))
      (U3bench.ival_usec now s)) as [[[m t] r] Hr].
  destruct (bench_average_rates_total (U3bench.ctrs s) (U3bench.total_time_usec now s))
    as [[[a ta] ra] Havg].
  eexists _, _, (m, t, r), (a, ta, ra).
  split; [|split; [exact Hr|split; [exact Havg|]]].
  - unfold U3bench.print_measurement. rewrite Hr, Havg. reflexivity.
  - repeat split.
Qed.

Lemma loop_print_measurement_line now s :
  ∃ s' l r a,
    U3loop.print_measurement (Some now) s = Some (s', Some l) ∧
    U3loop.rate
      (u64 (U3loop.rx_bytes (U3loop.ctrs s) - U3loop.rx_bytes (U3loop.measurement s)))
      (U3loop.ival_usec now s) = Some r ∧
    U3loop.rate (U3loop.rx_bytes (U3loop.ctrs s)) (U3loop.total_time_usec now s)
    = Some a ∧
    U3loop.line_rx_mbps l = r ∧
    U3loop.line_avg_rx_mbps l = a ∧
    U3loop.line_ops l = U3loop.ops s ∧
    U3loop.line_dev_errors l = U3loop.dev_errors s ∧
    U3loop.measurement_time s' = now ∧
    U3loop.measurement s' = U3loop.ctrs s ∧
    U3loop.ctrs s' = U3loop.ctrs s ∧
    U3loop.ops s' = U3loop.ops s ∧
    U3loop.start_time s' = U3loop.start_time s.
Proof.
  destruct (loop_rate_total
      (u64 (U3loop.rx_bytes (U3loop.ctrs s) - U3loop.rx_bytes (U3loop.measurement s)))
      (U3loop.ival_usec now s)) as [r Hr].
  destruct (loop_rate_total (U3loop.rx_bytes (U3loop.ctrs s)) (U3loop.total_time_usec now s))
    as [a Ha].
  eexists _, _, r, a.
  split; [|split; [exact Hr|split; [exact Ha|]]].
  - unfold U3loop.print_measurement. rewrite Hr, Ha. reflexivity.
  - repeat split.
Qed.

Lemma bench_set_ctrs_frame c s :
  U3bench.ctrs (U3bench.set_ctrs c s) = c ∧
  U3bench.measurement (U3bench.set_ctrs c s) = U3bench.measurement s ∧
  ∀ now, U3bench.ival_usec now (U3bench.set_ctrs c s)
         = usec_between now (U3bench.measurement_time s).
Proof. done. Qed.

Lemma loop_set_ctrs_frame c s :
  U3loop.ctrs (U3loop.set_ctrs c s) = c ∧
  U3loop.measurement (U3loop.set_ctrs c s) = U3loop.measurement s ∧
  ∀ now, U3loop.ival_usec now (U3loop.set_ctrs c s)
         = usec_between now (U3loop.measurement_time s).
Proof. done. Qed.

End Lines.

(** X9.  Each [print_measurement] takes the time and the byte counters as
    the base of the next interval: the line printed by the next call, made
    when the counters have become [c2], reports the bytes counted since the
    previous call ([c2] less the counters then, modulo 2^64) times 8 divided
    by the microseconds between the two readings of the clock, and
    [INFINITY] when these are zero.  So it is in both tools. *)
Theorem interval_rate_is_since_last_measurement
    (now1 now2 : Mach.timespec)
    (sb : U3bench.state_t) (cb : U3bench.stat_counters)
    (sl : U3loop.state_t) (cl : U3loop.stat_counters) :
  (∃ s1 l1 s2 l2,
     U3bench.print_measurement (Some now1) sb = Some (s1, Some l1) ∧
     U3bench.print_measurement (Some now2) (U3bench.set_ctrs cb s1) = Some (s2, Some l2) ∧
     U3bench.measurement_time s1 = now1 ∧
     U3bench.measurement s1 = U3bench.ctrs sb ∧
     let tx := Mach.u64 (U3bench.tx_bytes cb - U3bench.tx_bytes (U3bench.ctrs sb)) in
     let rx := Mach.u64 (U3bench.rx_bytes cb - U3bench.rx_bytes (U3bench.ctrs sb)) in
     let usec := Mach.usec_between now2 now1 in
     (usec ≠ 0 →
      U3bench.line_mbps l2 = Mach.of_uint64 (Mach.u64 (Mach.u64 (tx + rx) * 8) `div` usec) ∧
      U3bench.line_tx_mbps l2 = Mach.of_uint64 (Mach.u64 (tx * 8) `div` usec) ∧
      U3bench.line_rx_mbps l2 = Mach.of_uint64 (Mach.u64 (rx * 8) `div` usec)) ∧
     (usec = 0 →
      U3bench.line_mbps l2 = Mach.INFINITY ∧
      U3bench.line_tx_mbps l2 = Mach.INFINITY ∧
      U3bench.line_rx_mbps l2 = Mach.INFINITY)) ∧
  (∃ s1 l1 s2 l2,
     U3loop.print_measurement (Some now1) sl = Some (s1, Some l1) ∧
     U3loop.print_measurement (Some now2) (U3loop.set_ctrs cl s1) = Some (s2, Some l2) ∧
     U3loop.measurement_time s1 = now1 ∧
     U3loop.measurement s1 = U3loop.ctrs sl ∧
     let rx := Mach.u64 (U3loop.rx_bytes cl - U3loop.rx_bytes (U3loop.ctrs sl)) in
     let usec := Mach.usec_between now2 now1 in
     (usec ≠ 0 →
      U3loop.line_rx_mbps l2 = Mach.of_uint64 (Mach.u64 (rx * 8) `div` usec)) ∧
     (usec = 0 → U3loop.line_rx_mbps l2 = Mach.INFINITY)).
Proof.
  split.
  - destruct (bench_print_measurement_line now1 sb)
      as (s1 & l1 & r1 & a1 & Hpm1 & _ & _ & _ & _ & _ & _ & _ & Ht1 & Hm1 & _).
    destruct (bench_print_measurement_line now2 (U3bench.set_ctrs cb s1))
      as (s2 & l2 & r2 & a2 & Hpm2 & Hr2 & _ & Hl2 & _).
    exists s1, l1, s2, l2. split; [done|]. split; [done|]. split; [done|]. split; [done|].
    assert (U3bench.interval_rates
              (Mach.u64 (U3bench.tx_bytes cb - U3bench.tx_bytes (U3bench.ctrs sb)))
              (Mach.u64 (U3bench.rx_bytes cb - U3bench.rx_bytes (U3bench.ctrs sb)))
              (Mach.usec_between now2 now1) = Some r2) as Hr.
    { destruct (bench_set_ctrs_frame cb s1) as (Hc & Hm & Hi).
      rewrite Hc, Hm, Hi, Hm1, Ht1 in Hr2. exact Hr2. }
    clear Hr2. cbv zeta. split.
    + intros Hne. rewrite bench_interval_rates_nonzero in Hr by done.
      injection Hr as <-. by injection Hl2 as -> -> ->.
    + intros Hz. rewrite Hz, bench_interval_rates_zero in Hr.
      injection Hr as <-. by injection Hl2 as -> -> ->.
  - destruct (loop_print_measurement_line now1 sl)
      as (s1 & l1 & r1 & a1 & Hpm1 & _ & _ & _ & _ & _ & _ & Ht1 & Hm1 & _).
    destruct (loop_print_measurement_line now2 (U3loop.set_ctrs cl s1))
      as (s2 & l2 & r2 & a2 & Hpm2 & Hr2 & _ & Hl2 & _).
    exists s1, l1, s2, l2. split; [done|]. split; [done|]. split; [done|]. split; [done|].
    assert (U3loop.rate
              (Mach.u64 (U3loop.rx_bytes cl - U3loop.rx_bytes (U3loop.ctrs sl)))
              (Mach.usec_between now2 now1) = Some r2) as Hr.
    { destruct (loop_set_ctrs_frame cl s1) as (Hc & Hm & Hi).
      rewrite Hc, Hm, Hi, Hm1, Ht1 in Hr2. exact Hr2. }
    clear Hr2. cbv zeta. split.
    + intros Hne. rewrite loop_rate_nonzero in Hr by done.
      injection Hr as <-. by rewrite Hl2.
    + intros Hz. rewrite Hz, loop_rate_zero in Hr.
      injection Hr as <-. by rewrite Hl2.
Qed.

(** ** The final report *)
Section Report.
Import Mach.

Lemma bench_report_rates_total c usec : is_Some (U3benchMain.report_rates c usec).
Proof.
  unfold U3benchMain.report_rates. case_decide; [|by eexists].
  rewrite !udiv64_nonzero by done. by eexists.
Qed.

Lemma loop_report_rate_total bytes usec : is_Some (U3loopMain.report_rate bytes usec).
Proof.
  unfold U3loopMain.report_rate. case_decide; [|by eexists].
  rewrite udiv64_nonzero by done. by eexists.
Qed.

(** More than a million microseconds are at least one second. *)
Lemma loop_report_ops_rate_total ops usec :
  U3loopMain.report_ops_rate ops usec
  = Some (of_uint64 (if decide (1000000 < usec)
                     then ops `div` (usec `div` 1000000) else ops)).
Proof.
  unfold U3loopMain.report_ops_rate. case_decide as Hlt; [|done].
  rewrite udiv64_nonzero; [done|].
  assert (1 ≤ usec `div` 1000000) by (apply Z.div_le_lower_bound; lia). lia.
Qed.

Lemma s64_u64_difference a b :
  - 2 ^ 63 ≤ a - b < 2 ^ 63 → s64 (u64 (a - b)) = a - b.
Proof.
  intros Hab. unfold s64, u64.
  rewrite Zplus_mod_idemp_l.
  rewrite Z.mod_small by lia. lia.
Qed.

Lemma bench_total_time_usec_eq now s :
  U3bench.total_time_usec now s = usec_between now (U3bench.start_time s).
Proof. reflexivity. Qed.

Lemma loop_total_time_usec_eq now s :
  U3loop.total_time_usec now s = usec_between now (U3loop.start_time s).
Proof. reflexivity. Qed.

Lemma bench_print_report_returns now s :
  ∃ r rates,
    U3benchMain.print_report (Some now) s = Some (Some r) ∧
    U3benchMain.report_rates (U3bench.ctrs s) (usec_between now (U3bench.start_time s))
    = Some rates ∧
    (U3benchMain.report_avg_mbps r, U3benchMain.report_tx_avg_mbps r,
     U3benchMain.report_rx_avg_mbps r) = rates ∧
    U3benchMain.report_duration r = usec_between now (U3bench.start_time s) `div` 1000000 ∧
    U3benchMain.report_ops r = U3bench.ops s.
Proof.
  destruct (bench_report_rates_total (U3bench.ctrs s) (usec_between now (U3bench.start_time s)))
    as [[[a t] r] Hr].
  eexists _, (a, t, r). split; [|split; [exact Hr|]].
  - unfold U3benchMain.print_report. unfold U3bench.total_time_usec in Hr.
    rewrite Hr. reflexivity.
  - repeat split.
Qed.

Lemma loop_print_report_returns now s :
  ∃ r a,
    U3loopMain.print_report (Some now) s = Some (Some r) ∧
    U3loopMain.report_rate (U3loop.rx_bytes (U3loop.ctrs s)) (usec_between now (U3loop.start_time s))
    = Some a ∧
    U3loopMain.report_avg_rx_mbps r = a ∧
    U3loopMain.report_avg_ops_sec r
    = of_uint64 (if decide (1000000 < usec_between now (U3loop.start_time s))
                 then U3loop.ops s `div` (usec_between now (U3loop.start_time s) `div` 1000000)
                 else U3loop.ops s) ∧
    U3loopMain.report_bytes_lost r
    = s64 (u64 (U3loop.tx_bytes (U3loop.ctrs s) - U3loop.rx_bytes (U3loop.ctrs s))) ∧
    U3loopMain.report_bytes_send r = s64 (U3loop.tx_bytes (U3loop.ctrs s)) ∧
    U3loopMain.report_bytes_received r = s64 (U3loop.rx_bytes (U3loop.ctrs s)) ∧
    U3loopMain.report_phy_errors r
    = U3loopMain.print_dev_phy_errors (U3loop.cum_dev_errors s) ∧
    U3loopMain.report_ll_errors r
    = U3loopMain.print_dev_ll_errors (U3loop.cum_dev_errors s).
Proof.
  destruct (loop_report_rate_total (U3loop.rx_bytes (U3loop.ctrs s))
              (usec_between now (U3loop.start_time s))) as [a Ha].
  eexists _, a. split; [|split; [exact Ha|]].
  - unfold U3loopMain.print_report. unfold U3loop.total_time_usec in Ha.
    rewrite Ha, loop_report_ops_rate_total. reflexivity.
  - repeat split.
Qed.

Lemma report_rates_finite c usec a t r :
  U3benchMain.report_rates c usec = Some (a, t, r) →
  a ≠ INFINITY ∧ t ≠ INFINITY ∧ r ≠ INFINITY.
Proof.
  unfold U3benchMain.report_rates. case_decide.
  - rewrite !udiv64_nonzero by done. by intros [= <- <- <-].
  - by intros [= <- <- <-].
Qed.

Lemma report_rate_finite bytes usec a :
  U3loopMain.report_rate bytes usec = Some a → a ≠ INFINITY.
Proof.
  unfold U3loopMain.report_rate. case_decide.
  - rewrite udiv64_nonzero by done. by intros [= <-].
  - by intros [= <-].
Qed.

Lemma report_rates_average c usec :
  usec ≠ 0 → U3benchMain.report_rates c usec = U3bench.average_rates c usec.
Proof.
  intros Hne. unfold U3benchMain.report_rates, U3bench.average_rates.
  rewrite !decide_True by done.
  by rewrite (Z.add_comm (U3bench.tx_bytes c)).
Qed.

End Report.

(** X10.  [print_report] never divides by zero, in either tool: whatever the
    state and the clock it returns, and with a reading of the clock it
    prints a report.  Its averages are never [INFINITY]: over a run of zero
    microseconds u3bench reports the plain number of bits, where the line
    of [print_measurement] for the same state and time shows [INFINITY];
    over any other time the two print the same three averages.  The
    operations per second of u3loop are the operations divided by the whole
    seconds of the run once it has lasted more than a second, and the
    number of operations up to then. *)
Theorem report_never_divides_by_zero
    (clock : option Mach.timespec) (now : Mach.timespec)
    (sb : U3bench.state_t) (sl : U3loop.state_t) :
  is_Some (U3benchMain.print_report clock sb) ∧
  is_Some (U3loopMain.print_report clock sl) ∧
  (∃ r s' l,
     U3benchMain.print_report (Some now) sb = Some (Some r) ∧
     U3bench.print_measurement (Some now) sb = Some (s', Some l) ∧
     U3benchMain.report_avg_mbps r ≠ Mach.INFINITY ∧
     U3benchMain.report_tx_avg_mbps r ≠ Mach.INFINITY ∧
     U3benchMain.report_rx_avg_mbps r ≠ Mach.INFINITY ∧
     U3benchMain.report_duration r = U3bench.line_time l ∧
     U3benchMain.report_ops r = U3bench.line_ops l ∧
     (U3bench.total_time_usec now sb ≠ 0 →
      U3benchMain.report_avg_mbps r = U3bench.line_avg_mbps l ∧
      U3benchMain.report_tx_avg_mbps r = U3bench.line_tx_avg_mbps l ∧
      U3benchMain.report_rx_avg_mbps r = U3bench.line_rx_avg_mbps l) ∧
     (U3bench.total_time_usec now sb = 0 →
      U3bench.line_avg_mbps l = Mach.INFINITY ∧
      U3benchMain.report_avg_mbps r
      = Mach.of_uint64
          (Mach.u64 (Mach.u64 (U3bench.tx_bytes (U3bench.ctrs sb)
                               + U3bench.rx_bytes (U3bench.ctrs sb)) * 8)))) ∧
  (∃ r,
     U3loopMain.print_report (Some now) sl = Some (Some r) ∧
     U3loopMain.report_avg_rx_mbps r ≠ Mach.INFINITY ∧
     U3loopMain.report_avg_ops_sec r
     = Mach.of_uint64
         (if decide (1000000 < U3loop.total_time_usec now sl)
          then U3loop.ops sl `div` (U3loop.total_time_usec now sl `div` 1000000)
          else U3loop.ops sl)).
Proof.
  split; [|split; [|split]].
  - destruct clock as [t|]; [|by eexists].
    destruct (bench_print_report_returns t sb) as (r & rates & Hpr & _).
    rewrite Hpr. by eexists.
  - destruct clock as [t|]; [|by eexists].
    destruct (loop_print_report_returns t sl) as (r & a & Hpr & _).
    rewrite Hpr. by eexists.
  - destruct (bench_print_report_returns now sb)
      as (r & [[a t] x] & Hpr & Hrates & Hr & Hdur & Hops).
    destruct (bench_print_measurement_line now sb)
      as (s' & l & rates & [[la lt] lx] & Hpm & _ & Havg & _ & Hl & Hlops & Hltime & _).
    rewrite bench_total_time_usec_eq in *.
    injection Hr as Hr1 Hr2 Hr3. injection Hl as Hl1 Hl2 Hl3.
    exists r, s', l. split; [exact Hpr|]. split; [exact Hpm|].
    destruct (report_rates_finite _ _ _ _ _ Hrates) as (Hf1 & Hf2 & Hf3).
    rewrite Hr1, Hr2, Hr3, Hl1, Hl2, Hl3, Hdur, Hltime, Hops, Hlops.
    split; [exact Hf1|]. split; [exact Hf2|]. split; [exact Hf3|].
    split; [reflexivity|]. split; [reflexivity|].
    split.
    + intros Hne. rewrite report_rates_average, Havg in Hrates by exact Hne.
      injection Hrates as <- <- <-. repeat split.
    + intros Hz. rewrite Hz in Hrates, Havg.
      injection Hrates as <- _ _. injection Havg as <- _ _. split; reflexivity.
  - destruct (loop_print_report_returns now sl) as (r & a & Hpr & Hrate & Ha & Hops & _).
    rewrite loop_total_time_usec_eq.
    exists r. split; [exact Hpr|]. split; [|exact Hops].
    rewrite Ha. exact (report_rate_finite _ _ _ Hrate).
Qed.

(** X11.  The line "Bytes lost" of the report of u3loop is computed by an
    unsigned subtraction and printed as a signed number: it shows the bytes
    sent less the bytes received, also when more were received than sent,
    as long as the two counters are less than 2^63 apart. *)
Theorem report_bytes_lost_signed (now : Mach.timespec) (s : U3loop.state_t) :
  let sent := U3loop.tx_bytes (U3loop.ctrs s) in
  let received := U3loop.rx_bytes (U3loop.ctrs s) in
  - 2 ^ 63 ≤ sent - received < 2 ^ 63 →
  ∃ r, U3loopMain.print_report (Some now) s = Some (Some r) ∧
       U3loopMain.report_bytes_lost r = sent - received.
Proof.
  intros sent received Hdiff.
  destruct (loop_print_report_returns now s) as (r & a & Hpr & _ & _ & _ & Hlost & _).
  exists r. split; [exact Hpr|]. rewrite Hlost. apply s64_u64_difference. exact Hdiff.
Qed.

Lemma report_bytes_lost_signed_witness :
  ∃ r, U3loopMain.print_report (Some Inputs.t2) Scenarios.received_more = Some (Some r) ∧
       U3loopMain.report_bytes_lost r = -65536.
Proof.
  destruct (report_bytes_lost_signed Inputs.t2 Scenarios.received_more)
    as (r & Hreport & Hlost).
  - simpl. lia.
  - exists r. split; [exact Hreport|]. rewrite Hlost. reflexivity.
Defined.

(** ** Time: microseconds and whole seconds *)
Section Time.
Import Mach.

Lemma s64_small x : - 2 ^ 63 ≤ x < 2 ^ 63 → s64 x = x.
Proof. intros Hx. unfold s64. rewrite Z.mod_small; lia. Qed.

(** [usec_between] on two readings of a clock that does not run backwards,
    [ds] seconds and [dn] nanoseconds apart. *)
Lemma usec_between_value now t :
  0 ≤ tv_nsec now < 10 ^ 9 → 0 ≤ tv_nsec t < 10 ^ 9 →
  tv_sec now - tv_sec t < 2 ^ 40 →
  0 ≤ (tv_sec now - tv_sec t) * 10 ^ 9 + (tv_nsec now - tv_nsec t) →
  usec_between now t
  = (tv_sec now - tv_sec t) * 1000000 + Z.quot (tv_nsec now - tv_nsec t) 1000
  ∧ 0 ≤ tv_sec now - tv_sec t.
Proof.
  intros Hn Ht Hs Hns. unfold usec_between.
  set (ds := tv_sec now - tv_sec t) in *.
  set (dn := tv_nsec now - tv_nsec t) in *.
  assert (0 ≤ ds) as Hds by lia.
  rewrite (s64_small ds) by lia.
  rewrite (s64_small (ds * 1000000)) by lia.
  rewrite (s64_small dn) by lia.
  pose proof (Z.quot_rem' dn 1000) as Hqr.
  assert (-1000 < Z.rem dn 1000 < 1000) as Hrem.
  { pose proof (Z.rem_bound_abs dn 1000 ltac:(lia)). lia. }
  rewrite s64_small by lia.
  split; [|done].
  apply u64_small. unfold is_u64, UINT64_MAX. lia.
Qed.

Lemma usec_between_bounds now t :
  0 ≤ tv_nsec now < 10 ^ 9 → 0 ≤ tv_nsec t < 10 ^ 9 →
  tv_sec now - tv_sec t < 2 ^ 40 →
  let ns := (tv_sec now - tv_sec t) * 10 ^ 9 + (tv_nsec now - tv_nsec t) in
  0 ≤ ns →
  ns `div` 1000 ≤ usec_between now t ≤ (ns + 999) `div` 1000 ∧
  (usec_between now t = 0 → ns < 1000).
Proof.
  intros Hn Ht Hs ns Hns.
  destruct (usec_between_value now t Hn Ht Hs Hns) as [-> Hds].
  subst ns.
  set (ds := tv_sec now - tv_sec t) in *.
  set (dn := tv_nsec now - tv_nsec t) in *.
  pose proof (Z.quot_rem' dn 1000) as Hqr.
  assert (-1000 < Z.rem dn 1000 < 1000) as Hrem.
  { pose proof (Z.rem_bound_abs dn 1000 ltac:(lia)). lia. }
  assert (0 ≤ dn → 0 ≤ Z.rem dn 1000) as Hpos
    by (intros; apply Z.rem_nonneg; lia).
  assert (dn ≤ 0 → Z.rem dn 1000 ≤ 0) as Hneg.
  { intros. pose proof (Z.rem_opp_l' (- dn) 1000) as Ho.
    rewrite Z.opp_involutive in Ho.
    pose proof (Z.rem_nonneg (- dn) 1000 ltac:(lia) ltac:(lia)). lia. }
  set (q := Z.quot dn 1000) in *. set (r := Z.rem dn 1000) in *.
  change (10 ^ 9) with 1000000000 in *.
  split; [split|].
  - assert ((ds * 1000000000 + dn) `div` 1000 < ds * 1000000 + q + 1); [|lia].
    apply Z.div_lt_upper_bound; lia.
  - apply Z.div_le_lower_bound; lia.
  - intros Hz. lia.
Qed.

Lemma bench_rates_infinity tx rx usec m t r :
  U3bench.interval_rates tx rx usec = Some (m, t, r) → m = INFINITY → usec = 0.
Proof.
  intros Hr ->. destruct (decide (usec = 0)) as [|Hne]; [done|].
  by rewrite bench_interval_rates_nonzero in Hr.
Qed.

Lemma loop_rate_infinity bytes usec :
  U3loop.rate bytes usec = Some INFINITY → usec = 0.
Proof.
  intros Hr. destruct (decide (usec = 0)) as [|Hne]; [done|].
  by rewrite loop_rate_nonzero in Hr.
Qed.

Lemma bench_ival_usec_eq now s :
  U3bench.ival_usec now s = usec_between now (U3bench.measurement_time s).
Proof. reflexivity. Qed.

Lemma loop_ival_usec_eq now s :
  U3loop.ival_usec now s = usec_between now (U3loop.measurement_time s).
Proof. reflexivity. Qed.

(** [time_running] of the main loop of u3bench. *)
Lemma time_running_value now start_time ds :
  0 ≤ tv_nsec now < 10 ^ 9 → 0 ≤ tv_nsec start_time < 10 ^ 9 →
  ds = tv_sec now - tv_sec start_time → - 2 ^ 62 ≤ ds < 2 ^ 62 →
  (if decide (tv_nsec now < tv_nsec start_time) then s64 (s64 ds - 1) else s64 ds)
  = (ds * 10 ^ 9 + (tv_nsec now - tv_nsec start_time)) `div` 10 ^ 9.
Proof.
  intros Hn Ht -> Hds.
  set (ds := tv_sec now - tv_sec start_time) in *.
  rewrite (s64_small ds) by lia.
  change (10 ^ 9) with 1000000000 in *.
  case_decide.
  - rewrite s64_small by lia.
    apply Z.div_unique with (r := 1000000000 + (tv_nsec now - tv_nsec start_time)); lia.
  - apply Z.div_unique with (r := tv_nsec now - tv_nsec start_time); lia.
Qed.

End Time.

(** X12.  Between two readings of a clock that does not run backwards
    (nanoseconds within a second, less than 2^40 seconds apart) the
    microseconds [print_measurement] computes are the elapsed time in
    microseconds, rounded down or up; they are zero only when less than a
    microsecond has passed.  So an interval rate of [INFINITY] is printed,
    in either tool, only when the measurement comes within a microsecond of
    the previous one. *)
Theorem infinity_only_within_a_microsecond (now t : Mach.timespec) :
  0 ≤ Mach.tv_nsec now < 10 ^ 9 → 0 ≤ Mach.tv_nsec t < 10 ^ 9 →
  Mach.tv_sec now - Mach.tv_sec t < 2 ^ 40 →
  let ns := (Mach.tv_sec now - Mach.tv_sec t) * 10 ^ 9
            + (Mach.tv_nsec now - Mach.tv_nsec t) in
  0 ≤ ns →
  ns `div` 1000 ≤ Mach.usec_between now t ≤ (ns + 999) `div` 1000 ∧
  (∀ s s' l, U3bench.measurement_time s = t →
     U3bench.print_measurement (Some now) s = Some (s', Some l) →
     U3bench.line_mbps l = Mach.INFINITY → ns < 1000) ∧
  (∀ s s' l, U3loop.measurement_time s = t →
     U3loop.print_measurement (Some now) s = Some (s', Some l) →
     U3loop.line_rx_mbps l = Mach.INFINITY → ns < 1000).
Proof.
  intros Hn Ht Hs ns Hns.
  destruct (usec_between_bounds now t Hn Ht Hs Hns) as [Hbounds Hzero].
  split; [exact Hbounds|]. split.
  - intros s s' l Hmt Hpm Hinf.
    destruct (bench_print_measurement_line now s)
      as (s1 & l1 & [[m tx] rx] & avgs & Hpm1 & Hr & _ & Hl & _).
    rewrite Hpm in Hpm1. injection Hpm1 as _ <-.
    injection Hl as Hl1 _ _. rewrite Hinf in Hl1.
    apply Hzero. rewrite <- Hmt, <- bench_ival_usec_eq.
    exact (bench_rates_infinity _ _ _ _ _ _ Hr (eq_sym Hl1)).
  - intros s s' l Hmt Hpm Hinf.
    destruct (loop_print_measurement_line now s)
      as (s1 & l1 & r & a & Hpm1 & Hr & _ & Hl & _).
    rewrite Hpm in Hpm1. injection Hpm1 as _ <-.
    rewrite Hinf in Hl. rewrite <- Hl in Hr.
    apply Hzero. rewrite <- Hmt, <- loop_ival_usec_eq.
    exact (loop_rate_infinity _ _ Hr).
Qed.

Lemma infinity_only_within_a_microsecond_witness :
  500000 ≤ Mach.usec_between Scenarios.half_second Inputs.t0 ≤ 500000.
Proof.
  destruct (infinity_only_within_a_microsecond Scenarios.half_second Inputs.t0)
    as [Hbounds _].
  - simpl. lia.
  - simpl. lia.
  - simpl. lia.
  - simpl. lia.
  - exact Hbounds.
Defined.

(** X13.  [time_running], by which the main loop of u3bench times its
    measurements and the time limit, is the number of whole seconds since
    the start time: the difference of the seconds, less one when the
    nanoseconds of the reading are below those of the start. *)
Theorem time_running_whole_seconds (now : Mach.timespec) (s : U3bench.state_t) :
  0 ≤ Mach.tv_nsec now < 10 ^ 9 →
  0 ≤ Mach.tv_nsec (U3bench.start_time s) < 10 ^ 9 →
  - 2 ^ 62 ≤ Mach.tv_sec now - Mach.tv_sec (U3bench.start_time s) < 2 ^ 62 →
  U3bench.time_running now s
  = ((Mach.tv_sec now - Mach.tv_sec (U3bench.start_time s)) * 10 ^ 9
     + (Mach.tv_nsec now - Mach.tv_nsec (U3bench.start_time s))) `div` 10 ^ 9.
Proof.
  intros Hn Ht Hs.
  rewrite <- (time_running_value now (U3bench.start_time s) _ Hn Ht eq_refl Hs).
  reflexivity.
Qed.

Lemma time_running_whole_seconds_witness :
  U3bench.time_running Inputs.t2
    (U3bench.state (U3bench.world_at_start Scenarios.half_second)) = 1.
Proof.
  rewrite (time_running_whole_seconds Inputs.t2
             (U3bench.state (U3bench.world_at_start Scenarios.half_second))).
  - reflexivity.
  - simpl. lia.
  - simpl. lia.
  - simpl. lia.
Defined.

(** ** The main loop of u3bench *)
Section MainLoop.
Import Mach Libusb Outcome U3bench.

Lemma resubmit_start_time i t r w :
  start_time (state (resubmit i t r w)) = start_time (state w).
Proof.
  unfold resubmit. destruct (terminate w); [done|]. simpl.
  destruct (libusb_submit_transfer r t) as [ret t'].
  by destruct (decide (ret = LIBUSB_SUCCESS)).
Qed.

Lemma transfer_cb_start_time i t r w :
  start_time (state (transfer_cb i t r w)) = start_time (state w).
Proof.
  unfold transfer_cb.
  destruct (status_switch _ t _) as [w1|] eqn:Hsw; [|done].
  rewrite resubmit_start_time.
  unfold status_switch in Hsw.
  destruct (libusb_transfer.status t); try done; injection Hsw as <-; try done.
  simpl. unfold completed_case.
  by destruct (decide (_ ≠ _)), (bool_decide _).
Qed.

Lemma handle_start_time e w :
  start_time (state (handle e w)) = start_time (state w).
Proof.
  destruct e as [c|]; [|done]. simpl. unfold deliver.
  destruct (xfers w !! slot c) as [[| |t]|]; try done.
  destruct (deliverable _ _); [|done].
  by rewrite transfer_cb_start_time.
Qed.

Lemma handle_events_start_time es w :
  start_time (state (libusb_handle_events es w)) = start_time (state w).
Proof.
  revert w. induction es as [|e es IH]; intros w; simpl; [done|].
  change (foldl (λ w e, handle e w) ?a ?l) with (libusb_handle_events l a).
  by rewrite IH, handle_start_time.
Qed.

(** A measurement always returns; with a reading of the clock it prints a
    line with the operation count of the moment. *)
Lemma measure_returns clock w :
  ∃ w', measure clock w = Ret w' ∧
        terminate w' = terminate w ∧
        start_time (state w') = start_time (state w) ∧
        ops (state w') = ops (state w) ∧
        match clock with
        | Some _ => ∃ l, log w' = Print l :: log w ∧ line_ops l = ops (state w)
        | None => log w' = log w
        end.
Proof.
  unfold measure. destruct clock as [now|].
  - destruct (bench_print_measurement_line now (state w))
      as (s' & l & rates & avgs & Hpm & _ & _ & _ & _ & Hops & _ & _ & _ & _ & _ & Hops' & Hst).
    rewrite Hpm. cbn [trap mbind result_bind].
    eexists. split; [reflexivity|]. simpl.
    split; [done|]. split; [done|]. split; [done|]. by exists l.
  - simpl. eexists. split; [reflexivity|]. done.
Qed.

Lemma time_running_start t s s' :
  start_time s' = start_time s → time_running t s' = time_running t s.
Proof. unfold time_running. by intros ->. Qed.

Lemma timeout_completed_start_time es w :
  start_time (state (libusb_handle_events_timeout_completed es w)) = start_time (state w).
Proof.
  unfold libusb_handle_events_timeout_completed.
  destruct (terminate w); [done|]. apply handle_events_start_time.
Qed.

(** One turn of the loop in which the clock can be read. *)
Lemma main_loop_body_turn limit ival tk lv w t :
  now tk = Some t →
  let tr := time_running t (state w) in
  ∃ lv' w',
    main_loop_body limit ival tk lv w = Ret (lv', Continue w') ∧
    start_time (state w') = start_time (state w) ∧
    (tr ≠ last_time_running lv → 0 < limit → limit ≤ tr → terminate w' = true) ∧
    (terminate w' = false →
     last_time_running lv'
     = if decide (tr ≠ last_time_running lv) then tr else last_time_running lv) ∧
    (terminate w' = true → is_Some (now_measurement tk) →
     ∃ l rest, log w' = Print l :: rest ∧ line_ops l = ops (state w')).
Proof.
  intros Hnow tr. unfold main_loop_body. rewrite Hnow.
  set (w1 := libusb_handle_events_timeout_completed (events tk) w).
  assert (start_time (state w1) = start_time (state w)) as Hst1
    by apply timeout_completed_start_time.
  rewrite (time_running_start t _ _ Hst1). fold tr.
  set (changed := decide (tr ≠ last_time_running lv)).
  set (w2 := if changed
             then (if decide (0 < limit ∧ limit ≤ tr) then set_terminate w1 else w1)
             else w1).
  set (lv2 := if changed
              then {| take_measurement :=
                        if decide (0 < ival ∧ Z.rem tr ival = 0)
                        then true else take_measurement lv;
                      last_time_running := tr |}
              else lv).
  assert ((if changed
           then ({| take_measurement :=
                      if decide (0 < ival ∧ Z.rem tr ival = 0)
                      then true else take_measurement lv;
                    last_time_running := tr |},
                 if decide (0 < limit ∧ limit ≤ tr) then set_terminate w1 else w1)
           else (lv, w1)) = (lv2, w2)) as -> by (subst lv2 w2; by destruct changed).
  assert (start_time (state w2) = start_time (state w)) as Hst2.
  { subst w2. destruct changed; [|done]. by case_decide. }
  assert (tr ≠ last_time_running lv → 0 < limit → limit ≤ tr → terminate w2 = true)
    as Hlimit.
  { intros Hne H0 Hle. subst w2 changed. rewrite decide_True by done.
    by rewrite decide_True by done. }
  assert (last_time_running lv2
          = if changed then tr else last_time_running lv) as Hlast
    by (subst lv2; by destruct changed).
  destruct (take_measurement lv2 || terminate w2) eqn:Hm.
  - destruct (measure_returns (now_measurement tk) w2)
      as (w3 & Hmeasure & Hterm3 & Hst3 & Hops3 & Hlog3).
    rewrite Hmeasure. cbn [mbind result_bind].
    eexists _, w3. split; [reflexivity|]. simpl.
    split; [congruence|]. split; [by intros; rewrite Hterm3; apply Hlimit|].
    split; [done|].
    intros _ [c Hc]. rewrite Hc in Hlog3. destruct Hlog3 as (l & Hl & Hlops).
    exists l, (log w2). split; [done|]. congruence.
  - apply orb_false_iff in Hm as [_ Hterm2].
    eexists _, w2. split; [reflexivity|]. split; [done|].
    split; [done|]. split; [done|]. intros Ht. congruence.
Qed.

Lemma main_loop_done limit ival ticks lv w :
  terminate w = true → main_loop limit ival ticks lv w = Ret (Continue w).
Proof. intros Ht. destruct ticks; simpl; by rewrite Ht. Qed.

End MainLoop.

(** X14.  The time limit ends the main loop of u3bench in the turn whose
    reading of the clock first shows it reached: with a limit above zero,
    once a turn reads a time of at least [opt_time_limit] whole seconds
    since the start, the loop sets [terminate] in that turn and does not
    begin another one. *)
Theorem time_limit_ends_main_loop
    (opt_time_limit opt_report_ival : Z) (ticks : list U3bench.tick)
    (lv : U3bench.loop_vars) (w : U3bench.world) :
  0 < opt_time_limit →
  U3bench.last_time_running lv < opt_time_limit →
  Exists (λ tk, ∃ t, U3bench.now tk = Some t ∧
                     opt_time_limit ≤ U3bench.time_running t (U3bench.state w)) ticks →
  ∃ f, U3bench.main_loop opt_time_limit opt_report_ival ticks lv w = Outcome.Ret f ∧
       match f with
       | U3bench.Continue w' => U3bench.terminate w' = true
       | U3bench.Goto_fail3 _ => True
       end.
Proof.
  intros Hpos. revert lv w.
  induction ticks as [|tk ticks IH]; intros lv w Hlast Hex; [by apply Exists_nil in Hex|].
  destruct (U3bench.terminate w) eqn:Hterm.
  { exists (U3bench.Continue w). split; [by apply main_loop_done|done]. }
  cbn [U3bench.main_loop]. rewrite Hterm.
  destruct (U3bench.now tk) as [t|] eqn:Hnow.
  - destruct (main_loop_body_turn opt_time_limit opt_report_ival tk lv w t Hnow)
      as (lv' & w' & Hbody & Hst & Hlimit & Hlast' & _).
    rewrite Hbody. cbn [mbind Outcome.result_bind].
    destruct (U3bench.terminate w') eqn:Hterm'.
    { exists (U3bench.Continue w'). split; [by apply main_loop_done|done]. }
    apply IH.
    + rewrite (Hlast' eq_refl). case_decide as Hne; [|done].
      destruct (decide (opt_time_limit ≤ U3bench.time_running t (U3bench.state w)))
        as [Hle|]; [|lia].
      by specialize (Hlimit Hne Hpos Hle).
    + apply Exists_cons in Hex as [(t' & Ht' & Hle)|Hex].
      * rewrite Hnow in Ht'. injection Ht' as <-.
        by specialize (Hlimit ltac:(lia) Hpos Hle).
      * eapply Exists_impl; [exact Hex|]. intros tk' (t' & Ht' & Hle).
        exists t'. split; [done|].
        by rewrite (time_running_start t' _ _ Hst).
  - unfold U3bench.main_loop_body. rewrite Hnow. cbn [mbind Outcome.result_bind].
    by eexists.
Qed.

Lemma time_limit_ends_main_loop_witness :
  ∃ f, U3bench.main_loop 1 1 Scenarios.two_turns
         {| U3bench.take_measurement := false; U3bench.last_time_running := 0 |}
         Inputs.full_pool = Outcome.Ret f ∧
       match f with
       | U3bench.Continue w' => U3bench.terminate w' = true
       | U3bench.Goto_fail3 _ => True
       end.
Proof.
  apply (time_limit_ends_main_loop 1 1 Scenarios.two_turns
           {| U3bench.take_measurement := false; U3bench.last_time_running := 0 |}
           Inputs.full_pool).
  - lia.
  - simpl. lia.
  - apply Exists_cons. right. apply Exists_cons. left.
    exists Inputs.t1. split; [reflexivity|]. vm_compute. discriminate.
Defined.



(** ** [main]: the device handle from [libusb_init] to [libusb_exit] *)
Section MainRules.
Import Libusb Protocol.

Lemma after_calls_snoc h l k h' :
  Handles.after_calls h l = Some h' →
  Handles.after_calls h (l ++ k) = Handles.after_calls h' k.
Proof.
  revert h. induction l as [|c l IH]; intros h; simpl; [by intros [= ->]|].
  destruct (Handles.after_call h c) as [h1|]; simpl; [apply IH|done].
Qed.

(** [open_device] sends no vendor command. *)
Lemma quiet_app l k : Handles.quiet l → Handles.quiet k → Handles.quiet (l ++ k).
Proof. intros Hl Hk. by apply Forall_app. Qed.

Lemma quiet_no_control l v : Handles.quiet l → Handles.Control v ∉ l.
Proof. intros Hl Hin. eapply Forall_forall in Hl; [|exact Hin]. by apply (Hl v). Qed.

Lemma examine_quiet vid pid sn d i buf :
  Handles.quiet (Handles.examine vid pid sn d i buf).2.
Proof.
  unfold Handles.examine, Handles.quiet.
  repeat case_decide; try (simpl; apply Forall_nil_2).
  destruct (libusb_get_string_descriptor_ascii d buf) as [err str].
  destruct (decide (err = LIBUSB_SUCCESS)); [by repeat constructor|].
  destruct sn as [sn|]; [case_decide|]; by repeat constructor.
Qed.

Lemma scan_quiet vid pid sn devs i buf :
  Handles.quiet (Handles.scan vid pid sn devs i buf).2.
Proof.
  revert i buf. induction devs as [|d devs IH]; intros i buf; simpl;
    [apply Forall_nil_2|].
  pose proof (examine_quiet vid pid sn d i buf) as Hex.
  destruct (Handles.examine vid pid sn d i buf) as [[verdict buf'] calls].
  specialize (IH (S i) buf').
  destruct (Handles.scan vid pid sn devs (S i) buf') as [r calls'].
  simpl in *. destruct verdict; simpl; try by apply quiet_app. exact Hex.
Qed.

Lemma open_device_quiet vid pid sn devs stack :
  Handles.quiet (Handles.open_device vid pid sn devs stack).2.
Proof.
  unfold Handles.open_device. destruct devs as [devs|]; [|apply Forall_nil_2].
  pose proof (scan_quiet vid pid sn devs 0 stack) as Hscan.
  destruct (Handles.scan vid pid sn devs 0 stack) as [found calls]. simpl in Hscan.
  destruct found as [i|]; [destruct (devs !! i) as [d|]; [case_decide|]|];
    simpl; repeat (apply quiet_app; [|by repeat constructor]); exact Hscan.
Qed.

Lemma poll_loop_quiet vid pid sn bus budget i :
  Handles.quiet (Handles.wait_loop vid pid sn bus budget i).2.
Proof.
  revert i. induction budget as [|budget IH]; intros i; simpl; [apply Forall_nil_2|].
  pose proof (open_device_quiet vid pid sn (bus i).1 (bus i).2) as Hopen.
  destruct (Handles.open_device vid pid sn (bus i).1 (bus i).2) as [dev calls].
  simpl in Hopen. destruct dev as [dev|].
  - simpl. by apply Forall_cons.
  - specialize (IH (S i)).
    destruct (Handles.wait_loop vid pid sn bus budget (S i)) as [r calls'].
    simpl in *. apply Forall_cons. split; [done|]. by apply quiet_app.
Qed.

(** The main loop is left by its condition only with [terminate] set. *)
Lemma main_loop_left_by_terminate limit ival ticks lv w w' :
  U3bench.main_loop limit ival ticks lv w = Outcome.Ret (U3bench.Continue w') →
  U3bench.terminate w' = true.
Proof.
  revert lv w. induction ticks as [|tk ticks IH]; intros lv w; simpl.
  - destruct (U3bench.terminate w) eqn:Ht; [|done]. by intros [= <-].
  - destruct (U3bench.terminate w) eqn:Ht; [by intros [= <-]|].
    destruct (U3bench.main_loop_body limit ival tk lv w) as [[lv' f1]| |]; try done.
    cbn [mbind Outcome.result_bind]. destruct f1 as [w1|w1]; [apply IH|done].
Qed.

(** The test loop of u3loop is left by [break] or by [goto fail3]. *)
Lemma test_loop_left ops limit ival es m f :
  U3loop.test_loop ops limit ival es m = Outcome.Ret f →
  (∃ m', f = U3loop.Break m') ∨ (∃ m', f = U3loop.Goto_fail3 m').
Proof.
  revert m. induction es as [|e es IH]; intros m; simpl; [done|].
  destruct (U3loop.loop_body ops limit ival e m) as [f1| |]; try done.
  cbn [mbind Outcome.result_bind].
  destruct f1 as [m1|m1|m1]; [apply IH| |]; intros [= <-]; eauto.
Qed.

End MainRules.

(** ** [main] of u3bench *)
Section BenchMain.
Import Libusb Protocol Outcome U3benchMain.

(** The calls of [fail2] and [fail1], for a program that holds the claimed
    device. *)
Lemma bench_fail2_calls o rv cs r p :
  Handles.after_calls Handles.NoHandle cs = Some Handles.Claimed →
  Handles.after_calls Handles.NoHandle (U3benchMain.calls (fail2 o rv cs r p))
  = Some Handles.NoHandle.
Proof.
  intros Hc. unfold fail2, fail1, fail0. cbn [U3benchMain.calls].
  case_decide.
  - rewrite <- !app_assoc. by rewrite (after_calls_snoc _ _ _ _ Hc).
  - rewrite <- !app_assoc. by rewrite (after_calls_snoc _ _ _ _ Hc).
Qed.

Lemma bench_fail2_quiet o rv cs r p :
  test_device_type.id (opt_test_device o) ≠ TEST_DEV_PASSMARK →
  Handles.quiet cs →
  Handles.quiet (U3benchMain.calls (fail2 o rv cs r p)).
Proof.
  intros Hid Hq. unfold fail2, fail1, fail0. cbn [U3benchMain.calls].
  rewrite decide_False by done.
  repeat (apply quiet_app; [|by repeat constructor]). exact Hq.
Qed.

Lemma bench_fail2_display o rv cs r p :
  test_device_type.id (opt_test_device o) = TEST_DEV_PASSMARK →
  ∃ before,
    U3benchMain.calls (fail2 o rv cs r p)
    = before ++
      [Handles.Control (Z.lor U3LOOP_CMD_SET_DISPLAY_MODE U3LOOP_DISPLAY_ENABLE);
       Handles.Control (Z.lor U3LOOP_CMD_CONF_LPM U3LOOP_LPM_ENTRY_ENABLE);
       Handles.ReleaseInterface; Handles.Close; Handles.LibusbExit].
Proof.
  intros Hid. exists cs. unfold fail2, fail1, fail0. cbn [U3benchMain.calls].
  rewrite decide_True by done. by rewrite <- !app_assoc.
Qed.

(** [benchmark] ends in [fail2], whatever way it takes. *)
Lemma benchmark_ends_in_fail2 o e start cs fin :
  benchmark o e start cs = Ret fin →
  ∃ rv r p, fin = fail2 o rv cs r p.
Proof.
  unfold benchmark.
  destruct (U3bench.fill_pool _ _ _ _) as [w|w].
  - destruct (U3bench.main_loop _ _ _ _ _) as [[w1|w1]| |]; try done;
      cbn [mbind result_bind].
    + destruct (trap _) as [r| |]; try done. cbn [mbind result_bind].
      destruct (U3bench.drain _ _) as [w2| |]; try done. cbn [mbind result_bind].
      intros [= <-]. by eexists _, _, _.
    + destruct (U3bench.drain _ _) as [w2| |]; try done. cbn [mbind result_bind].
      intros [= <-]. by eexists _, _, _.
  - destruct (U3bench.drain _ _) as [w2| |]; try done. cbn [mbind result_bind].
    intros [= <-]. by eexists _, _, _.
Qed.

(** The ways [main] ends: at [fail0]; at [fail1] without a handle, the
    display untouched; or at [fail2] with the device claimed. *)
Lemma bench_main_ends o e fin :
  main o e = Ret fin →
  calls fin = [Handles.LibusbInit (init_ret e)] ∨
  (∃ cs, calls fin = cs ++ [Handles.LibusbExit] ∧
         Handles.after_calls Handles.NoHandle cs = Some Handles.NoHandle ∧
         Forall (λ c, c = Handles.Control U3LOOP_CMD_SET_CONFIG ∨
                      ∀ v, c ≠ Handles.Control v) cs ∧
         (test_device_type.id (opt_test_device o) ≠ TEST_DEV_PASSMARK →
          Handles.quiet cs)) ∨
  (∃ cs rv r p, fin = fail2 o rv cs r p ∧
                Handles.after_calls Handles.NoHandle cs = Some Handles.Claimed ∧
                (test_device_type.id (opt_test_device o) ≠ TEST_DEV_PASSMARK →
                 Handles.quiet cs)).
Proof.
  unfold main.
  destruct (if decide (opt_vid o = 0) then _ else _) as [vid pid].
  case_decide as Hinit; [intros [= <-]; by left|].
  pose proof (open_device_calls vid pid (opt_serial_number o)
                (bus_first e).1 (bus_first e).2) as Hopen.
  pose proof (open_device_quiet vid pid (opt_serial_number o)
                (bus_first e).1 (bus_first e).2) as Hquiet.
  destruct (Handles.open_device vid pid (opt_serial_number o)
              (bus_first e).1 (bus_first e).2) as [dev looked].
  destruct Hopen as [_ Hlooked]. cbn [snd] in Hquiet.
  set (cs0 := [Handles.LibusbInit (init_ret e)] ++ looked).
  assert (Handles.quiet cs0) as Hq0
    by (apply quiet_app; [by repeat constructor|done]).
  assert (Handles.after_calls Handles.NoHandle cs0
          = Some (match dev with
                  | Some _ => Handles.Claimed
                  | None => Handles.NoHandle
                  end)) as Hc0 by exact Hlooked.
  clearbody cs0. clear Hlooked Hquiet looked.
  assert (∀ l, Handles.quiet l →
               Forall (λ c, c = Handles.Control U3LOOP_CMD_SET_CONFIG ∨
                            ∀ v, c ≠ Handles.Control v) l) as Hweak.
  { intros l Hl. eapply Forall_impl; [exact Hl|]. intros c Hc. by right. }
  destruct dev as [dev|].
  2:{ intros [= <-]. right; left. exists cs0. split; [reflexivity|].
      split; [exact Hc0|]. split; [by apply Hweak|done]. }
  unfold configure.
  destruct (decide (test_device_type.id (opt_test_device o) = TEST_DEV_PASSMARK))
    as [Hid|Hid].
  - case_decide as Hcfg.
    { intros [= <-]. right; right.
      exists (cs0 ++ [Handles.Control U3LOOP_CMD_SET_CONFIG]), U3bench.EXIT_FAILURE, None, None.
      split; [reflexivity|]. split; [|done].
      by rewrite (after_calls_snoc _ _ _ _ Hc0). }
    pose proof (wait_loop_calls vid pid (opt_serial_number o) (bus_again e)
                  Defines.MAX_DEVICE_WAIT 0) as Hwait.
    pose proof (poll_loop_quiet vid pid (opt_serial_number o) (bus_again e)
                  Defines.MAX_DEVICE_WAIT 0) as Hwq.
    destruct (Handles.wait_loop vid pid (opt_serial_number o) (bus_again e)
                Defines.MAX_DEVICE_WAIT 0) as [again polled].
    destruct Hwait as [_ Hpolled]. cbn [snd] in Hwq.
    set (cs1 := ((cs0 ++ [Handles.Control U3LOOP_CMD_SET_CONFIG])
                 ++ [Handles.ReleaseInterface; Handles.Close]) ++ polled).
    assert (Handles.after_calls Handles.NoHandle cs1
            = Some (match again with
                    | Some _ => Handles.Claimed
                    | None => Handles.NoHandle
                    end)) as Hc1.
    { subst cs1. rewrite <- !app_assoc. rewrite (after_calls_snoc _ _ _ _ Hc0).
      exact Hpolled. }
    assert (Forall (λ c, c = Handles.Control U3LOOP_CMD_SET_CONFIG ∨
                         ∀ v, c ≠ Handles.Control v) cs1) as Hw1.
    { subst cs1. apply Forall_app. split; [|by apply Hweak].
      apply Forall_app. split; [|by repeat constructor].
      apply Forall_app. split; [by apply Hweak|].
      apply Forall_cons. split; [by left|done]. }
    clearbody cs1.
    destruct again as [again|].
    + intros Hfin. right; right.
      destruct (start e) as [st|].
      * apply benchmark_ends_in_fail2 in Hfin as (rv & r & p & ->).
        eexists _, _, _, _. split; [reflexivity|]. split; [|done].
        by rewrite (after_calls_snoc _ _ _ _ Hc1).
      * injection Hfin as <-.
        eexists _, _, _, _. split; [reflexivity|]. split; [|done].
        by rewrite (after_calls_snoc _ _ _ _ Hc1).
    + intros [= <-]. right; left. exists cs1. split; [reflexivity|].
      split; [exact Hc1|]. split; [exact Hw1|done].
  - intros Hfin. right; right.
    destruct (start e) as [st|].
    + apply benchmark_ends_in_fail2 in Hfin as (rv & r & p & ->).
      by eexists _, _, _, _.
    + injection Hfin as <-. by eexists _, _, _, _.
Qed.

End BenchMain.

(** X16.  Whenever [main] of u3bench returns, the calls it made on the
    device keep the rules of libusb and leave nothing behind: a handle is
    opened only when none is held, every handle opened is released and
    closed, and [libusb_exit] comes last once [libusb_init] has succeeded.
    With a device type other than the PassMark plug no vendor command is
    sent.  And if the display was switched off, the last five calls switch
    it on again, re-enable link power management, release the interface,
    close the handle and leave libusb. *)
Theorem bench_main_releases_the_device
    (o : U3benchMain.options) (e : U3benchMain.main_env) (fin : U3benchMain.finish) :
  U3benchMain.main o e = Outcome.Ret fin →
  Handles.after_calls Handles.NoHandle (U3benchMain.calls fin) = Some Handles.NoHandle ∧
  (U3benchMain.init_ret e = Libusb.LIBUSB_SUCCESS →
   last (U3benchMain.calls fin) = Some Handles.LibusbExit) ∧
  (U3benchMain.test_device_type.id (U3benchMain.opt_test_device o)
   ≠ U3benchMain.TEST_DEV_PASSMARK →
   ∀ v, Handles.Control v ∉ U3benchMain.calls fin) ∧
  (Handles.Control
     (Z.lor Protocol.U3LOOP_CMD_SET_DISPLAY_MODE Protocol.U3LOOP_DISPLAY_DISABLE)
   ∈ U3benchMain.calls fin →
   ∃ before,
     U3benchMain.calls fin
     = before ++
       [Handles.Control
          (Z.lor Protocol.U3LOOP_CMD_SET_DISPLAY_MODE Protocol.U3LOOP_DISPLAY_ENABLE);
        Handles.Control
          (Z.lor Protocol.U3LOOP_CMD_CONF_LPM Protocol.U3LOOP_LPM_ENTRY_ENABLE);
        Handles.ReleaseInterface; Handles.Close; Handles.LibusbExit]).
Proof.
  intros Hmain.
  assert (U3benchMain.init_ret e = Libusb.LIBUSB_SUCCESS →
          U3benchMain.calls fin ≠ [Handles.LibusbInit (U3benchMain.init_ret e)]) as Hinit.
  { intros Hok Hcalls. revert Hmain Hcalls. unfold U3benchMain.main.
    destruct (if decide (U3benchMain.opt_vid o = 0) then _ else _) as [vid pid].
    rewrite decide_False by (intros Hne; by apply Hne).
    destruct (Handles.open_device _ _ _ _ _) as [dev looked].
    destruct dev as [dev|].
    - intros Hfin Hcalls.
      assert (∃ l, U3benchMain.calls fin = l ++ [Handles.LibusbExit]) as [l Hl].
      { destruct (U3benchMain.configure _ _ _ _ _) as [fin'|calls'] eqn:Hcfg.
        - injection Hfin as <-. unfold U3benchMain.configure in Hcfg.
          case_decide; [|done]. case_decide.
          + injection Hcfg as <-. unfold U3benchMain.fail2, U3benchMain.fail1. by eexists.
          + destruct (Handles.wait_loop _ _ _ _ _ _) as [again polled].
            destruct again; [done|]. injection Hcfg as <-. by eexists.
        - destruct (U3benchMain.start e).
          + apply benchmark_ends_in_fail2 in Hfin as (rv & r & p & ->).
            unfold U3benchMain.fail2, U3benchMain.fail1. by eexists.
          + injection Hfin as <-. unfold U3benchMain.fail2, U3benchMain.fail1. by eexists. }
      rewrite Hl in Hcalls. destruct l as [|c [|c' l]]; done.
    - intros [= <-]. simpl. intros [= Hl]. by destruct looked. }
  destruct (bench_main_ends o e fin Hmain)
    as [Hcalls|[(cs & Hcalls & Hafter & Hcfg & Hquiet)
               |(cs & rv & r & p & -> & Hafter & Hquiet)]].
  - rewrite Hcalls. split; [done|]. split; [intros Hok; by destruct (Hinit Hok)|].
    split.
    + intros _ v [=]%list_elem_of_singleton.
    + intros [=]%list_elem_of_singleton.
  - rewrite Hcalls. split; [by rewrite (after_calls_snoc _ _ _ _ Hafter)|].
    split; [intros _; apply last_snoc|]. split.
    + intros Hid v. apply quiet_no_control.
      apply quiet_app; [by apply Hquiet|by repeat constructor].
    + intros [Hin|[=]%list_elem_of_singleton]%elem_of_app.
      eapply Forall_forall in Hcfg; [|exact Hin].
      destruct Hcfg as [[=]|Hno]. destruct (Hno _ eq_refl).
  - split; [by apply bench_fail2_calls|].
    split; [intros _; unfold U3benchMain.fail2, U3benchMain.fail1; apply last_snoc|].
    split.
    + intros Hid v. apply quiet_no_control. apply bench_fail2_quiet; [done|by apply Hquiet].
    + intros Hin.
      destruct (decide (U3benchMain.test_device_type.id (U3benchMain.opt_test_device o)
                        = U3benchMain.TEST_DEV_PASSMARK)) as [Hid|Hid];
        [by apply bench_fail2_display|].
      exfalso. revert Hin. apply quiet_no_control.
      apply bench_fail2_quiet; [done|by apply Hquiet].
Qed.

Lemma bench_main_releases_the_device_witness :
  Handles.after_calls Handles.NoHandle (U3benchMain.calls Scenarios.bench_finish)
  = Some Handles.NoHandle ∧
  last (U3benchMain.calls Scenarios.bench_finish) = Some Handles.LibusbExit ∧
  ∃ before,
    U3benchMain.calls Scenarios.bench_finish
    = before ++
      [Handles.Control
         (Z.lor Protocol.U3LOOP_CMD_SET_DISPLAY_MODE Protocol.U3LOOP_DISPLAY_ENABLE);
       Handles.Control
         (Z.lor Protocol.U3LOOP_CMD_CONF_LPM Protocol.U3LOOP_LPM_ENTRY_ENABLE);
       Handles.ReleaseInterface; Handles.Close; Handles.LibusbExit].
Proof.
  destruct (bench_main_releases_the_device Scenarios.bench_options Scenarios.bench_env
              Scenarios.bench_finish) as (Hrules & Hlast & _ & Hdisplay).
  - apply returned_ret. vm_compute. reflexivity.
  - split; [exact Hrules|]. split; [apply Hlast; reflexivity|].
    apply Hdisplay. apply (bool_decide_eq_true_1 _). vm_compute. reflexivity.
Defined.

(** ** How [main] ends *)
(** X17.  The exit status of u3bench: [main] returns EXIT_SUCCESS only
    when the pool was allocated in full and the main loop was left by its
    condition, [terminate] being set (by a signal, by the time limit or by
    a transfer that reported the device gone); the report is then what
    [print_report] printed for the state the loop ended with, and the pool
    was drained from there.  Every other return is EXIT_FAILURE, without a
    report. *)
Theorem bench_exit_status
    (o : U3benchMain.options) (e : U3benchMain.main_env) (fin : U3benchMain.finish) :
  U3benchMain.main o e = Outcome.Ret fin →
  (U3benchMain.retval fin = U3bench.EXIT_SUCCESS ∨
   U3benchMain.retval fin = U3bench.EXIT_FAILURE) ∧
  (U3benchMain.retval fin = U3bench.EXIT_FAILURE → U3benchMain.printed fin = None) ∧
  (U3benchMain.retval fin = U3bench.EXIT_SUCCESS →
   ∃ start w0 w1 w2,
     U3benchMain.start e = Some start ∧
     U3bench.fill_pool (U3benchMain.opt_mode o) (U3benchMain.opt_transfer_size o)
       (U3benchMain.fill e) (U3bench.world_at_start start) = U3bench.Continue w0 ∧
     U3bench.main_loop (U3benchMain.opt_time_limit o) (U3benchMain.opt_report_ival o)
       (U3benchMain.ticks e)
       {| U3bench.take_measurement := false; U3bench.last_time_running := 0 |} w0
     = Outcome.Ret (U3bench.Continue w1) ∧
     U3bench.terminate w1 = true ∧
     U3benchMain.print_report (U3benchMain.report_clock e) (U3bench.state w1)
     = Some (U3benchMain.printed fin) ∧
     U3bench.drain (U3benchMain.batches e) w1 = Outcome.Ret w2 ∧
     U3benchMain.pool fin = Some w2).
Proof.
  unfold U3benchMain.main.
  destruct (if decide (U3benchMain.opt_vid o = 0) then _ else _) as [vid pid].
  case_decide; [intros [= <-]; by repeat split; [right|..]|].
  destruct (Handles.open_device _ _ _ _ _) as [dev looked].
  destruct dev as [dev|]; [|intros [= <-]; by repeat split; [right|..]].
  destruct (U3benchMain.configure o vid pid e _) as [fin'|cs] eqn:Hcfg.
  { intros [= <-]. unfold U3benchMain.configure in Hcfg.
    case_decide; [|done]. case_decide.
    - injection Hcfg as <-. by repeat split; [right|..].
    - destruct (Handles.wait_loop _ _ _ _ _ _) as [again polled].
      destruct again; [done|]. injection Hcfg as <-. by repeat split; [right|..]. }
  destruct (U3benchMain.start e) as [start|];
    [|intros [= <-]; by repeat split; [right|..]].
  unfold U3benchMain.benchmark.
  destruct (U3bench.fill_pool _ _ _ _) as [w0|w0] eqn:Hfill.
  - destruct (U3bench.main_loop _ _ _ _ _) as [[w1|w1]| |] eqn:Hloop; try done;
      cbn [mbind Outcome.result_bind].
    + destruct (U3benchMain.print_report _ _) as [r|] eqn:Hreport; [|done].
      cbn [Outcome.trap mbind Outcome.result_bind].
      destruct (U3bench.drain _ _) as [w2| |] eqn:Hdrain; try done.
      cbn [mbind Outcome.result_bind]. intros [= <-].
      split; [by left|]. split; [done|]. intros _.
      exists start, w0, w1, w2. repeat split; try done.
      by eapply main_loop_left_by_terminate.
    + destruct (U3bench.drain _ _) as [w2| |]; try done.
      cbn [mbind Outcome.result_bind]. intros [= <-]. by repeat split; [right|..].
  - destruct (U3bench.drain _ _) as [w2| |]; try done.
    cbn [mbind Outcome.result_bind]. intros [= <-]. by repeat split; [right|..].
Qed.

Lemma bench_exit_status_witness :
  ∃ w1, U3bench.terminate w1 = true ∧
        U3benchMain.print_report (Some Inputs.t2) (U3bench.state w1)
        = Some (U3benchMain.printed Scenarios.bench_finish).
Proof.
  destruct (bench_exit_status Scenarios.bench_options Scenarios.bench_env
              Scenarios.bench_finish) as (_ & _ & Hsuccess).
  - apply returned_ret. vm_compute. reflexivity.
  - destruct Hsuccess as (start & w0 & w1 & w2 & _ & _ & _ & Hterm & Hreport & _);
      [vm_compute; reflexivity|].
    exists w1. split; [exact Hterm|exact Hreport].
Defined.

(** ** [main] of u3loop *)
Section LoopMain.
Import Libusb Defines Protocol Outcome U3loopMain.


Local Abbreviation display_off :=
  (Handles.Control (Z.lor U3LOOP_CMD_SET_DISPLAY_MODE U3LOOP_DISPLAY_DISABLE)).

(** How [main] leaves the device, by the way it ends. *)
Local Abbreviation left_tidy o e fin :=
  (match how fin with
   | Returned rv =>
       (rv = EXIT_SUCCESS ∨ rv = EXIT_FAILURE) ∧
       Handles.after_calls Handles.NoHandle (calls fin) = Some Handles.NoHandle ∧
       (display_off ∈ calls fin →
        ∃ before,
          calls fin
          = before ++
            [Handles.Control (Z.lor U3LOOP_CMD_SET_DISPLAY_MODE U3LOOP_DISPLAY_ENABLE);
             Handles.Control (Z.lor U3LOOP_CMD_CONF_LPM U3LOOP_LPM_ENTRY_ENABLE);
             Handles.ReleaseInterface; Handles.Close; Handles.LibusbExit])
   | Exited status =>
       (status = EXIT_FAILURE ∧ calls fin = [] ∧
        opt_report_ival o ≠ -1 ∧ opt_report_ops o ≠ -1) ∨
       (status = -1 ∧ timer_delete_ret e = -1 ∧
        Handles.after_calls Handles.NoHandle (calls fin) = Some Handles.Claimed ∧
        last (calls fin) = Some display_off)
   end).





End LoopMain.





(** X20.  The report does not keep the benchmark from ending: with the
    device open and the start time taken, [main] gets to [fail2] whenever
    the pipeline returns, with the value and the pool of the pipeline. *)
Theorem benchmark_returns_with_the_pipeline
    (o : U3benchMain.options) (e : U3benchMain.main_env)
    (start : Mach.timespec) (calls : list Handles.usb_call)
    (rv : Z) (w : U3bench.world) :
  U3bench.pipeline (U3benchMain.opt_mode o) (U3benchMain.opt_transfer_size o)
    (U3benchMain.opt_time_limit o) (U3benchMain.opt_report_ival o)
    (U3benchMain.fill e) (U3benchMain.ticks e) (U3benchMain.batches e)
    (U3bench.world_at_start start)
  = Outcome.Ret (rv, w) →
  ∃ r, U3benchMain.benchmark o e start calls
       = Outcome.Ret (U3benchMain.fail2 o rv calls r (Some w)).
Proof.
  unfold U3benchMain.benchmark, U3bench.pipeline.
  destruct (U3bench.fill_pool _ _ _ _) as [w0|w0].
  - destruct (U3bench.main_loop _ _ _ _ _) as [[w1|w1]| |]; try done;
      cbn [mbind Outcome.result_bind].
    + assert (∃ r, U3benchMain.print_report (U3benchMain.report_clock e)
                     (U3bench.state w1) = Some r) as [r Hr].
      { destruct (U3benchMain.report_clock e) as [now|]; [|by exists None].
        destruct (bench_print_report_returns now (U3bench.state w1)) as (r & _ & Hr & _).
        by exists (Some r). }
      rewrite Hr. cbn [Outcome.trap mbind Outcome.result_bind].
      destruct (U3bench.drain _ _) as [w2| |]; try done.
      cbn [mbind Outcome.result_bind]. intros [= <- <-]. by exists r.
    + destruct (U3bench.drain _ _) as [w2| |]; try done.
      cbn [mbind Outcome.result_bind]. intros [= <- <-]. by exists None.
  - destruct (U3bench.drain _ _) as [w2| |]; try done.
    cbn [mbind Outcome.result_bind]. intros [= <- <-]. by exists None.
Qed.

Lemma benchmark_returns_with_the_pipeline_witness :
  ∃ r w, U3benchMain.benchmark Scenarios.bench_options Scenarios.bench_env Inputs.t0 []
         = Outcome.Ret (U3benchMain.fail2 Scenarios.bench_options U3bench.EXIT_SUCCESS
                          [] r (Some w)).
Proof.
  destruct (benchmark_returns_with_the_pipeline Scenarios.bench_options
              Scenarios.bench_env Inputs.t0 [] U3bench.EXIT_SUCCESS
              (default Inputs.full_pool (U3benchMain.pool Scenarios.bench_finish)))
    as [r Hbench].
  - vm_compute. reflexivity.
  - by exists r, (default Inputs.full_pool (U3benchMain.pool Scenarios.bench_finish)).
Defined.
